(** * AE Toolkit (app.py): the calculation rules over binary64 floats

    The three calculators of [app.py] (credit limit, deal profitability,
    Murabahah schedule) and the text parser [clean_number] are embedded as
    Rocq functions.  A Python [float] is an IEEE 754 binary64 number, which
    is what Rocq's primitive [float] is: arithmetic, comparisons and
    rounding (to nearest, ties to even) are those of the Python program.
    Python [int] constants that meet floats ([0], [100000], [2000000]) are
    exactly representable and are written as floats.

    The streamlit widgets are not modelled, and where a calculator stores
    a formatted string, the model stores the values the string is built
    from; [format_currency] and [format_percentage] are modelled on their
    own, and so is the session state of the page across script runs. *)

From Stdlib Require Import ZArith List String Ascii Bool Lia Floats Permutation.
Import ListNotations.

Set Warnings "-inexact-float".

Local Open Scope float_scope.

(** ** Python's numeric operators on floats *)

Module Py.

(** [a < b], [a <= b], [a > b], [a >= b]: false whenever an operand is NaN. *)
Definition lt (a b : float) : bool := a <? b.
Definition le (a b : float) : bool := a <=? b.
Definition gt (a b : float) : bool := b <? a.
Definition ge (a b : float) : bool := b <=? a.

(** [min(a, b)] keeps [a] unless [b < a]; [max(a, b)] keeps [a] unless
    [b > a] (CPython's [min_max] loop). *)
Definition min (a b : float) : float := if lt b a then b else a.
Definition max (a b : float) : float := if gt b a then b else a.

(** [a / b] on floats raises [ZeroDivisionError] when [b] is zero. *)
Definition truediv (a b : float) : option float :=
  if b =? 0 then None else Some (a / b).

(** [float(z)] for an int [z]: nearest binary64, ties to even;
    an int too large for a float becomes an infinity here (Python raises
    OverflowError, as does every later use of that infinity in [int]). *)
Definition float_of_int (z : Z) : float :=
  SF2Prim (binary_normalize prec emax z 0 false).

(** [int(x)]: truncation toward zero; NaN and the infinities raise. *)
Definition int_of_float (x : float) : option Z :=
  match Prim2SF x with
  | S754_zero _ => Some 0%Z
  | S754_finite s m e =>
      let v := if (0 <=? e)%Z then (Zpos m * 2 ^ e)%Z
               else (Zpos m / 2 ^ (- e))%Z in
      Some (if s then (- v)%Z else v)
  | S754_infinity _ => None
  | S754_nan => None
  end.

Definition is_nan (x : float) : bool := negb (x =? x).

(** The IEEE 754 datum of a float that is greater than zero. *)
Definition positive_sf (x : spec_float) : Prop :=
  match x with
  | S754_finite false _ _ | S754_infinity false => True
  | _ => False
  end.

(** The exact value of a finite float in units of [2^-k], when that is an
    integer (what [float.as_integer_ratio] gives, scaled). *)
Definition scaled (k : Z) (x : float) : option Z :=
  match Prim2SF x with
  | S754_zero _ => Some 0%Z
  | S754_finite s m e =>
      if (0 <=? e + k)%Z
      then Some (if s then (- (Zpos m * 2 ^ (e + k)))%Z else (Zpos m * 2 ^ (e + k))%Z)
      else None
  | S754_infinity _ => None
  | S754_nan => None
  end.

End Py.

(** ** Text handling: [str.replace], [str.strip] and [float(str)]

    The model is of ASCII text: a [string] is a sequence of bytes, each
    byte below 128 one character.  On such text [strip] and
    [float_of_string] are Python's [str.strip] and [float].  Python
    also strips Unicode white space (U+00A0, U+2003, ...) and reads Unicode
    decimal digits (Arabic-Indic, full-width, ...), which depend on the
    interpreter's Unicode tables and are not modelled: the statements that
    rest on how a text is stripped or read are stated for texts that
    satisfy [Text.is_ascii]. *)

Module Text.

Local Open Scope char_scope.

(** [s.replace(c, '')] for a one-character [c]. *)
Fixpoint remove_char (c : ascii) (s : string) : string :=
  match s with
  | EmptyString => EmptyString
  | String a s' =>
      if Ascii.eqb a c then remove_char c s' else String a (remove_char c s')
  end.

(** The ASCII characters for which [str.isspace] holds: the white space
    of [str.strip] on ASCII text. *)
Definition is_space (a : ascii) : bool :=
  let n := nat_of_ascii a in
  ((9 <=? n) && (n <=? 13) || (28 <=? n) && (n <=? 32))%nat.

Fixpoint lstrip (s : string) : string :=
  match s with
  | EmptyString => EmptyString
  | String a s' => if is_space a then lstrip s' else s
  end.

(** [rstrip]: a character is dropped when it is white space and so is
    everything after it. *)
Fixpoint rstrip (s : string) : string :=
  match s with
  | EmptyString => EmptyString
  | String a s' =>
      match rstrip s' with
      | EmptyString => if is_space a then EmptyString else String a EmptyString
      | r => String a r
      end
  end.

Definition strip (s : string) : string := rstrip (lstrip s).

Definition is_digit (a : ascii) : bool :=
  let n := nat_of_ascii a in ((48 <=? n) && (n <=? 57))%nat.

Definition digit_val (a : ascii) : Z := Z.of_nat (nat_of_ascii a - 48).

Definition lower (a : ascii) : ascii :=
  let n := nat_of_ascii a in
  if ((65 <=? n) && (n <=? 90))%nat then ascii_of_nat (n + 32) else a.

Fixpoint lower_string (s : string) : string :=
  match s with
  | EmptyString => EmptyString
  | String a s' => String (lower a) (lower_string s')
  end.

(** [digitpart ::= digit (["_"] digit)*], after its first digit: the
    digits read so far are accumulated in [acc] (value) and counted in
    [n]; returns value, count and the unread rest. *)
Fixpoint digits_tail (s : string) (acc : Z) (n : Z) : Z * Z * string :=
  match s with
  | String a s' =>
      if is_digit a then digits_tail s' (10 * acc + digit_val a)%Z (n + 1)%Z
      else if Ascii.eqb a "_" then
        match s' with
        | String b s'' =>
            if is_digit b
            then digits_tail s'' (10 * acc + digit_val b)%Z (n + 1)%Z
            else (acc, n, s)
        | EmptyString => (acc, n, s)
        end
      else (acc, n, s)
  | EmptyString => (acc, n, s)
  end.

(** A [digitpart] continuing the value [acc]; [None] when [s] does not
    start with a digit. *)
Definition digitpart (s : string) (acc : Z) : option (Z * Z * string) :=
  match s with
  | String a s' =>
      if is_digit a then Some (digits_tail s' (10 * acc + digit_val a)%Z 1%Z)
      else None
  | EmptyString => None
  end.

(** [number ::= [digitpart] "." digitpart | digitpart ["."]]:
    the decimal mantissa and the number of fraction digits. *)
Definition number (s : string) : option (Z * Z * string) :=
  match digitpart s 0%Z with
  | Some (m, _, String "." r) =>
      match digitpart r m with
      | Some (m', k, r') => Some (m', k, r')
      | None => Some (m, 0%Z, r)
      end
  | Some (m, _, r) => Some (m, 0%Z, r)
  | None =>
      match s with
      | String "." r => digitpart r 0%Z
      | _ => None
      end
  end.

Definition sign (s : string) : bool * string :=
  match s with
  | String "-" r => (true, r)
  | String "+" r => (false, r)
  | _ => (false, s)
  end.

(** [exponent ::= ("e" | "E") [sign] digitpart]; absent exponent is 0,
    and the rest must be empty. *)
Definition exponent (s : string) : option Z :=
  match s with
  | EmptyString => Some 0%Z
  | String c r =>
      if Ascii.eqb (lower c) "e" then
        let '(neg, r') := sign r in
        match digitpart r' 0%Z with
        | Some (e, _, EmptyString) => Some (if neg then (- e)%Z else e)
        | _ => None
        end
      else None
  end.

(** Every character of [s] passes the test [p]. *)
Fixpoint all_chars (p : ascii -> bool) (s : string) : bool :=
  match s with
  | EmptyString => true
  | String a s' => p a && all_chars p s'
  end.

(** The letters of "inf", "infinity" and "nan", and the exponent marker. *)
Definition is_float_letter (a : ascii) : bool :=
  (Ascii.eqb a "e" || Ascii.eqb a "i" || Ascii.eqb a "n" || Ascii.eqb a "f"
   || Ascii.eqb a "t" || Ascii.eqb a "y" || Ascii.eqb a "a")%bool.

(** The characters that can occur in a text [float] accepts: digits, the
    underscore, the point, the signs and, in either case, the letters
    above. *)
Definition numeric_char (a : ascii) : bool :=
  (is_digit a || Ascii.eqb a "_" || Ascii.eqb a "." || Ascii.eqb a "+"
   || Ascii.eqb a "-" || is_float_letter (lower a))%bool.

(** The text is ASCII: every byte is below 128. *)
Definition is_ascii (s : string) : bool :=
  all_chars (fun a => (nat_of_ascii a <? 128)%nat) s.

End Text.

Module Decimal.

(** The binary64 nearest to [(-1)^s * p / q] for positive [p] and [q],
    ties to even, overflowing to an infinity. *)
Definition round_ratio (s : bool) (p q : positive) : float :=
  let '(mz, ez, lz) := SFdiv_core_binary prec emax (Zpos p) 0 (Zpos q) 0 in
  SF2Prim (binary_round_aux prec emax s mz ez lz).

(** The binary64 nearest to [(-1)^s * m * 10^e]. *)
Definition of_decimal (s : bool) (m e : Z) : float :=
  match m with
  | Zpos p =>
      if (0 <=? e)%Z then round_ratio s (p * Z.to_pos (10 ^ e)) 1
      else round_ratio s p (Z.to_pos (10 ^ (- e)))
  | _ => if s then (-0) else 0
  end.

End Decimal.

(** [float(s)] for an ASCII string: [None] stands for [ValueError]. *)
Definition float_of_string (s : string) : option float :=
  let '(neg, r) := Text.sign (Text.strip s) in
  let l := Text.lower_string r in
  if (String.eqb l "inf" || String.eqb l "infinity")%bool
  then Some (if neg then neg_infinity else infinity)
  else if String.eqb l "nan" then Some nan
  else
    match Text.number r with
    | Some (m, k, r') =>
        match Text.exponent r' with
        | Some e => Some (Decimal.of_decimal neg m (e - k))
        | None => None
        end
    | None => None
    end.

(** ** [clean_number] (app.py, lines 48-59)

    The argument is [None], a number (an int or a float from a numeric
    widget) or text. *)

Inductive pyval :=
| PyNone
| PyInt (z : Z)
| PyFloat (x : float)
| PyStr (s : string).

Definition clean_number (num_str : pyval) (is_percentage : bool) : float :=
  match num_str with
  | PyNone => 0
  | PyInt z =>
      let val := Py.float_of_int z in
      if is_percentage && Py.ge (abs val) 1 then val / 100 else val
  | PyFloat val =>
      if is_percentage && Py.ge (abs val) 1 then val / 100 else val
  | PyStr s =>
      let cleaned := Text.strip (Text.remove_char "%" (Text.remove_char "," s)) in
      if String.eqb cleaned "" then 0
      else
        match float_of_string cleaned with
        | Some val => if is_percentage then val / 100 else val
        | None => 0
        end
  end.

(** ** Exceptions caught by the calculators' [try] blocks *)

Inductive exc :=
| ZeroDivisionError
| OtherException.

(** ** Credit Limit Calculator (app.py, lines 124-277) *)

Module CreditLimit.

Local Open Scope string_scope.
Local Open Scope list_scope.

Inductive industry := Trading | Manufacturing | Contractor.

Inductive yes_no := Yes | No.

Definition is_yes (a : yes_no) : bool :=
  match a with Yes => true | No => false end.
Definition is_no (a : yes_no) : bool := negb (is_yes a).

Definition is_contractor (i : option industry) : bool :=
  match i with Some Contractor => true | _ => false end.

(** The submitted form: six text inputs, the industry select box (nothing
    selected is [None]), the unbilled-revenue text (the source sets it to
    the empty string unless the industry is Contractor), two numeric
    inputs and four radio buttons. *)
Record form := {
  requested_limit_str : string;
  revenue_str : string;
  net_profit_percentage_str : string;
  current_assets_str : string;
  current_liabilities_str : string;
  exposure_outstanding_str : string;
  industry_type : option industry;
  unbilled_revenue_str : string;
  is_saudi : yes_no;
  years_of_operation_str : float;
  has_concentration : yes_no;
  number_of_projects_str : Z;
  has_previous_payments : yes_no;
  has_payment_delays : yes_no
}.

(** One entry of [calculation_details["Adjustments"]]: the source formats
    reason, percent change, limit before and limit after into one string. *)
Record adjustment := {
  adj_reason : string;
  adj_value_info : option float;
  adj_change_percent : float;
  adj_before : float;
  adj_after : float
}.

(** [calculation_details["Min/Max Applied"]]. *)
Inductive threshold := NoThreshold | FloorApplied | CeilingApplied.

Inductive coverage :=
| Covers (additional : float)
| Shortfall (missing : float).

Inductive reason :=
| NetProfitRequired          (* "Net profit > 0% required." *)
| ValidRatioNeeded           (* "Valid Current Assets/Liabilities needed." *)
| RatioAboveOneRequired (actual_current_ratio : float).
                             (* "Current ratio > 1 required (is ...)." *)

Record result := {
  base_limit_unadjusted : float;
  base_limit_cap_applied : bool;
  base_limit_after_cap : float;
  adjustments : list adjustment;
  adjusted_limit : float;
  final_limit : float;
  min_max_applied : threshold;
  requested : coverage
}.

Inductive outcome :=
| InputErrors (errors : list string)
| NotEligible (eligibility_reasons : list reason)
| Calculated (r : result)
| Failed (e : exc).

Definition max_initial_base_limit : float := 2000000.
Definition min_final_limit : float := 100000.
Definition max_final_limit : float := 2000000.

(** The running limit together with the adjustment entries appended so far. *)
Definition chain : Type := float * list adjustment.

Definition apply_adjustment (c : chain) (factor : float) (reason : string)
    (value_info : option float) : chain :=
  let '(current_limit, details) := c in
  let change_percent := (factor - 1) * 100 in
  let new_limit := current_limit * factor in
  (new_limit,
   details ++ [ {| adj_reason := reason; adj_value_info := value_info;
                   adj_change_percent := change_percent;
                   adj_before := current_limit; adj_after := new_limit |} ]).

(** [errors.append(msg)] under a condition. *)
Definition check (violated : bool) (msg : string) : list string :=
  if violated then [msg] else [].

Definition blank (s : string) : bool := String.eqb (Text.strip s) "".

Section Submitted.

Variable f : form.

(** Data cleaning (lines 158-166). *)
Definition requested_limit := clean_number (PyStr (requested_limit_str f)) false.
Definition revenue := clean_number (PyStr (revenue_str f)) false.
Definition net_profit_percentage :=
  clean_number (PyStr (net_profit_percentage_str f)) true.
Definition current_assets := clean_number (PyStr (current_assets_str f)) false.
Definition current_liabilities :=
  clean_number (PyStr (current_liabilities_str f)) false.
Definition exposure_outstanding :=
  clean_number (PyStr (exposure_outstanding_str f)) false.
Definition unbilled_revenue :=
  if is_contractor (industry_type f)
  then clean_number (PyStr (unbilled_revenue_str f)) false else 0.
Definition years_of_operation :=
  clean_number (PyFloat (years_of_operation_str f)) false.
Definition number_of_projects : option Z :=
  Py.int_of_float (clean_number (PyInt (number_of_projects_str f)) false).

(** Validation (lines 169-186), in the order of the appends. *)
Definition errors (projects : Z) : list string :=
  check (Py.le requested_limit 0) "Requested Limit > 0."
  ++ check (Py.le revenue 0) "Revenue > 0."
  ++ check (Py.lt exposure_outstanding 0) "Exposure >= 0."
  ++ check (match industry_type f with None => true | Some _ => false end)
           "Industry Type required."
  ++ (if is_contractor (industry_type f) then
        if blank (unbilled_revenue_str f) then ["Unbilled Revenue required."]
        else check (Py.le unbilled_revenue 0) "Unbilled Revenue > 0."
      else [])
  ++ check (Py.le years_of_operation 0) "Years Op > 0."
  ++ check (projects <? 1)%Z "Projects >= 1."
  ++ (if blank (net_profit_percentage_str f) then ["Net Profit % required."]
      else check (Py.le net_profit_percentage 0) "Net Profit % must be > 0.")
  ++ check (blank (current_assets_str f)) "Current Assets required."
  ++ check (blank (current_liabilities_str f)) "Current Liabilities required."
  ++ check (Py.le current_assets 0) "Current Assets > 0."
  ++ check (Py.le current_liabilities 0) "Current Liabilities > 0.".

Definition actual_net_profit : float :=
  if Py.gt revenue 0 then revenue * net_profit_percentage else 0.

(** Line 187: the ratio stays [None] unless both operands are positive;
    the outer [inl] is an exception raised by the division. *)
Definition actual_current_ratio : exc + option float :=
  if Py.gt current_liabilities 0 && Py.gt current_assets 0 then
    match Py.truediv current_assets current_liabilities with
    | Some q => inr (Some q)
    | None => inl ZeroDivisionError
    end
  else inr None.

(** Eligibility (lines 191-197). *)
Definition eligibility_reasons (ratio : option float) : list reason :=
  (if Py.le actual_net_profit 0 then [NetProfitRequired] else [])
  ++ match ratio with
     | None => [ValidRatioNeeded]
     | Some cr => if Py.le cr 1 then [RatioAboveOneRequired cr] else []
     end.

Definition is_eligible (ratio : option float) : bool :=
  negb (Py.le actual_net_profit 0)
  && match ratio with
     | None => false
     | Some cr => negb (Py.le cr 1)
     end.

(** Base limit and its cap (lines 202-207). *)
Definition base_unadjusted : float :=
  if is_contractor (industry_type f) then unbilled_revenue * 0.15
  else revenue * 0.05.

Definition cap_applied : bool := Py.gt base_unadjusted max_initial_base_limit.

Definition capped_base : float := Py.min base_unadjusted max_initial_base_limit.

(** The sequential adjustments (lines 222-231). *)
Definition adjust (projects : Z) (cr : float) (c0 : chain) : chain :=
  let c := c0 in
  let c := if Py.gt exposure_outstanding (revenue * 0.3)
           then apply_adjustment c 0.65 "Exposure > 30% Revenue" None else c in
  let c := if is_no (is_saudi f)
           then apply_adjustment c 0.90 "Non-Saudi company" None else c in
  let c := if Py.lt years_of_operation 3
           then apply_adjustment c 0.90 "Company < 3 years old" None else c in
  let c := if is_yes (has_concentration f)
           then apply_adjustment c 0.90 "Customer concentration > 40%" None else c in
  let c := if is_yes (has_previous_payments f) && is_yes (has_payment_delays f)
           then apply_adjustment c 0.90 "Payment delays > 30 days" None else c in
  let c := if (projects <? 3)%Z
           then apply_adjustment c 0.95 "Number of Projects < 3" None else c in
  let c := if Py.gt cr 2
           then apply_adjustment c 1.05 "Current Ratio > 2" (Some cr) else c in
  let c := if Py.gt years_of_operation 10
           then apply_adjustment c 1.05 "Years in Business > 10" None else c in
  let c := if is_yes (has_previous_payments f) && is_no (has_payment_delays f)
           then apply_adjustment c 1.10 "Previous Timely Payments" None else c in
  c.

End Submitted.

(** Floor and ceiling (lines 235-239).  The ceiling is skipped when the
    base-cap note is set and the two maxima are equal. *)
Definition clamp (cap_note : bool) (credit_limit : float) : float * threshold :=
  if Py.lt credit_limit min_final_limit then (min_final_limit, FloorApplied)
  else if Py.gt credit_limit max_final_limit then
    if negb (cap_note && (max_final_limit =? max_initial_base_limit)%float)
    then (max_final_limit, CeilingApplied)
    else (credit_limit, NoThreshold)
  else (credit_limit, NoThreshold).

Definition calculate (f : form) (projects : Z) (cr : float) : result :=
  let '(credit_limit, details) := adjust f projects cr (capped_base f, []) in
  let '(final, note) := clamp (cap_applied f) credit_limit in
  {| base_limit_unadjusted := base_unadjusted f;
     base_limit_cap_applied := cap_applied f;
     base_limit_after_cap := capped_base f;
     adjustments := details;
     adjusted_limit := credit_limit;
     final_limit := final;
     min_max_applied := note;
     requested :=
       if Py.ge final (requested_limit f)
       then Covers (final - requested_limit f)
       else Shortfall (requested_limit f - final) |}.

(** The handler of the submit button. *)
Definition credit_limit_calculator (f : form) : outcome :=
  match number_of_projects f with
  | None => Failed OtherException
  | Some projects =>
      match actual_current_ratio f with
      | inl e => Failed e
      | inr ratio =>
          match errors f projects with
          | (_ :: _) as errs => InputErrors errs
          | [] =>
              if negb (is_eligible f ratio)
              then NotEligible (eligibility_reasons f ratio)
              else
                match ratio with
                | Some cr => Calculated (calculate f projects cr)
                | None => Failed OtherException
                end
          end
      end
  end.

(** *** Vocabulary for the statements about the calculator *)

(** The limit lies in [[min_final_limit, max_final_limit]]. *)
Definition in_range (x : float) : bool :=
  Py.le min_final_limit x && Py.le x max_final_limit.

(** One adjustment of the pipeline: the arguments of [apply_adjustment]. *)
Record step := {
  step_factor : float;
  step_reason : string;
  step_info : option float
}.

Definition when (b : bool) (s : step) : list step := if b then [s] else [].

(** The adjustments whose condition holds, in the order of lines 222-231. *)
Definition triggered (f : form) (projects : Z) (cr : float) : list step :=
  when (Py.gt (exposure_outstanding f) (revenue f * 0.3))
       {| step_factor := 0.65; step_reason := "Exposure > 30% Revenue"; step_info := None |}
  ++ when (is_no (is_saudi f))
       {| step_factor := 0.90; step_reason := "Non-Saudi company"; step_info := None |}
  ++ when (Py.lt (years_of_operation f) 3)
       {| step_factor := 0.90; step_reason := "Company < 3 years old"; step_info := None |}
  ++ when (is_yes (has_concentration f))
       {| step_factor := 0.90; step_reason := "Customer concentration > 40%"; step_info := None |}
  ++ when (is_yes (has_previous_payments f) && is_yes (has_payment_delays f))
       {| step_factor := 0.90; step_reason := "Payment delays > 30 days"; step_info := None |}
  ++ when (projects <? 3)%Z
       {| step_factor := 0.95; step_reason := "Number of Projects < 3"; step_info := None |}
  ++ when (Py.gt cr 2)
       {| step_factor := 1.05; step_reason := "Current Ratio > 2"; step_info := Some cr |}
  ++ when (Py.gt (years_of_operation f) 10)
       {| step_factor := 1.05; step_reason := "Years in Business > 10"; step_info := None |}
  ++ when (is_yes (has_previous_payments f) && is_no (has_payment_delays f))
       {| step_factor := 1.10; step_reason := "Previous Timely Payments"; step_info := None |}.

(** The factor of a step is a finite, non-zero binary64 number. *)
Definition finite_factor (s : step) : Prop :=
  exists sg m e, Prim2SF (step_factor s) = S754_finite sg m e.

(** A list of adjustments applied one after the other. *)
Definition run_steps (steps : list step) (c : chain) : chain :=
  fold_left
    (fun c s => apply_adjustment c (step_factor s) (step_reason s) (step_info s))
    steps c.

(** The final limit when [steps] are applied to the capped base. *)
Definition final_with (f : form) (steps : list step) : float :=
  fst (clamp (cap_applied f) (fst (run_steps steps (capped_base f, [])))).

(** The field rules of the validation block, one per [errors.append]. *)
Inductive rule :=
| RequestedLimit | Revenue | Exposure | IndustryType
| UnbilledRequired | UnbilledPositive | YearsOp | Projects
| NetProfitRequiredRule | NetProfitPositive
| AssetsRequired | LiabilitiesRequired | AssetsPositive | LiabilitiesPositive.

Definition all_rules : list rule :=
  [RequestedLimit; Revenue; Exposure; IndustryType; UnbilledRequired;
   UnbilledPositive; YearsOp; Projects; NetProfitRequiredRule;
   NetProfitPositive; AssetsRequired; LiabilitiesRequired; AssetsPositive;
   LiabilitiesPositive].

Definition message (r : rule) : string :=
  match r with
  | RequestedLimit => "Requested Limit > 0."
  | Revenue => "Revenue > 0."
  | Exposure => "Exposure >= 0."
  | IndustryType => "Industry Type required."
  | UnbilledRequired => "Unbilled Revenue required."
  | UnbilledPositive => "Unbilled Revenue > 0."
  | YearsOp => "Years Op > 0."
  | Projects => "Projects >= 1."
  | NetProfitRequiredRule => "Net Profit % required."
  | NetProfitPositive => "Net Profit % must be > 0."
  | AssetsRequired => "Current Assets required."
  | LiabilitiesRequired => "Current Liabilities required."
  | AssetsPositive => "Current Assets > 0."
  | LiabilitiesPositive => "Current Liabilities > 0."
  end.

(** The source's own test for a rule: the condition under which the
    validation block appends the rule's message (lines 170-186). *)
Definition reported (f : form) (projects : Z) (r : rule) : bool :=
  match r with
  | RequestedLimit => Py.le (requested_limit f) 0
  | Revenue => Py.le (revenue f) 0
  | Exposure => Py.lt (exposure_outstanding f) 0
  | IndustryType => match industry_type f with None => true | Some _ => false end
  | UnbilledRequired =>
      is_contractor (industry_type f) && blank (unbilled_revenue_str f)
  | UnbilledPositive =>
      is_contractor (industry_type f) && negb (blank (unbilled_revenue_str f))
      && Py.le (unbilled_revenue f) 0
  | YearsOp => Py.le (years_of_operation f) 0
  | Projects => (projects <? 1)%Z
  | NetProfitRequiredRule => blank (net_profit_percentage_str f)
  | NetProfitPositive =>
      negb (blank (net_profit_percentage_str f))
      && Py.le (net_profit_percentage f) 0
  | AssetsRequired => blank (current_assets_str f)
  | LiabilitiesRequired => blank (current_liabilities_str f)
  | AssetsPositive => Py.le (current_assets f) 0
  | LiabilitiesPositive => Py.le (current_liabilities f) 0
  end.

(** *** Submitted forms used as examples *)

(** Revenue 10,000,000, Trading, current ratio 3, 12 years in business,
    previous payments without delays, nothing else triggered. *)
Definition timely_trading_form : form :=
  {| requested_limit_str := "500,000"; revenue_str := "10,000,000";
     net_profit_percentage_str := "5"; current_assets_str := "3,000,000";
     current_liabilities_str := "1,000,000"; exposure_outstanding_str := "0";
     industry_type := Some Trading; unbilled_revenue_str := "";
     is_saudi := Yes; years_of_operation_str := 12; has_concentration := No;
     number_of_projects_str := 3; has_previous_payments := Yes;
     has_payment_delays := No |}.

(** A contractor whose unbilled-revenue text is "nan". *)
Definition nan_unbilled_form : form :=
  {| requested_limit_str := "500,000"; revenue_str := "10,000,000";
     net_profit_percentage_str := "5"; current_assets_str := "3,000,000";
     current_liabilities_str := "2,000,000"; exposure_outstanding_str := "0";
     industry_type := Some Contractor; unbilled_revenue_str := "nan";
     is_saudi := Yes; years_of_operation_str := 5; has_concentration := No;
     number_of_projects_str := 3; has_previous_payments := No;
     has_payment_delays := No |}.

(** A revenue and a net profit so small that their product underflows to
    zero; the current ratio is 3. *)
Definition tiny_profit_form : form :=
  {| requested_limit_str := "500,000"; revenue_str := "1e-200";
     net_profit_percentage_str := "1e-200"; current_assets_str := "3,000,000";
     current_liabilities_str := "1,000,000"; exposure_outstanding_str := "0";
     industry_type := Some Trading; unbilled_revenue_str := "";
     is_saudi := Yes; years_of_operation_str := 5; has_concentration := No;
     number_of_projects_str := 3; has_previous_payments := No;
     has_payment_delays := No |}.

(** Current assets that read "nan". *)
Definition nan_assets_form : form :=
  {| requested_limit_str := "500,000"; revenue_str := "10,000,000";
     net_profit_percentage_str := "5"; current_assets_str := "nan";
     current_liabilities_str := "1,000,000"; exposure_outstanding_str := "0";
     industry_type := Some Trading; unbilled_revenue_str := "";
     is_saudi := Yes; years_of_operation_str := 5; has_concentration := No;
     number_of_projects_str := 3; has_previous_payments := No;
     has_payment_delays := No |}.

(** Revenue 2,300,000 with two adjustments triggered: current ratio above 2
    (+5%) and previous timely payments (+10%). *)
Definition two_bonus_form : form :=
  {| requested_limit_str := "100,000"; revenue_str := "2,300,000";
     net_profit_percentage_str := "5"; current_assets_str := "3,000,000";
     current_liabilities_str := "1,000,000"; exposure_outstanding_str := "0";
     industry_type := Some Trading; unbilled_revenue_str := "";
     is_saudi := Yes; years_of_operation_str := 5; has_concentration := No;
     number_of_projects_str := 3; has_previous_payments := Yes;
     has_payment_delays := No |}.

(** No requested limit, no industry, no liabilities. *)
Definition incomplete_form : form :=
  {| requested_limit_str := ""; revenue_str := "10,000,000";
     net_profit_percentage_str := "5"; current_assets_str := "3,000,000";
     current_liabilities_str := ""; exposure_outstanding_str := "0";
     industry_type := None; unbilled_revenue_str := "";
     is_saudi := Yes; years_of_operation_str := 5; has_concentration := No;
     number_of_projects_str := 3; has_previous_payments := No;
     has_payment_delays := No |}.

(** Current ratio 0.5. *)
Definition low_ratio_form : form :=
  {| requested_limit_str := "500,000"; revenue_str := "10,000,000";
     net_profit_percentage_str := "5"; current_assets_str := "1,000,000";
     current_liabilities_str := "2,000,000"; exposure_outstanding_str := "0";
     industry_type := Some Trading; unbilled_revenue_str := "";
     is_saudi := Yes; years_of_operation_str := 5; has_concentration := No;
     number_of_projects_str := 3; has_previous_payments := No;
     has_payment_delays := No |}.

(** Revenue 100,000,000 (base capped at 2,000,000) with the +5% and +10%
    adjustments. *)
Definition capped_bonus_form : form :=
  {| requested_limit_str := "500,000"; revenue_str := "100,000,000";
     net_profit_percentage_str := "5"; current_assets_str := "3,000,000";
     current_liabilities_str := "1,000,000"; exposure_outstanding_str := "0";
     industry_type := Some Trading; unbilled_revenue_str := "";
     is_saudi := Yes; years_of_operation_str := 5; has_concentration := No;
     number_of_projects_str := 3; has_previous_payments := Yes;
     has_payment_delays := No |}.

(** *** Vocabulary for further statements *)

(** The entries chain from [x] to [y]: each one starts at the limit the
    previous one ended with. *)
Fixpoint chained (x : float) (l : list adjustment) (y : float) : Prop :=
  match l with
  | [] => x = y
  | a :: l' => adj_before a = x /\ chained (adj_after a) l' y
  end.

(** The entry that [apply_adjustment] records for a step. *)
Definition records (s : step) (a : adjustment) : Prop :=
  adj_reason a = step_reason s
  /\ adj_value_info a = step_info s
  /\ adj_change_percent a = (step_factor s - 1) * 100
  /\ adj_after a = adj_before a * step_factor s.

(** The form with another text in the unbilled-revenue box. *)
Definition with_unbilled (f : form) (s : string) : form :=
  {| requested_limit_str := requested_limit_str f;
     revenue_str := revenue_str f;
     net_profit_percentage_str := net_profit_percentage_str f;
     current_assets_str := current_assets_str f;
     current_liabilities_str := current_liabilities_str f;
     exposure_outstanding_str := exposure_outstanding_str f;
     industry_type := industry_type f;
     unbilled_revenue_str := s;
     is_saudi := is_saudi f;
     years_of_operation_str := years_of_operation_str f;
     has_concentration := has_concentration f;
     number_of_projects_str := number_of_projects_str f;
     has_previous_payments := has_previous_payments f;
     has_payment_delays := has_payment_delays f |}.

(** The form with another text in the requested-limit box. *)
Definition with_requested (f : form) (s : string) : form :=
  {| requested_limit_str := s;
     revenue_str := revenue_str f;
     net_profit_percentage_str := net_profit_percentage_str f;
     current_assets_str := current_assets_str f;
     current_liabilities_str := current_liabilities_str f;
     exposure_outstanding_str := exposure_outstanding_str f;
     industry_type := industry_type f;
     unbilled_revenue_str := unbilled_revenue_str f;
     is_saudi := is_saudi f;
     years_of_operation_str := years_of_operation_str f;
     has_concentration := has_concentration f;
     number_of_projects_str := number_of_projects_str f;
     has_previous_payments := has_previous_payments f;
     has_payment_delays := has_payment_delays f |}.

(** The reasons recorded in a result, in order. *)
Definition reasons_of (r : result) : list string :=
  map adj_reason (adjustments r).

(** *** The rules as the specification words them

    Section 4.1 lists the field rules as requirements: requestedLimit > 0;
    revenue > 0; exposureOutstanding >= 0; industryType present; if
    Contractor, unbilledRevenue present and > 0; yearsOfOperation > 0;
    numberOfProjects >= 1; netProfitPercent, currentAssets and
    currentLiabilities present and > 0.  [rule_met] is the requirement as
    worded, one per message of the source; the "> 0" half of a
    present-and-positive pair whose message the source appends under
    [elif] is judged on a text that is present.  The source tests the
    opposite, [<= 0] and [< 0], which is not the same on NaN. *)
Definition rule_met (f : form) (projects : Z) (r : rule) : bool :=
  match r with
  | RequestedLimit => Py.gt (requested_limit f) 0
  | Revenue => Py.gt (revenue f) 0
  | Exposure => Py.ge (exposure_outstanding f) 0
  | IndustryType => match industry_type f with None => false | Some _ => true end
  | UnbilledRequired =>
      negb (is_contractor (industry_type f))
      || negb (blank (unbilled_revenue_str f))
  | UnbilledPositive =>
      negb (is_contractor (industry_type f)) || blank (unbilled_revenue_str f)
      || Py.gt (unbilled_revenue f) 0
  | YearsOp => Py.gt (years_of_operation f) 0
  | Projects => (1 <=? projects)%Z
  | NetProfitRequiredRule => negb (blank (net_profit_percentage_str f))
  | NetProfitPositive =>
      blank (net_profit_percentage_str f) || Py.gt (net_profit_percentage f) 0
  | AssetsRequired => negb (blank (current_assets_str f))
  | LiabilitiesRequired => negb (blank (current_liabilities_str f))
  | AssetsPositive => Py.gt (current_assets f) 0
  | LiabilitiesPositive => Py.gt (current_liabilities f) 0
  end.

(** Eligibility as the specification words it: actualNetProfit > 0 and
    currentRatio > 1. *)
Definition eligible_as_specified (f : form) (ratio : option float) : bool :=
  Py.gt (actual_net_profit f) 0
  && match ratio with
     | Some cr => Py.gt cr 1
     | None => false
     end.

(** Every number read from the form is a number, not NaN. *)
Definition numbers_read (f : form) : Prop :=
  Py.is_nan (requested_limit f) = false
  /\ Py.is_nan (revenue f) = false
  /\ Py.is_nan (exposure_outstanding f) = false
  /\ Py.is_nan (unbilled_revenue f) = false
  /\ Py.is_nan (years_of_operation f) = false
  /\ Py.is_nan (net_profit_percentage f) = false
  /\ Py.is_nan (current_assets f) = false
  /\ Py.is_nan (current_liabilities f) = false.

(** A net profit that reads "nan"; the current ratio is 3. *)
Definition nan_profit_form : form :=
  {| requested_limit_str := "500,000"; revenue_str := "10,000,000";
     net_profit_percentage_str := "nan"; current_assets_str := "3,000,000";
     current_liabilities_str := "1,000,000"; exposure_outstanding_str := "0";
     industry_type := Some Trading; unbilled_revenue_str := "";
     is_saudi := Yes; years_of_operation_str := 5; has_concentration := No;
     number_of_projects_str := 3; has_previous_payments := No;
     has_payment_delays := No |}.

End CreditLimit.

(** ** Profitability Calculator (app.py, lines 81-100 and 310-367) *)

Module Profit.

Local Open Scope string_scope.
Local Open Scope list_scope.

(** A staged deal: the dict built on line 325. *)
Record deal := {
  temp_id : string;
  client_name : string;
  deal_size : float;
  monthly_rate : float;
  admin_fee : float;
  months : Z;
  monthly_profit : float;
  total_profit : float;
  admin_fee_amount : float;
  gross_profit : float
}.

(** [s.replace(" ", "_")]. *)
Fixpoint underscores (s : string) : string :=
  match s with
  | EmptyString => EmptyString
  | String a s' =>
      String (if Ascii.eqb a " " then "_"%char else a) (underscores s')
  end.

(** The row arithmetic of line 324; [now] is
    [datetime.datetime.now().isoformat()]. *)
Definition new_deal (now client : string) (size rate fee_perc : float)
    (n : Z) : deal :=
  let monthly_profit := size * (rate / 100) in
  let total_profit := monthly_profit * Py.float_of_int n in
  let admin_fee_amount := size * (fee_perc / 100) in
  let gross_profit := total_profit + admin_fee_amount in
  {| temp_id := now ++ "_" ++ underscores client;
     client_name := client; deal_size := size; monthly_rate := rate;
     admin_fee := fee_perc; months := n;
     monthly_profit := monthly_profit; total_profit := total_profit;
     admin_fee_amount := admin_fee_amount; gross_profit := gross_profit |}.

(** "Add to Unsaved Deals" (lines 321-327): a warning and no change when
    the client name is empty or the size is not positive. *)
Definition add_to_unsaved (unsaved_deals : list deal) (now client : string)
    (size rate fee_perc : float) (n : Z) : list deal :=
  if String.eqb client "" || Py.le size 0 then unsaved_deals
  else unsaved_deals ++ [new_deal now client size rate fee_perc n].

(** "Remove Selected Staged Deals" (line 346). *)
Definition remove_staged (unsaved_deals : list deal)
    (temp_ids_to_remove : list string) : list deal :=
  filter (fun d => negb (existsb (String.eqb (temp_id d)) temp_ids_to_remove))
         unsaved_deals.

(** The row sent to the store (line 87). *)
Record db_deal := {
  db_fields : deal;
  db_user_id : string
}.

(** What [supabase.table('deals').insert(...).execute()] does: it raises,
    or it answers with an error (or none) and the rows it stored.
    [response.data] being [None] is the empty list here. *)
Inductive reply :=
| Raised
| Response (error : option string) (data : list db_deal).

(** [not x] for a Python string that may be [None]. *)
Definition missing (x : option string) : bool :=
  match x with
  | None => true
  | Some s => String.eqb s ""
  end.

Section Store.

(** The record store, an external collaborator. *)
Variable insert : list db_deal -> reply.

(** Line 88.  A staged deal has every key, a float size and an int
    number of months, so the [isinstance] tests hold; [user_id] is not
    [None] once line 83 has passed. *)
Definition valid_deal (d : deal) : bool :=
  negb (String.eqb (client_name d) "")
  && Py.gt (deal_size d) 0
  && (0 <? months d)%Z.

Definition prepare (user_id : string) (deals_list : list deal) : list db_deal :=
  map (fun d => {| db_fields := d; db_user_id := user_id |})
      (filter valid_deal deals_list).

Definition save_deal_bundle_to_db (user_id session_token : option string)
    (deals_list : list deal) : bool :=
  match deals_list with
  | [] => false
  | _ :: _ =>
      match user_id with
      | None => false
      | Some uid =>
          if String.eqb uid "" then false
          else if missing session_token then false
          else
            let prepared_deals := prepare uid deals_list in
            match prepared_deals with
            | [] => false
            | _ :: _ =>
                match insert prepared_deals with
                | Raised => false
                | Response (Some _) _ => false
                | Response None [] => false
                | Response None data =>
                    if negb (List.length data =? List.length prepared_deals)%nat
                    then false else true
                end
            end
      end
  end.

(** "Save All Staged Deals to Database" (lines 358-367): the new value
    of [st.session_state.unsaved_deals]. *)
Definition save_all_staged (user_id session_token : option string)
    (unsaved_deals : list deal) : list deal :=
  let num_to_save := List.length unsaved_deals in
  if (0 <? num_to_save)%nat then
    if missing session_token then unsaved_deals
    else if save_deal_bundle_to_db user_id session_token unsaved_deals
         then [] else unsaved_deals
  else unsaved_deals.

End Store.

(** *** Stores and staged deals used as examples *)

(** A store that keeps every row, and one that loses the first row. *)
Definition faithful_store (rows : list db_deal) : reply := Response None rows.
Definition lossy_store (rows : list db_deal) : reply := Response None (tl rows).

Definition two_staged_deals : list deal :=
  add_to_unsaved
    (add_to_unsaved [] "2025-01-01T10:00:00" "Al Noor Trading" 200000 3 1.5 4)
    "2025-01-01T10:05:00" "Gulf Build" 500000 2.5 1 6.

(** *** The check boxes of the staging table (lines 342-348) *)

(** [unsaved_df.loc[selected_to_remove_indices, 'temp_id'].tolist()]: the
    temp ids of the staged deals whose "Remove" box is ticked, in order;
    [remove] is the check-box column, one entry per staged deal. *)
Definition temp_ids_to_remove (unsaved_deals : list deal)
    (remove : list bool) : list string :=
  map (fun p => temp_id (fst p)) (filter snd (combine unsaved_deals remove)).

(** "Remove Selected Staged Deals": a warning and no change when no box is
    ticked. *)
Definition remove_selected (unsaved_deals : list deal) (remove : list bool)
    : list deal :=
  match temp_ids_to_remove unsaved_deals remove with
  | [] => unsaved_deals
  | (_ :: _) as ids => remove_staged unsaved_deals ids
  end.

(** The staged deals whose box is not ticked. *)
Definition unticked (unsaved_deals : list deal) (remove : list bool)
    : list deal :=
  map fst (filter (fun p => negb (snd p)) (combine unsaved_deals remove)).

(** The staging lists the page can reach: deals come in through the
    staging form, whose number inputs have the lower bounds 0.01 for the
    size and 1 for the months (lines 317-319), and leave through the check
    boxes. *)
Inductive staged : list deal -> Prop :=
| staged_nil : staged []
| staged_add (l : list deal) (now client : string)
    (size rate fee_perc : float) (n : Z) :
    staged l -> Py.ge size 0.01 = true -> (1 <= n)%Z ->
    staged (add_to_unsaved l now client size rate fee_perc n)
| staged_remove (l : list deal) (remove : list bool) :
    staged l -> staged (remove_selected l remove).

(** A deal of size zero and a deal with no client name, in a staging list
    that did not come from the form. *)
Definition unusable_deals : list deal :=
  [ new_deal "2025-01-01T10:00:00" "Al Noor Trading" 0 3 1.5 4;
    new_deal "2025-01-01T10:05:00" "" 500000 2.5 1 6 ].

End Profit.

(** ** Murabahah Size Calculator (app.py, lines 427-472) *)

Module Murabahah.

Local Open Scope list_scope.

(** One dict of [schedule]. *)
Record row := {
  Month : Z;
  Installment : float;
  Principal : float;
  Profit : float;
  Admin_Fee_Paid : float;
  Remaining_Principal : float
}.

(** The variables shown after the [try] block, the local
    [total_profit_amount] and the exception caught, if any. *)
Record summary := {
  first_month_payment : float;
  subsequent_monthly_payment : float;
  total_profit : float;
  total_earnings : float;
  total_admin_fee : float;
  total_profit_amount : float;
  schedule : list row;
  caught : option exc
}.

(** The state of the [for] loop: the rows appended so far and
    [remaining_principal]. *)
Definition loop_state : Type := list row * float.

(** [remaining_principal] once the principal of [rows] has been paid: the
    value of the loop variable, not the displayed column (which is floored
    at 0). *)
Definition remaining_after (deal_size : float) (rows : list row) : float :=
  fold_left (fun acc r => acc - Principal r) rows deal_size.

Section Loop.

Variables (financing_period : Z)
          (monthly_profit_rate_dec admin_fee_amount : float)
          (first_month_payment' subsequent_monthly_payment' : float).

(** The loop body (lines 453-459). *)
Definition month_step (st : loop_state) (month : Z) : loop_state :=
  let '(sched, remaining_principal) := st in
  let profit_for_month := remaining_principal * monthly_profit_rate_dec in
  let current_month_total_payment :=
    if (month =? 1)%Z then first_month_payment' else subsequent_monthly_payment' in
  let admin_fee_paid_this_month :=
    if (month =? 1)%Z then admin_fee_amount else 0 in
  let principal_paid :=
    Py.max 0 (current_month_total_payment - profit_for_month
              - admin_fee_paid_this_month) in
  let principal_paid :=
    if (month =? financing_period)%Z then remaining_principal else principal_paid in
  let remaining_principal := remaining_principal - principal_paid in
  (sched ++ [ {| Month := month;
                 Installment := current_month_total_payment;
                 Principal := principal_paid;
                 Profit := profit_for_month;
                 Admin_Fee_Paid := admin_fee_paid_this_month;
                 Remaining_Principal := Py.max 0 remaining_principal |} ],
   remaining_principal).

(** [range(1, financing_period + 1)]. *)
Definition months_range : list Z :=
  map Z.of_nat (seq 1 (Z.to_nat financing_period)).

Definition run_loop (deal_size : float) : loop_state :=
  fold_left month_step months_range ([], deal_size).

(** The loop after its first [k] rounds. *)
Definition rounds (deal_size : float) (k : nat) : loop_state :=
  fold_left month_step (map Z.of_nat (seq 1 k)) ([], deal_size).

(** What the row of month [i + 1] holds, given the rows [before] it. *)
Definition row_ok (deal_size : float) (before : list row) (i : nat) (r : row)
    : Prop :=
  let month := Z.of_nat (S i) in
  let remaining := remaining_after deal_size before in
  Month r = month
  /\ Profit r = remaining * monthly_profit_rate_dec
  /\ Installment r =
       (if (month =? 1)%Z then first_month_payment' else subsequent_monthly_payment')
  /\ Admin_Fee_Paid r = (if (month =? 1)%Z then admin_fee_amount else 0)
  /\ Principal r =
       (if (month =? financing_period)%Z then remaining
        else Py.max 0 (Installment r - Profit r - Admin_Fee_Paid r))
  /\ Remaining_Principal r = Py.max 0 (remaining - Principal r).

End Loop.

Definition untouched : summary :=
  {| first_month_payment := 0; subsequent_monthly_payment := 0;
     total_profit := 0; total_earnings := 0; total_admin_fee := 0;
     total_profit_amount := 0; schedule := []; caught := None |}.

(** Lines 438-461, with [financing_period = int(financing_period_float)]
    already taken. *)
Definition murabahah_calculator (deal_size profit_rate : float)
    (financing_period : Z) (admin_fee_perc : float) : summary :=
  if Py.gt deal_size 0 && (0 <? financing_period)%Z then
    let admin_fee_amount := deal_size * (admin_fee_perc / 100) in
    let monthly_profit_rate_dec := profit_rate / 100 in
    let total_profit_amount :=
      deal_size * monthly_profit_rate_dec * Py.float_of_int financing_period in
    let total_earnings := total_profit_amount + admin_fee_amount in
    let total_admin_fee := admin_fee_amount in
    match (if (0 <? financing_period)%Z
           then Py.truediv (deal_size + total_profit_amount)
                           (Py.float_of_int financing_period)
           else Some 0) with
    | None =>
        {| first_month_payment := 0; subsequent_monthly_payment := 0;
           total_profit := 0; total_earnings := total_earnings;
           total_admin_fee := total_admin_fee;
           total_profit_amount := total_profit_amount;
           schedule := []; caught := Some ZeroDivisionError |}
    | Some base_repayment_per_month =>
        let first_month_payment := base_repayment_per_month + admin_fee_amount in
        let subsequent_monthly_payment := base_repayment_per_month in
        {| first_month_payment := first_month_payment;
           subsequent_monthly_payment := subsequent_monthly_payment;
           total_profit := 0; total_earnings := total_earnings;
           total_admin_fee := total_admin_fee;
           total_profit_amount := total_profit_amount;
           schedule :=
             fst (run_loop financing_period monthly_profit_rate_dec
                           admin_fee_amount first_month_payment
                           subsequent_monthly_payment deal_size);
           caught := None |}
    end
  else untouched.

(** The whole page: the period slider yields a float and line 434 takes
    its [int]; [None] when that raises. *)
Definition murabahah_page (deal_size profit_rate financing_period_float
    admin_fee_perc : float) : option summary :=
  match Py.int_of_float financing_period_float with
  | Some financing_period =>
      Some (murabahah_calculator deal_size profit_rate financing_period
                                 admin_fee_perc)
  | None => None
  end.

(** Python's [sum] over the Principal column, from the int 0, left to right. *)
Definition principal_sum (rows : list row) : float :=
  fold_left (fun acc r => acc + Principal r) rows 0.

(** Months and rate of the plans accepted by the sliders: 1 to 12 months. *)
Definition period_in_range (financing_period : Z) : Prop :=
  (1 <= financing_period <= 12)%Z.

(** The exact sum of the Principal column in units of [2^-k]. *)
Fixpoint exact_principal_sum (k : Z) (rows : list row) : option Z :=
  match rows with
  | [] => Some 0%Z
  | r :: rows' =>
      match Py.scaled k (Principal r), exact_principal_sum k rows' with
      | Some a, Some b => Some (a + b)%Z
      | _, _ => None
      end
  end.

End Murabahah.

(** The text that [clean_number] hands to [float]: commas and percent
    signs removed, then stripped. *)
Definition cleaned_text (s : string) : string :=
  Text.strip (Text.remove_char "%" (Text.remove_char "," s)).

(** ** [format_currency] and [format_percentage] (app.py, lines 34-46)

    The format specifications [",.0f"] and [".1f"] print the exact value
    of a float rounded to the given number of decimals, ties to even;
    [","] groups the digits of the integer part in threes. *)

Module Format.

Local Open Scope string_scope.

(** The integer nearest to [p / q] for [q > 0], ties to even. *)
Definition round_half_even (p q : Z) : Z :=
  let n := (p / q)%Z in
  match (2 * (p mod q) ?= q)%Z with
  | Lt => n
  | Gt => (n + 1)%Z
  | Eq => if Z.even n then n else (n + 1)%Z
  end.

(** [m * 2^e * 10^k] rounded to an integer: the digits that a precision
    of [k] prints for the finite float of mantissa [m] and exponent [e]. *)
Definition scaled_digits (k : nat) (m : positive) (e : Z) : Z :=
  if (0 <=? e)%Z then (Zpos m * 2 ^ e * 10 ^ Z.of_nat k)%Z
  else round_half_even (Zpos m * 10 ^ Z.of_nat k) (2 ^ (- e)).

Definition digit_char (d : Z) : ascii := ascii_of_nat (48 + Z.to_nat d).

(** The decimal digits of [n >= 0] in front of [acc]; [fuel] bounds their
    number. *)
Fixpoint digits_from (fuel : nat) (n : Z) (acc : string) : string :=
  match fuel with
  | O => acc
  | S fuel' =>
      let acc' := String (digit_char (n mod 10)) acc in
      if (n <? 10)%Z then acc' else digits_from fuel' (n / 10) acc'
  end.

Definition digits (n : Z) : string :=
  digits_from (S (Z.to_nat (Z.log2 n))) n "".

(** The last [k] decimal digits of [n], zeros included. *)
Fixpoint fraction (k : nat) (n : Z) : string :=
  match k with
  | O => ""
  | S k' => fraction k' (n / 10) ++ String (digit_char (n mod 10)) ""
  end.

(** A comma before every group of three digits that is not the first. *)
Fixpoint group (s : string) : string :=
  match s with
  | EmptyString => EmptyString
  | String a s' =>
      let r := String.length s' in
      if ((0 <? r) && (r mod 3 =? 0))%nat then String a (String "," (group s'))
      else String a (group s')
  end.

(** The digits of [n], the value scaled by [10^k]. *)
Definition unsigned (k : nat) (grouped : bool) (n : Z) : string :=
  let whole := digits (n / 10 ^ Z.of_nat k) in
  (if grouped then group whole else whole)
  ++ match k with
     | O => ""
     | S _ => String "." (fraction k (n mod 10 ^ Z.of_nat k))
     end.

Definition signed (s : bool) (text : string) : string :=
  if s then String "-" text else text.

(** [f"{x:,.kf}"] and [f"{x:.kf}"] for a float [x]. *)
Definition fixed (k : nat) (grouped : bool) (x : float) : string :=
  match Prim2SF x with
  | S754_nan => "nan"
  | S754_infinity s => signed s "inf"
  | S754_zero s => signed s (unsigned k grouped 0)
  | S754_finite s m e => signed s (unsigned k grouped (scaled_digits k m e))
  end.

(** [isinstance(v, (int, float))] and the conversion that the format
    specification applies to an int: [inr None] is not a number, [inl] is
    the OverflowError of an int too large for a float, which the [except]
    clauses of lines 41 and 46 do not catch. *)
Definition as_float (v : pyval) : exc + option float :=
  match v with
  | PyNone => inr None
  | PyStr _ => inr None
  | PyFloat x => inr (Some x)
  | PyInt z =>
      match Prim2SF (Py.float_of_int z) with
      | S754_infinity _ => inl OtherException
      | _ => inr (Some (Py.float_of_int z))
      end
  end.

(** [sub in s] and [s.endswith(suffix)]. *)
Fixpoint contains (s sub : string) : bool :=
  (String.prefix sub s
   || match s with
      | EmptyString => false
      | String _ s' => contains s' sub
      end)%bool.

Fixpoint endswith (s suffix : string) : bool :=
  (String.eqb s suffix
   || match s with
      | EmptyString => false
      | String _ s' => endswith s' suffix
      end)%bool.

(** The symbols of line 38; the euro and pound signs are written as their
    UTF-8 bytes. *)
Definition symbols : list string :=
  [ "SAR"; "$";
    String "226"%char (String "130"%char (String "172"%char ""));
    String "194"%char (String "163"%char "") ].

Definition format_currency (amount : pyval) (currency : string)
    : exc + string :=
  match as_float amount with
  | inl e => inl e
  | inr None => inr "N/A"
  | inr (Some x) =>
      let formatted := fixed 0 true x in
      if (negb (String.eqb currency "")
          && negb (endswith formatted currency)
          && negb (existsb (contains formatted) symbols))%bool
      then inr (formatted ++ " " ++ currency)
      else inr formatted
  end.

Definition format_percentage (value : pyval) : exc + string :=
  match as_float value with
  | inl e => inl e
  | inr None => inr "N/A"
  | inr (Some x) => inr (fixed 1 false x ++ "%")
  end.

(** The number that the digits of [s] spell when they continue [acc]. *)
Fixpoint decimal_value (s : string) (acc : Z) : Z :=
  match s with
  | EmptyString => acc
  | String a s' => decimal_value s' (10 * acc + Text.digit_val a)%Z
  end.

(** The characters of a formatted number. *)
Definition output_char (a : ascii) : bool :=
  (Text.is_digit a || Ascii.eqb a "," || Ascii.eqb a "." || Ascii.eqb a "-"
   || Ascii.eqb a "n" || Ascii.eqb a "a" || Ascii.eqb a "i"
   || Ascii.eqb a "f")%bool.

(** The number that the text printed with [k] decimals stands for: the
    binary64 nearest to the printed decimal. *)
Definition printed_value (k : nat) (x : float) : float :=
  match Prim2SF x with
  | S754_nan => nan
  | S754_infinity s => if s then neg_infinity else infinity
  | S754_zero s => Decimal.of_decimal s 0 (- Z.of_nat k)
  | S754_finite s m e =>
      Decimal.of_decimal s (scaled_digits k m e) (- Z.of_nat k)
  end.

End Format.

(** ** The page: login, logout and the tabs (app.py, lines 62-78 and 476-503)

    A script run is caused by one interaction with the page.  What the
    authentication service and the record store answer is part of the
    interaction, so that a statement about all interactions covers all
    their answers. *)

Module App.

Local Open Scope string_scope.
Local Open Scope list_scope.

(** [response.user.dict()] and [response.session.dict()], with the keys
    the page reads. *)
Record user_info := {
  id : option string;
  email : option string
}.

Record session_info := {
  access_token : option string;
  refresh_token : option string
}.

(** [st.session_state]: the three keys set on lines 476-478. *)
Record session_state := {
  user : option user_info;
  session : option session_info;
  unsaved_deals : list Profit.deal
}.

(** The defaults of lines 476-478. *)
Definition initial : session_state :=
  {| user := None; session := None; unsaved_deals := [] |}.

(** [supabase.auth.sign_in_with_password(...)]: it raises, or it answers
    with a user and a session, either of which may be [None]. *)
Inductive auth_reply :=
| AuthRaised
| AuthResponse (response_user : option user_info)
               (response_session : option session_info).

Inductive event :=
| LoginSubmit (email password : string) (response : auth_reply)
| LogoutClick (sign_out_raises : bool)
| AddToUnsaved (now client : string) (size rate fee_perc : float) (n : Z)
| RemoveSelected (remove : list bool)
| SaveAllStaged (insert : list Profit.db_deal -> Profit.reply)
| OtherInteraction.

Definition with_unsaved (st : session_state) (l : list Profit.deal)
    : session_state :=
  {| user := user st; session := session st; unsaved_deals := l |}.

(** [show_login_form] once the form is submitted (lines 68-78). *)
Definition show_login_form (st : session_state) (email password : string)
    (response : auth_reply) : session_state :=
  if (String.eqb email "" || String.eqb password "")%bool then st
  else
    match response with
    | AuthResponse (Some u) (Some s) =>
        {| user := Some u; session := Some s;
           unsaved_deals := unsaved_deals st |}
    | _ => st
    end.

(** [st.session_state] as the dict it is: a key is absent ([None]) or
    holds a value. *)
Record keys := {
  user_key : option (option user_info);
  session_key : option (option session_info);
  unsaved_deals_key : option (list Profit.deal)
}.

Definition keys_of (st : session_state) : keys :=
  {| user_key := Some (user st); session_key := Some (session st);
     unsaved_deals_key := Some (unsaved_deals st) |}.

(** Line 492: every key is popped. *)
Definition pop_all (k : keys) : keys :=
  {| user_key := None; session_key := None; unsaved_deals_key := None |}.

(** Lines 476-478, at the top of every script run: a key that is absent
    gets its default. *)
Definition set_defaults (k : keys) : session_state :=
  {| user := match user_key k with Some v => v | None => None end;
     session := match session_key k with Some v => v | None => None end;
     unsaved_deals :=
       match unsaved_deals_key k with Some v => v | None => [] end |}.

(** The "Logout" button (lines 490-494): unless [sign_out] raises, every
    key is popped and the script is run again, which starts with lines
    476-478. *)
Definition logout (st : session_state) (sign_out_raises : bool)
    : session_state :=
  if sign_out_raises then st else set_defaults (pop_all (keys_of st)).

(** The tabs (lines 499-503); only the Profitability tab writes to the
    session state. *)
Definition tabs (st : session_state) (user_id session_token : option string)
    (ev : event) : session_state :=
  match ev with
  | AddToUnsaved now client size rate fee_perc n =>
      with_unsaved st
        (Profit.add_to_unsaved (unsaved_deals st) now client size rate
                               fee_perc n)
  | RemoveSelected remove =>
      with_unsaved st (Profit.remove_selected (unsaved_deals st) remove)
  | SaveAllStaged insert =>
      with_unsaved st
        (Profit.save_all_staged insert user_id session_token
                                (unsaved_deals st))
  | _ => st
  end.

(** One script run (lines 480-503).  An interaction with a widget that is
    not on the page changes nothing. *)
Definition script_run (st : session_state) (ev : event) : session_state :=
  match user st, session st with
  | Some user_info, Some session_info =>
      match ev with
      | LogoutClick sign_out_raises => logout st sign_out_raises
      | LoginSubmit _ _ _ => st
      | _ =>
          let user_id := id user_info in
          if Profit.missing user_id then st
          else tabs st user_id (access_token session_info) ev
      end
  | _, _ =>
      match ev with
      | LoginSubmit email password response =>
          show_login_form st email password response
      | _ => st
      end
  end.

(** The session state after a sequence of interactions with a fresh page. *)
Definition after (evs : list event) : session_state :=
  fold_left script_run evs initial.

(** What holds of the session state between script runs: user and
    session are set together, and the staging list is empty unless a user
    with an id is logged in. *)
Definition consistent (st : session_state) : Prop :=
  (user st = None <-> session st = None)
  /\ (unsaved_deals st = []
      \/ exists u, user st = Some u /\ Profit.missing (id u) = false).

(** The lower bounds of the staging form's number inputs (lines 317-319). *)
Definition within_form_bounds (ev : event) : Prop :=
  match ev with
  | AddToUnsaved _ _ size _ _ n => Py.ge size 0.01 = true /\ (1 <= n)%Z
  | _ => True
  end.

(** A visit: a login, two deals staged, one of them removed. *)
Definition a_visit : list event :=
  [ LoginSubmit "ae@example.com" "secret"
      (AuthResponse (Some {| id := Some "user-1";
                             email := Some "ae@example.com" |})
                    (Some {| access_token := Some "token";
                             refresh_token := Some "refresh" |}));
    AddToUnsaved "2025-01-01T10:00:00" "Al Noor Trading" 200000 3 1.5 4;
    AddToUnsaved "2025-01-01T10:05:00" "Gulf Build" 500000 2.5 1 6;
    RemoveSelected [true; false] ].

End App.

(** * Properties

    ** Facts about binary64 comparisons and operations

    Derived from the specification of the primitive operations
    ([FloatAxioms]) by case analysis on the IEEE 754 datum. *)

Module FloatFacts.

Lemma Pos_compare_cont_antisym (p q : positive) (c : comparison) :
  Pos.compare_cont (CompOpp c) q p = CompOpp (Pos.compare_cont c p q).
Proof. symmetry. apply Pos.compare_cont_antisym. Qed.

Lemma SFcompare_antisym (x y : spec_float) :
  SFcompare y x = option_map CompOpp (SFcompare x y).
Proof.
  destruct x as [sx|sx| |sx mx ex], y as [sy|sy| |sy my ey]; simpl;
    try reflexivity;
    try (destruct sx; reflexivity); try (destruct sy; reflexivity);
    try (destruct sx, sy; reflexivity).
  destruct sx, sy; simpl; try reflexivity;
    rewrite (Z.compare_antisym ex ey); destruct (ex ?= ey)%Z; simpl;
    try reflexivity; f_equal;
    rewrite <- (Pos_compare_cont_antisym mx my Eq); simpl;
    try reflexivity.
Qed.

Lemma nan_spec (x : float) : Py.is_nan x = false <-> Prim2SF x <> S754_nan.
Proof.
  unfold Py.is_nan. rewrite eqb_spec. unfold SFeqb.
  destruct (Prim2SF x) as [s|s| |s m e]; simpl.
  - split; [discriminate | reflexivity].
  - destruct s; (split; [discriminate | reflexivity]).
  - split; [discriminate | congruence].
  - assert (H : Pos.compare_cont Eq m m = Eq) by apply Pos.compare_refl.
    destruct s; rewrite Z.compare_refl, H; simpl; (split; [discriminate | reflexivity]).
Qed.

(** Two numbers are comparable: when [x < c] fails, [c <= x] holds. *)
Lemma not_lt_ge (x c : float) :
  Py.is_nan x = false -> Py.is_nan c = false ->
  (x <? c) = false -> (c <=? x) = true.
Proof.
  rewrite !nan_spec, ltb_spec, leb_spec. unfold SFltb, SFleb.
  intros Hx Hc. rewrite (SFcompare_antisym (Prim2SF x) (Prim2SF c)).
  destruct (SFcompare (Prim2SF x) (Prim2SF c)) as [[ | | ]|] eqn:E; simpl;
    try reflexivity; try discriminate.
  intros _. exfalso.
  destruct (Prim2SF x) as [s|s| |s m e], (Prim2SF c) as [s'|s'| |s' m' e'];
    simpl in E; try discriminate; try congruence.
Qed.

Lemma zero_sf : Prim2SF 0 = S754_zero false.
Proof. reflexivity. Qed.

Lemma gt0_shape (x : float) : (0 <? x) = true <-> Py.positive_sf (Prim2SF x).
Proof.
  rewrite ltb_spec, zero_sf. unfold SFltb.
  destruct (Prim2SF x) as [s|[|]| |[|] m e]; simpl; intuition discriminate.
Qed.

Lemma le0_false_shape (x : float) :
  (x <=? 0) = false -> Prim2SF x = S754_nan \/ Py.positive_sf (Prim2SF x).
Proof.
  rewrite leb_spec, zero_sf. unfold SFleb.
  destruct (Prim2SF x) as [s|[|]| |[|] m e]; simpl; auto; discriminate.
Qed.

Lemma round_aux_shape (m e : Z) (l : location) :
  match binary_round_aux prec emax false m e l with
  | S754_zero s | S754_infinity s | S754_finite s _ _ => s = false
  | S754_nan => True
  end.
Proof.
  unfold binary_round_aux.
  destruct (shr_fexp prec emax m e l) as [mrs' e'].
  destruct (shr_fexp prec emax _ e' loc_Exact) as [mrs'' e''].
  destruct (shr_m mrs''); trivial.
  destruct (e'' <=? emax - prec)%Z; reflexivity.
Qed.

(** The product of a positive number and a positive number or NaN is
    positive, NaN or the zero of an underflow. *)
Lemma mul_pos_shape (x y : spec_float) :
  Py.positive_sf x -> y = S754_nan \/ Py.positive_sf y ->
  SFleb (SF64mul x y) (S754_zero false) = true ->
  SF64mul x y = S754_zero false.
Proof.
  intros Hx [-> | Hy].
  - destruct x; simpl; discriminate.
  - destruct x as [s|[|]| |[|] m e]; try contradiction;
    destruct y as [s'|[|]| |[|] m' e']; try contradiction; simpl;
      try discriminate.
    unfold SF64mul, SFmul. simpl xorb.
    pose proof (round_aux_shape (Z.pos (m * m')) (e + e') loc_Exact) as H.
    destruct (binary_round_aux prec emax false (Z.pos (m * m')) (e + e') loc_Exact)
      as [s|s| |s m0 e0]; subst; simpl; try discriminate; reflexivity.
Qed.

Lemma sub_self_shape (x : spec_float) :
  SF64sub x x = S754_nan \/ SF64sub x x = S754_zero false.
Proof.
  destruct x as [[|]|[|]| |s m e]; simpl; auto.
  right. unfold SF64sub, SFsub. rewrite Z.sub_diag. reflexivity.
Qed.

Lemma max0_sub_self (x : float) : Py.max 0 (x - x) = 0.
Proof.
  unfold Py.max, Py.gt. rewrite ltb_spec, sub_spec, zero_sf.
  destruct (sub_self_shape (Prim2SF x)) as [-> | ->]; reflexivity.
Qed.

Lemma nan_true (x : float) : Py.is_nan x = true <-> Prim2SF x = S754_nan.
Proof.
  split; intros H.
  - destruct (Prim2SF x) as [s|s| |s m e] eqn:E; trivial;
      assert (N : Py.is_nan x = false) by (apply nan_spec; rewrite E; discriminate);
      congruence.
  - destruct (Py.is_nan x) eqn:N; trivial.
    apply nan_spec in N. contradiction.
Qed.

(** A number that is not [<= 0] is [> 0]. *)
Lemma not_le0_gt0 (x : float) :
  Py.is_nan x = false -> Py.le x 0 = false -> Py.gt x 0 = true.
Proof.
  intros N L. apply nan_spec in N.
  destruct (le0_false_shape x L) as [E | P]; [contradiction|].
  now apply gt0_shape.
Qed.

Lemma gt0_nonzero (x : float) : Py.gt x 0 = true -> (x =? 0) = false.
Proof.
  intros G. apply gt0_shape in G. rewrite eqb_spec, zero_sf. unfold SFeqb.
  destruct (Prim2SF x) as [s|[|]| |[|] m e]; simpl in *; trivial; contradiction.
Qed.

Lemma float_of_int_nonzero (n : Z) :
  (1 <= n <= 12)%Z -> (Py.float_of_int n =? 0) = false.
Proof.
  intros H.
  assert (C : (n = 1 \/ n = 2 \/ n = 3 \/ n = 4 \/ n = 5 \/ n = 6 \/ n = 7 \/
               n = 8 \/ n = 9 \/ n = 10 \/ n = 11 \/ n = 12)%Z) by lia.
  repeat (destruct C as [-> | C]; [reflexivity | idtac]). subst. reflexivity.
Qed.

End FloatFacts.

(** *** Rounding never produces NaN *)

Module RoundingFacts.

Lemma shr_1_nonneg (mrs : shr_record) :
  (0 <= shr_m mrs)%Z -> (0 <= shr_m (shr_1 mrs))%Z.
Proof.
  destruct mrs as [m r s]. simpl.
  destruct m as [|[p|p|]|p]; simpl; intros H; try lia.
Qed.

Lemma iter_pos_invariant {A} (P : A -> Prop) (g : A -> A) :
  (forall a, P a -> P (g a)) ->
  forall (p : positive) (a : A), P a -> P (iter_pos g p a).
Proof.
  intros Hg. induction p as [p IH | p IH | ]; simpl; intros a Ha; auto.
Qed.

Lemma shr_nonneg (mrs : shr_record) (e n : Z) :
  (0 <= shr_m mrs)%Z -> (0 <= shr_m (fst (shr mrs e n)))%Z.
Proof.
  intros H. unfold shr. destruct n as [|p|p]; simpl; trivial.
  now apply (iter_pos_invariant (fun x => (0 <= shr_m x)%Z) shr_1 shr_1_nonneg).
Qed.

Lemma shr_fexp_nonneg (m e : Z) (l : location) :
  (0 <= m)%Z -> (0 <= shr_m (fst (shr_fexp prec emax m e l)))%Z.
Proof.
  intros H. unfold shr_fexp. apply shr_nonneg.
  destruct l as [|[ | | ]]; exact H.
Qed.

Lemma round_nearest_even_nonneg (m : Z) (l : location) :
  (0 <= m)%Z -> (0 <= round_nearest_even m l)%Z.
Proof.
  intros H. unfold round_nearest_even.
  destruct l as [|[ | | ]]; try destruct (Z.even m); lia.
Qed.

Lemma binary_round_aux_not_nan (s : bool) (m e : Z) (l : location) :
  (0 <= m)%Z -> binary_round_aux prec emax s m e l <> S754_nan.
Proof.
  intros H. unfold binary_round_aux.
  pose proof (shr_fexp_nonneg m e l H) as H1.
  destruct (shr_fexp prec emax m e l) as [mrs' e']. simpl in H1.
  pose proof (shr_fexp_nonneg _ e' loc_Exact
                (round_nearest_even_nonneg _ (loc_of_shr_record mrs') H1)) as H2.
  destruct (shr_fexp prec emax _ e' loc_Exact) as [mrs'' e'']. simpl in H2.
  destruct (shr_m mrs'') as [|p|p]; try discriminate; [|lia].
  destruct (e'' <=? emax - prec)%Z; discriminate.
Qed.

(** Multiplying a number by a finite non-zero constant gives a number. *)
Lemma mul_finite_not_nan (x c : float) (s : bool) (m : positive) (e : Z) :
  Prim2SF c = S754_finite s m e ->
  Py.is_nan x = false -> Py.is_nan (x * c) = false.
Proof.
  intros Hc Hx. apply FloatFacts.nan_spec. apply FloatFacts.nan_spec in Hx.
  rewrite mul_spec, Hc. unfold SF64mul.
  destruct (Prim2SF x) as [sx|sx| |sx mx ex]; simpl; try discriminate;
    [contradiction|].
  apply binary_round_aux_not_nan. lia.
Qed.

Lemma min_not_nan (a b : float) :
  Py.is_nan a = false -> Py.is_nan b = false -> Py.is_nan (Py.min a b) = false.
Proof. intros Ha Hb. unfold Py.min. now destruct (Py.lt b a). Qed.

Lemma gt0_not_nan (x : float) : Py.gt x 0 = true -> Py.is_nan x = false.
Proof.
  intros H. apply FloatFacts.gt0_shape in H. apply FloatFacts.nan_spec.
  destruct (Prim2SF x); try discriminate; contradiction.
Qed.

End RoundingFacts.

(** Two floats differ when their IEEE 754 data differ. *)
Ltac float_neq :=
  let H := fresh in
  intro H; apply (f_equal Prim2SF) in H; vm_compute in H; discriminate H.

(** ** The clean-number parser *)

Module CleanNumberFacts.

Local Open Scope string_scope.

(** Text under the percentage flag is divided by 100 whatever its size:
    the test [abs(val) >= 1] guards the numeric branch only. *)
Lemma text_percentage_always_divided (s : string) (val : float) :
  Text.strip (Text.remove_char "%" (Text.remove_char "," s)) <> "" ->
  float_of_string (Text.strip (Text.remove_char "%" (Text.remove_char "," s)))
    = Some val ->
  clean_number (PyStr s) true = val / 100.
Proof.
  intros Hne Hval. unfold clean_number.
  apply String.eqb_neq in Hne. rewrite Hne, Hval. reflexivity.
Qed.

(** C4, as stated, fails: with the percentage flag the text "0.5" becomes
    0.005 (not 0.5), and the text "1,500,000" becomes 15000 (not 1500000). *)
Lemma clean_number_flagged_text_counterexample :
  clean_number (PyStr "0.5") true = 0.005
  /\ clean_number (PyStr "0.5") true <> 0.5
  /\ clean_number (PyStr "1,500,000") true = 15000
  /\ clean_number (PyStr "1,500,000") true <> 1500000.
Proof.
  repeat split; try reflexivity; float_neq.
Qed.

(** C4, amended: with the percentage flag the text "5" gives 0.05 and the
    number 0.5 stays 0.5; the empty text and None give 0.0 with or without
    the flag; "1,500,000" gives 1500000.0 without the flag and 15000.0 with
    it; and text that [float] rejects gives 0.0. *)
Theorem clean_number_examples_and_fallback (s : string) (flag : bool) :
  float_of_string (Text.strip (Text.remove_char "%" (Text.remove_char "," s)))
    = None ->
  clean_number (PyStr s) flag = 0
  /\ clean_number (PyStr "5") true = 0.05
  /\ clean_number (PyFloat 0.5) true = 0.5
  /\ clean_number (PyStr "") flag = 0
  /\ clean_number PyNone flag = 0
  /\ clean_number (PyStr "1,500,000") false = 1500000
  /\ clean_number (PyStr "1,500,000") true = 15000.
Proof.
  intros Hrejected. split.
  - unfold clean_number. rewrite Hrejected.
    now destruct (_ =? _)%string.
  - repeat split; try reflexivity; now destruct flag.
Qed.

Lemma clean_number_examples_and_fallback_witness :
  float_of_string (Text.strip (Text.remove_char "%" (Text.remove_char "," "abc")))
    = None
  /\ clean_number (PyStr "abc") true = 0.
Proof.
  split.
  - reflexivity.
  - apply (clean_number_examples_and_fallback "abc" true). reflexivity.
Defined.

End CleanNumberFacts.

(** ** The Credit Limit Calculator *)

Module CreditLimitFacts.

Import CreditLimit.
Local Open Scope string_scope.
Local Open Scope list_scope.

(** *** The pipeline as a list of steps *)

Lemma run_steps_when (b : bool) (s : step) (l : list step) (c : chain) :
  run_steps (when b s ++ l) c =
  run_steps l (if b then apply_adjustment c (step_factor s) (step_reason s)
                                         (step_info s) else c).
Proof. destruct b; reflexivity. Qed.

(** The chain of [if]s of lines 222-231 applies the triggered steps in order. *)
Lemma adjust_run_steps (f : form) (projects : Z) (cr : float) (c : chain) :
  adjust f projects cr c = run_steps (triggered f projects cr) c.
Proof.
  unfold triggered.
  rewrite <- (app_nil_r (when (is_yes (has_previous_payments f)
                               && is_no (has_payment_delays f)) _)).
  repeat rewrite run_steps_when. reflexivity.
Qed.

(** *** Validation and eligibility *)

Lemma errors_flat_map (f : form) (projects : Z) :
  errors f projects =
  flat_map (fun r => if reported f projects r then [message r] else []) all_rules.
Proof.
  unfold errors, check, all_rules, flat_map, reported, message.
  rewrite app_nil_r.
  destruct (is_contractor (industry_type f)),
           (blank (unbilled_revenue_str f)),
           (blank (net_profit_percentage_str f)); reflexivity.
Qed.

Lemma flat_map_nil_inv {A B} (g : A -> list B) (l : list A) :
  flat_map g l = [] -> forall a, In a l -> g a = [].
Proof.
  induction l as [|x l IH]; simpl; intros H a Ha; [contradiction|].
  apply app_eq_nil in H. destruct H as [Hx Hl].
  destruct Ha as [<- | Ha]; auto.
Qed.

Lemma all_rules_complete (r : rule) : In r all_rules.
Proof. destruct r; simpl; tauto. Qed.

Lemma errors_nil_iff (f : form) (projects : Z) :
  errors f projects = [] <-> forall r, reported f projects r = false.
Proof.
  rewrite errors_flat_map. split.
  - intros H r. pose proof (flat_map_nil_inv _ _ H r (all_rules_complete r)) as Hr.
    simpl in Hr. destruct (reported f projects r); [discriminate | reflexivity].
  - intros H. unfold all_rules, flat_map. rewrite !H. reflexivity.
Qed.

Lemma errors_cons_iff (f : form) (projects : Z) :
  errors f projects <> [] <-> exists r, reported f projects r = true.
Proof.
  split.
  - intros H.
    destruct (forallb (fun r => negb (reported f projects r)) all_rules) eqn:E.
    + exfalso. apply H. apply errors_nil_iff. intros r.
      rewrite forallb_forall in E. specialize (E r (all_rules_complete r)).
      now apply negb_true_iff in E.
    + apply not_true_iff_false in E.
      assert (X : ~ forall r, In r all_rules -> negb (reported f projects r) = true)
        by (intro X; apply E; now apply forallb_forall).
      destruct (existsb (reported f projects) all_rules) eqn:Ex.
      * apply existsb_exists in Ex. destruct Ex as [r [_ Hr]]. now exists r.
      * exfalso. apply X. intros r Hr.
        apply negb_true_iff. destruct (reported f projects r) eqn:V; trivial.
        assert (Y : existsb (reported f projects) all_rules = true)
          by (apply existsb_exists; now exists r).
        congruence.
  - intros [r Hr] H. rewrite errors_nil_iff in H. congruence.
Qed.

(** The division of line 187 is guarded: it never raises. *)
Lemma ratio_never_raises (f : form) :
  exists ratio, actual_current_ratio f = inr ratio.
Proof.
  unfold actual_current_ratio.
  destruct (Py.gt (current_liabilities f) 0) eqn:L; simpl; [|now exists None].
  destruct (Py.gt (current_assets f) 0); [|now exists None].
  unfold Py.truediv. rewrite (FloatFacts.gt0_nonzero _ L). now eexists.
Qed.

Lemma eligible_iff_no_reason (f : form) (ratio : option float) :
  is_eligible f ratio = true <-> eligibility_reasons f ratio = [].
Proof.
  unfold is_eligible, eligibility_reasons.
  destruct (Py.le (actual_net_profit f) 0); simpl.
  - split; discriminate.
  - destruct ratio as [cr|]; [destruct (Py.le cr 1)|]; simpl;
      split; congruence.
Qed.

(** The validation and eligibility blocks in terms of the source's own
    tests: the errors are the messages of the rules whose test fires, in
    order, and stop the calculation when there is one; eligibility is
    looked at only when no test fires, its reasons list every failed test,
    and an application with a reason gets no limit. *)
Lemma validation_collects_then_eligibility
    (f : form) (projects : Z) (ratio : option float) :
  number_of_projects f = Some projects ->
  actual_current_ratio f = inr ratio ->
  errors f projects =
    flat_map (fun r => if reported f projects r then [message r] else []) all_rules
  /\ ((exists r, reported f projects r = true) ->
      credit_limit_calculator f = InputErrors (errors f projects))
  /\ (In NetProfitRequired (eligibility_reasons f ratio)
        <-> Py.le (actual_net_profit f) 0 = true)
  /\ (In ValidRatioNeeded (eligibility_reasons f ratio) <-> ratio = None)
  /\ (forall cr, In (RatioAboveOneRequired cr) (eligibility_reasons f ratio)
        <-> ratio = Some cr /\ Py.le cr 1 = true)
  /\ ((forall r, reported f projects r = false) ->
      (eligibility_reasons f ratio <> [] ->
         credit_limit_calculator f = NotEligible (eligibility_reasons f ratio))
      /\ (eligibility_reasons f ratio = [] ->
         exists r, credit_limit_calculator f = Calculated r)).
Proof.
  intros Hp Hr. split; [apply errors_flat_map|]. split; [|split; [|split; [|split]]].
  - intros Hv. apply errors_cons_iff in Hv.
    unfold credit_limit_calculator. rewrite Hp, Hr.
    destruct (errors f projects); [contradiction | reflexivity].
  - unfold eligibility_reasons.
    destruct (Py.le (actual_net_profit f) 0); simpl.
    + tauto.
    + destruct ratio as [cr|]; [destruct (Py.le cr 1)|]; simpl;
        intuition discriminate.
  - unfold eligibility_reasons.
    destruct (Py.le (actual_net_profit f) 0), ratio as [cr|];
      [destruct (Py.le cr 1)| |destruct (Py.le cr 1)|]; simpl;
      intuition discriminate.
  - intros cr'. unfold eligibility_reasons.
    destruct (Py.le (actual_net_profit f) 0), ratio as [cr|];
      [destruct (Py.le cr 1) eqn:E| |destruct (Py.le cr 1) eqn:E|]; simpl;
      split; intros H;
      repeat match goal with
             | H : _ \/ _ |- _ => destruct H
             | H : _ /\ _ |- _ => destruct H
             | H : False |- _ => contradiction
             | H : RatioAboveOneRequired _ = RatioAboveOneRequired _ |- _ =>
                 injection H as ->
             | H : Some _ = Some _ |- _ => injection H as ->
             end; try discriminate; try congruence; auto.
  - intros Hv. apply errors_nil_iff in Hv.
    unfold credit_limit_calculator. rewrite Hp, Hr, Hv. split.
    + intros Hne.
      destruct (is_eligible f ratio) eqn:E; [|reflexivity].
      apply eligible_iff_no_reason in E. contradiction.
    + intros Hnil. apply eligible_iff_no_reason in Hnil. rewrite Hnil. simpl.
      unfold is_eligible in Hnil. apply andb_true_iff in Hnil.
      destruct ratio as [cr|]; [now eexists | destruct Hnil; discriminate].
Qed.

Lemma validation_collects_then_eligibility_witness :
  number_of_projects incomplete_form = Some 3%Z
  /\ actual_current_ratio incomplete_form = inr None
  /\ credit_limit_calculator incomplete_form =
       InputErrors ["Requested Limit > 0."; "Industry Type required.";
                    "Current Liabilities required."; "Current Liabilities > 0."].
Proof.
  split; [reflexivity|]. split; [reflexivity|].
  destruct (validation_collects_then_eligibility incomplete_form 3 None
              eq_refl eq_refl) as (_ & Hinvalid & _).
  rewrite Hinvalid; [reflexivity|].
  exists RequestedLimit. reflexivity.
Defined.

(** *** What a calculated outcome went through *)

Lemma calculated_inv (f : form) (r : result) :
  credit_limit_calculator f = Calculated r ->
  exists projects cr,
    number_of_projects f = Some projects
    /\ actual_current_ratio f = inr (Some cr)
    /\ errors f projects = []
    /\ is_eligible f (Some cr) = true
    /\ r = calculate f projects cr.
Proof.
  unfold credit_limit_calculator.
  destruct (number_of_projects f) as [projects|]; [|discriminate].
  destruct (actual_current_ratio f) as [e|ratio]; [discriminate|].
  destruct (errors f projects) eqn:E; [|discriminate].
  destruct (is_eligible f ratio) eqn:El; simpl; [|discriminate].
  destruct ratio as [cr|]; [|discriminate].
  intros H. injection H as <-. now exists projects, cr.
Qed.

Lemma calculate_fields (f : form) (projects : Z) (cr : float) :
  let r := calculate f projects cr in
  let c := run_steps (triggered f projects cr) (capped_base f, []) in
  base_limit_unadjusted r = base_unadjusted f
  /\ base_limit_cap_applied r = cap_applied f
  /\ base_limit_after_cap r = capped_base f
  /\ adjustments r = snd c
  /\ adjusted_limit r = fst c
  /\ final_limit r = fst (clamp (cap_applied f) (fst c))
  /\ min_max_applied r = snd (clamp (cap_applied f) (fst c)).
Proof.
  unfold calculate. rewrite adjust_run_steps.
  destruct (run_steps _ _) as [credit_limit details]. simpl.
  destruct (clamp _ _) as [final note]. simpl. tauto.
Qed.

(** The calculator's final limit is [final_with] on the triggered steps. *)
Lemma final_limit_as_steps (f : form) (projects : Z) (cr : float) :
  final_limit (calculate f projects cr) = final_with f (triggered f projects cr).
Proof. apply (calculate_fields f projects cr). Qed.

(** *** Floor and ceiling *)

Lemma clamp_range (cap_note : bool) (x : float) :
  Py.is_nan x = false ->
  in_range (fst (clamp cap_note x)) = true
  \/ (cap_note = true /\ Py.gt x max_final_limit = true
      /\ clamp cap_note x = (x, NoThreshold)).
Proof.
  intros N. unfold clamp.
  destruct (Py.lt x min_final_limit) eqn:Lo; [left; reflexivity|].
  destruct (Py.gt x max_final_limit) eqn:Hi.
  - destruct cap_note; simpl; [right; tauto | left; reflexivity].
  - left. simpl. unfold in_range, Py.le.
    rewrite (FloatFacts.not_lt_ge x min_final_limit N eq_refl Lo).
    rewrite (FloatFacts.not_lt_ge max_final_limit x eq_refl N Hi).
    reflexivity.
Qed.

(** The floor is applied whenever the adjusted limit is below it. *)
Lemma clamp_floor (cap_note : bool) (x : float) :
  Py.lt x min_final_limit = true ->
  clamp cap_note x = (min_final_limit, FloorApplied).
Proof. intros H. unfold clamp. now rewrite H. Qed.

(** When the adjusted limit is a number, the final limit is within the
    bounds, or the base was capped and the adjusted limit, above the
    ceiling, is kept without a note. *)
Lemma final_limit_bounds (f : form) (r : result) :
  credit_limit_calculator f = Calculated r ->
  Py.is_nan (adjusted_limit r) = false ->
  in_range (final_limit r) = true
  \/ (base_limit_cap_applied r = true
      /\ Py.gt (adjusted_limit r) max_final_limit = true
      /\ final_limit r = adjusted_limit r
      /\ min_max_applied r = NoThreshold).
Proof.
  intros Hc N. apply calculated_inv in Hc.
  destruct Hc as (projects & cr & _ & _ & _ & _ & ->).
  destruct (calculate_fields f projects cr) as (_ & -> & _ & _ & Ha & -> & ->).
  rewrite Ha in *.
  destruct (clamp_range (cap_applied f) _ N) as [In | (C & G & ->)];
    [left | right]; auto.
Qed.

(** *** The adjusted limit is a number unless the unbilled revenue is NaN *)

Lemma when_finite (b : bool) (s : step) :
  finite_factor s -> Forall finite_factor (when b s).
Proof. intros H. destruct b; simpl; auto. Qed.

Lemma triggered_finite (f : form) (projects : Z) (cr : float) :
  Forall finite_factor (triggered f projects cr).
Proof.
  unfold triggered.
  repeat (apply Forall_app; split);
    apply when_finite; unfold finite_factor; simpl;
    do 3 eexists; vm_compute; reflexivity.
Qed.

Lemma run_steps_not_nan (steps : list step) :
  Forall finite_factor steps ->
  forall c, Py.is_nan (fst c) = false ->
            Py.is_nan (fst (run_steps steps c)) = false.
Proof.
  induction 1 as [|s steps (sg & m & e & Hs) _ IH]; intros [x details] Hx;
    simpl in *; trivial.
  apply IH. simpl.
  exact (RoundingFacts.mul_finite_not_nan x _ sg m e Hs Hx).
Qed.

Lemma eligible_revenue_positive (f : form) (ratio : option float) :
  is_eligible f ratio = true -> Py.gt (revenue f) 0 = true.
Proof.
  unfold is_eligible, actual_net_profit. intros H.
  apply andb_true_iff in H. destruct H as [H _].
  destruct (Py.gt (revenue f) 0); [reflexivity | discriminate].
Qed.

Lemma adjusted_limit_is_number (f : form) (r : result) :
  credit_limit_calculator f = Calculated r ->
  (is_contractor (industry_type f) = true ->
   Py.is_nan (unbilled_revenue f) = false) ->
  Py.is_nan (adjusted_limit r) = false.
Proof.
  intros Hc Hu. apply calculated_inv in Hc.
  destruct Hc as (projects & cr & _ & _ & _ & Hel & ->).
  destruct (calculate_fields f projects cr) as (_ & _ & _ & _ & -> & _).
  apply run_steps_not_nan; [apply triggered_finite|]. simpl.
  unfold capped_base. apply RoundingFacts.min_not_nan; [|reflexivity].
  unfold base_unadjusted.
  destruct (is_contractor (industry_type f)).
  - eapply RoundingFacts.mul_finite_not_nan; [vm_compute; reflexivity | auto].
  - eapply RoundingFacts.mul_finite_not_nan; [vm_compute; reflexivity|].
    apply RoundingFacts.gt0_not_nan. exact (eligible_revenue_positive _ _ Hel).
Qed.

(** Unless it is a contractor whose unbilled revenue is NaN, an
    application that passes validation and eligibility gets a final limit
    within the bounds, or has its base capped and keeps an adjusted limit
    above the ceiling. *)
Lemma final_limit_bounds_unless_nan (f : form) (r : result) :
  credit_limit_calculator f = Calculated r ->
  (is_contractor (industry_type f) = true ->
   Py.is_nan (unbilled_revenue f) = false) ->
  in_range (final_limit r) = true
  \/ (base_limit_cap_applied r = true
      /\ Py.gt (adjusted_limit r) max_final_limit = true
      /\ final_limit r = adjusted_limit r
      /\ min_max_applied r = NoThreshold).
Proof.
  intros Hc Hu. apply (final_limit_bounds f r Hc).
  exact (adjusted_limit_is_number f r Hc Hu).
Qed.

(** The exception is real: with the base capped, the +5% and +10%
    adjustments leave 2,310,000 as the final limit. *)
Lemma capped_base_exceeds_ceiling :
  exists r, credit_limit_calculator capped_bonus_form = Calculated r
            /\ base_limit_cap_applied r = true
            /\ final_limit r = 2310000
            /\ min_max_applied r = NoThreshold.
Proof. eexists. split; [vm_compute; reflexivity|]. repeat split. Qed.

(** C1 at its failing input: a contractor whose unbilled revenue reads
    "nan" passes validation and eligibility, the base is not capped, and the
    final limit is NaN, which is not within [100000, 2000000]. *)
Theorem nan_unbilled_revenue_escapes_bounds :
  exists r,
    errors nan_unbilled_form 3 = []
    /\ is_eligible nan_unbilled_form (Some 1.5) = true
    /\ credit_limit_calculator nan_unbilled_form = Calculated r
    /\ base_limit_cap_applied r = false
    /\ Py.is_nan (final_limit r) = true
    /\ in_range (final_limit r) = false.
Proof.
  eexists. split; [reflexivity|]. split; [reflexivity|].
  split; [vm_compute; reflexivity|]. repeat split.
Qed.

(** C6: revenue 10,000,000, Trading, no negative adjustment, current ratio
    above 2, more than 10 years, previous payments without delays: the base
    is 500,000 (uncapped), the adjustments +5%, +5%, +10% apply in that
    order, and the final limit is 606,375 with no floor or ceiling. *)
Theorem timely_trading_limit (f : form) (projects : Z) (cr : float) :
  revenue f = 10000000 ->
  industry_type f = Some Trading ->
  number_of_projects f = Some projects ->
  actual_current_ratio f = inr (Some cr) ->
  errors f projects = [] ->
  is_eligible f (Some cr) = true ->
  Py.gt (exposure_outstanding f) (revenue f * 0.3) = false ->
  is_saudi f = Yes ->
  Py.lt (years_of_operation f) 3 = false ->
  has_concentration f = No ->
  (projects <? 3)%Z = false ->
  Py.gt cr 2 = true ->
  Py.gt (years_of_operation f) 10 = true ->
  has_previous_payments f = Yes ->
  has_payment_delays f = No ->
  exists r,
    credit_limit_calculator f = Calculated r
    /\ base_limit_unadjusted r = 500000
    /\ base_limit_cap_applied r = false
    /\ base_limit_after_cap r = 500000
    /\ map step_factor (triggered f projects cr) = [1.05; 1.05; 1.10]
    /\ map (fun a => (adj_reason a, adj_before a, adj_after a)) (adjustments r)
       = [("Current Ratio > 2", 500000, 525000);
          ("Years in Business > 10", 525000, 551250);
          ("Previous Timely Payments", 551250, 606375)]
    /\ adjusted_limit r = 606375
    /\ final_limit r = 606375
    /\ min_max_applied r = NoThreshold.
Proof.
  intros Hrev Hind Hp Hr Herr Hel Hexp Hsaudi Hyoung Hconc Hproj Hcr Hold
         Hprev Hdelay.
  exists (calculate f projects cr). split.
  { unfold credit_limit_calculator. now rewrite Hp, Hr, Herr, Hel. }
  assert (Hbase : base_unadjusted f = 500000).
  { unfold base_unadjusted. now rewrite Hind, Hrev. }
  assert (Hcap : cap_applied f = false).
  { unfold cap_applied. now rewrite Hbase. }
  assert (Hcapped : capped_base f = 500000).
  { unfold capped_base. now rewrite Hbase. }
  assert (Hsteps : triggered f projects cr =
    [ {| step_factor := 1.05; step_reason := "Current Ratio > 2";
         step_info := Some cr |};
      {| step_factor := 1.05; step_reason := "Years in Business > 10";
         step_info := None |};
      {| step_factor := 1.10; step_reason := "Previous Timely Payments";
         step_info := None |} ]).
  { unfold triggered.
    now rewrite Hexp, Hsaudi, Hyoung, Hconc, Hproj, Hcr, Hold, Hprev, Hdelay. }
  destruct (calculate_fields f projects cr)
    as (-> & -> & -> & -> & -> & -> & ->).
  rewrite Hsteps, Hbase, Hcap, Hcapped. repeat split.
Qed.

Lemma timely_trading_limit_witness :
  exists r, credit_limit_calculator timely_trading_form = Calculated r
            /\ final_limit r = 606375.
Proof.
  destruct (timely_trading_limit timely_trading_form 3 3)
    as (r & Hr & _ & _ & _ & _ & _ & _ & Hfinal & _);
    try reflexivity.
  exists r. now split.
Defined.

(** C2: the order of the triggered adjustments matters to the total.  For
    a revenue of 2,300,000 with the +5% and +10% adjustments triggered, the
    calculator's order gives 132825 and the swapped order gives
    132825.00000000003. *)
Theorem adjustment_order_changes_total :
  exists (f : form) (projects : Z) (cr : float) (r : result) (steps' : list step),
    number_of_projects f = Some projects
    /\ actual_current_ratio f = inr (Some cr)
    /\ credit_limit_calculator f = Calculated r
    /\ final_limit r = final_with f (triggered f projects cr)
    /\ Permutation (triggered f projects cr) steps'
    /\ final_with f steps' <> final_limit r.
Proof.
  exists two_bonus_form, 3%Z, 3, (calculate two_bonus_form 3 3),
         (rev (triggered two_bonus_form 3 3)).
  split; [reflexivity|]. split; [reflexivity|]. split; [reflexivity|].
  split; [apply final_limit_as_steps|]. split; [apply Permutation_rev|].
  float_neq.
Qed.

(** *** Eligibility once validation has passed *)

(** C10, as stated, fails.  Both forms pass validation.  In the first,
    revenue, net profit, current assets and current liabilities are all
    greater than zero, yet revenue times net profit underflows to zero and
    the net-profit branch is taken.  In the second the current assets read
    "nan", which no validation rule rejects, and the undefined-ratio branch
    is taken. *)
Lemma ineligible_after_validation_counterexample :
  (errors tiny_profit_form 3 = []
   /\ Py.gt (revenue tiny_profit_form) 0 = true
   /\ Py.gt (net_profit_percentage tiny_profit_form) 0 = true
   /\ Py.gt (current_assets tiny_profit_form) 0 = true
   /\ Py.gt (current_liabilities tiny_profit_form) 0 = true
   /\ actual_net_profit tiny_profit_form = 0
   /\ credit_limit_calculator tiny_profit_form = NotEligible [NetProfitRequired])
  /\ (errors nan_assets_form 3 = []
      /\ actual_current_ratio nan_assets_form = inr None
      /\ credit_limit_calculator nan_assets_form = NotEligible [ValidRatioNeeded]).
Proof. repeat split. Qed.

(** C10, amended: once validation has passed, the division of current
    assets by current liabilities never divides by zero; the current ratio
    is undefined only if the current assets or liabilities are NaN; the
    net-profit branch is taken only if the revenue is NaN or revenue times
    net profit is zero (an underflow); otherwise the only ineligibility
    cause is a current ratio of at most 1. *)
Theorem eligibility_after_validation (f : form) (projects : Z) :
  number_of_projects f = Some projects ->
  errors f projects = [] ->
  credit_limit_calculator f <> Failed ZeroDivisionError
  /\ (actual_current_ratio f = inr None ->
      Py.is_nan (current_assets f) = true
      \/ Py.is_nan (current_liabilities f) = true)
  /\ (Py.le (actual_net_profit f) 0 = true ->
      Py.is_nan (revenue f) = true
      \/ (revenue f * net_profit_percentage f =? 0)%float = true)
  /\ (Py.is_nan (current_assets f) = false ->
      Py.is_nan (current_liabilities f) = false ->
      Py.is_nan (revenue f) = false ->
      (revenue f * net_profit_percentage f =? 0)%float = false ->
      forall reasons,
        credit_limit_calculator f = NotEligible reasons ->
        exists cr, actual_current_ratio f = inr (Some cr)
                   /\ Py.le cr 1 = true
                   /\ reasons = [RatioAboveOneRequired cr]).
Proof.
  intros Hp Herr.
  pose proof (proj1 (errors_nil_iff f projects) Herr) as Hv.
  pose proof (Hv Revenue) as Hrev. pose proof (Hv AssetsPositive) as Hca.
  pose proof (Hv LiabilitiesPositive) as Hcl.
  pose proof (Hv NetProfitRequiredRule) as Hnb.
  pose proof (Hv NetProfitPositive) as Hnp. simpl in *.
  rewrite Hnb in Hnp. simpl in Hnp.
  assert (Hundefined : actual_current_ratio f = inr None ->
            Py.is_nan (current_assets f) = true
            \/ Py.is_nan (current_liabilities f) = true).
  { unfold actual_current_ratio. intros Hnone.
    destruct (Py.is_nan (current_assets f)) eqn:Na; [now left|].
    destruct (Py.is_nan (current_liabilities f)) eqn:Nl; [now right|].
    rewrite (FloatFacts.not_le0_gt0 _ Na Hca),
            (FloatFacts.not_le0_gt0 _ Nl Hcl) in Hnone. simpl in Hnone.
    destruct (Py.truediv _ _); discriminate. }
  assert (Hprofit : Py.le (actual_net_profit f) 0 = true ->
            Py.is_nan (revenue f) = true
            \/ (revenue f * net_profit_percentage f =? 0)%float = true).
  { unfold actual_net_profit. intros Hle.
    destruct (Py.is_nan (revenue f)) eqn:Nr; [now left|]. right.
    rewrite (FloatFacts.not_le0_gt0 _ Nr Hrev) in Hle.
    pose proof (FloatFacts.not_le0_gt0 _ Nr Hrev) as Hpos.
    apply FloatFacts.gt0_shape in Hpos.
    pose proof (FloatFacts.le0_false_shape _ Hnp) as Hnps.
    unfold Py.le in Hle.
    rewrite leb_spec, mul_spec, FloatFacts.zero_sf in Hle.
    rewrite eqb_spec, mul_spec, FloatFacts.zero_sf.
    now rewrite (FloatFacts.mul_pos_shape _ _ Hpos Hnps Hle). }
  split; [|split; [exact Hundefined | split; [exact Hprofit|]]].
  - destruct (ratio_never_raises f) as [ratio Hr].
    unfold credit_limit_calculator. rewrite Hp, Hr, Herr.
    destruct (negb (is_eligible f ratio)); [discriminate|].
    destruct ratio; discriminate.
  - intros Na Nl Nr Hnz reasons.
    destruct (ratio_never_raises f) as [ratio Hr].
    unfold credit_limit_calculator. rewrite Hp, Hr, Herr.
    destruct (is_eligible f ratio) eqn:El; simpl;
      [destruct ratio; discriminate|].
    intros H. injection H as <-.
    destruct ratio as [cr|].
    + exists cr. unfold is_eligible, eligibility_reasons in *.
      destruct (Py.le (actual_net_profit f) 0) eqn:Hle.
      * destruct (Hprofit eq_refl); congruence.
      * simpl in *. apply negb_false_iff in El. rewrite El. auto.
    + destruct (Hundefined Hr); congruence.
Qed.

Lemma eligibility_after_validation_witness :
  number_of_projects low_ratio_form = Some 3%Z
  /\ errors low_ratio_form 3 = []
  /\ exists cr, actual_current_ratio low_ratio_form = inr (Some cr)
                /\ Py.le cr 1 = true
                /\ credit_limit_calculator low_ratio_form
                   = NotEligible [RatioAboveOneRequired cr].
Proof.
  split; [reflexivity|]. split; [reflexivity|].
  destruct (eligibility_after_validation low_ratio_form 3 eq_refl eq_refl)
    as (_ & _ & _ & Honly).
  destruct (Honly eq_refl eq_refl eq_refl eq_refl
              [RatioAboveOneRequired 0.5] eq_refl) as (cr & Hr & Hle & Hreasons).
  exists cr. repeat split; trivial.
  injection Hreasons as <-. reflexivity.
Defined.

(** *** The rules as the specification words them

    On numbers the source's tests are the negations of the rules. *)

Lemma gt_not_le (x c : float) :
  Py.is_nan x = false -> Py.is_nan c = false ->
  Py.gt x c = negb (Py.le x c).
Proof.
  unfold Py.gt, Py.le. rewrite !FloatFacts.nan_spec, ltb_spec, leb_spec.
  unfold SFltb, SFleb. intros Hx Hc.
  rewrite (FloatFacts.SFcompare_antisym (Prim2SF x) (Prim2SF c)).
  destruct (SFcompare (Prim2SF x) (Prim2SF c)) as [[ | | ]|] eqn:E; simpl;
    try reflexivity.
  exfalso.
  destruct (Prim2SF x) as [s|s| |s m e], (Prim2SF c) as [s'|s'| |s' m' e'];
    simpl in E; try discriminate; try congruence.
Qed.

Lemma ge_not_lt (x c : float) :
  Py.is_nan x = false -> Py.is_nan c = false ->
  Py.ge x c = negb (Py.lt x c).
Proof.
  unfold Py.ge, Py.lt. rewrite !FloatFacts.nan_spec, ltb_spec, leb_spec.
  unfold SFltb, SFleb. intros Hx Hc.
  rewrite (FloatFacts.SFcompare_antisym (Prim2SF x) (Prim2SF c)).
  destruct (SFcompare (Prim2SF x) (Prim2SF c)) as [[ | | ]|] eqn:E; simpl;
    try reflexivity.
  exfalso.
  destruct (Prim2SF x) as [s|s| |s m e], (Prim2SF c) as [s'|s'| |s' m' e'];
    simpl in E; try discriminate; try congruence.
Qed.

(** When every number read from the form is a number, a rule is met
    exactly when the source's test for it does not fire. *)
Lemma rule_met_unless_reported (f : form) (projects : Z) (r : rule) :
  numbers_read f -> rule_met f projects r = negb (reported f projects r).
Proof.
  intros (Nq & Nr & Ne & Nu & Ny & Np & Na & Nl).
  destruct r; unfold rule_met, reported;
    rewrite ?(gt_not_le _ 0 Nq eq_refl), ?(gt_not_le _ 0 Nr eq_refl),
            ?(ge_not_lt _ 0 Ne eq_refl), ?(gt_not_le _ 0 Nu eq_refl),
            ?(gt_not_le _ 0 Ny eq_refl), ?(gt_not_le _ 0 Np eq_refl),
            ?(gt_not_le _ 0 Na eq_refl), ?(gt_not_le _ 0 Nl eq_refl);
    try reflexivity.
  - now destruct (industry_type f).
  - rewrite negb_andb. reflexivity.
  - rewrite !negb_andb, negb_involutive. reflexivity.
  - rewrite Z.leb_antisym. reflexivity.
  - rewrite negb_andb, negb_involutive. reflexivity.
Qed.

(** The claim of C8 on every form whose numbers are numbers: the errors
    are the messages of all the rules that are not met, in order, and
    stop the calculation; when every rule is met and neither the net
    profit nor the current ratio is NaN, an application that is not
    eligible as specified gets its reasons and no limit, and an eligible
    one gets a limit. *)
Lemma validation_by_the_rules_unless_nan
    (f : form) (projects : Z) (ratio : option float) :
  numbers_read f ->
  number_of_projects f = Some projects ->
  actual_current_ratio f = inr ratio ->
  errors f projects =
    flat_map (fun r => if rule_met f projects r then [] else [message r])
             all_rules
  /\ ((exists r, rule_met f projects r = false) ->
      credit_limit_calculator f = InputErrors (errors f projects))
  /\ ((forall r, rule_met f projects r = true) ->
      Py.is_nan (actual_net_profit f) = false ->
      (forall cr, ratio = Some cr -> Py.is_nan cr = false) ->
      (eligible_as_specified f ratio = false ->
         eligibility_reasons f ratio <> []
         /\ credit_limit_calculator f
            = NotEligible (eligibility_reasons f ratio))
      /\ (eligible_as_specified f ratio = true ->
          exists r, credit_limit_calculator f = Calculated r)).
Proof.
  intros N Hp Hr.
  destruct (validation_collects_then_eligibility f projects ratio Hp Hr)
    as (He & Herr & _ & _ & _ & Hok).
  assert (M : forall r, rule_met f projects r = negb (reported f projects r))
    by (intros r; now apply rule_met_unless_reported).
  split; [|split].
  - rewrite He. apply flat_map_ext. intros r. rewrite M.
    now destruct (reported f projects r).
  - intros (r & Hr'). apply Herr. exists r. rewrite M in Hr'.
    now apply negb_false_iff.
  - intros Hall Nn Ncr.
    assert (Hrep : forall r, reported f projects r = false).
    { intros r. specialize (Hall r). rewrite M in Hall.
      now apply negb_true_iff. }
    destruct (Hok Hrep) as [Hne Hnil].
    assert (E : eligible_as_specified f ratio = is_eligible f ratio).
    { unfold eligible_as_specified, is_eligible.
      rewrite (gt_not_le _ 0 Nn eq_refl).
      destruct ratio as [cr|]; [|reflexivity].
      now rewrite (gt_not_le cr 1 (Ncr cr eq_refl) eq_refl). }
    rewrite E. split; intros H.
    + assert (R : eligibility_reasons f ratio <> []).
      { intros X. apply eligible_iff_no_reason in X. congruence. }
      split; [exact R | exact (Hne R)].
    + apply Hnil. now apply eligible_iff_no_reason.
Qed.

(** The lemma at two forms: one with a missing requested limit, industry
    and liabilities, one whose current ratio is 0.5. *)
Lemma validation_by_the_rules_examples :
  credit_limit_calculator incomplete_form =
    InputErrors ["Requested Limit > 0."; "Industry Type required.";
                 "Current Liabilities required."; "Current Liabilities > 0."]
  /\ credit_limit_calculator low_ratio_form
     = NotEligible [RatioAboveOneRequired 0.5].
Proof.
  split.
  - destruct (validation_by_the_rules_unless_nan incomplete_form 3 None)
      as (_ & H & _); [repeat split | reflexivity | reflexivity |].
    rewrite H; [reflexivity|]. exists RequestedLimit. reflexivity.
  - destruct (validation_by_the_rules_unless_nan low_ratio_form 3 (Some 0.5))
      as (_ & _ & H); [repeat split | reflexivity | reflexivity |].
    destruct H as [H _].
    + intros r. destruct r; reflexivity.
    + reflexivity.
    + intros cr E. injection E as <-. reflexivity.
    + destruct (H eq_refl) as [_ ->]. reflexivity.
Qed.

(** C8 at its failing input: with the net-profit text "nan" the rule
    netProfitPercent > 0 is not met, yet no error is collected; the net
    profit is NaN, so that actualNetProfit > 0 does not hold, yet no
    reason is listed; and the calculation goes on to a limit of 525000. *)
Theorem nan_net_profit_escapes_validation :
  number_of_projects nan_profit_form = Some 3%Z
  /\ actual_current_ratio nan_profit_form = inr (Some 3)
  /\ rule_met nan_profit_form 3 NetProfitPositive = false
  /\ errors nan_profit_form 3 = []
  /\ Py.is_nan (actual_net_profit nan_profit_form) = true
  /\ eligible_as_specified nan_profit_form (Some 3) = false
  /\ eligibility_reasons nan_profit_form (Some 3) = []
  /\ exists r, credit_limit_calculator nan_profit_form = Calculated r
               /\ final_limit r = 525000.
Proof.
  repeat (split; [reflexivity|]).
  eexists. split; [vm_compute; reflexivity | reflexivity].
Qed.

End CreditLimitFacts.

(** ** The Profitability Calculator *)

Module ProfitFacts.

Import Profit.
Local Open Scope string_scope.
Local Open Scope list_scope.

(** C9: a staged deal carries monthlyProfit = size x (rate / 100),
    totalProfit = monthlyProfit x months, adminFeeAmount = size x (fee / 100)
    and grossProfit = totalProfit + adminFeeAmount; a deal of 200000 at 3%
    with a 1.5% fee over 4 months gets 6000, 24000, 3000 and 27000. *)
Theorem staged_deal_arithmetic
    (unsaved_deals : list deal) (now client : string)
    (size rate fee_perc : float) (n : Z) :
  client <> "" ->
  Py.le size 0 = false ->
  (exists d,
     add_to_unsaved unsaved_deals now client size rate fee_perc n
       = unsaved_deals ++ [d]
     /\ deal_size d = size /\ monthly_rate d = rate
     /\ admin_fee d = fee_perc /\ months d = n
     /\ monthly_profit d = size * (rate / 100)
     /\ total_profit d = monthly_profit d * Py.float_of_int n
     /\ admin_fee_amount d = size * (fee_perc / 100)
     /\ gross_profit d = total_profit d + admin_fee_amount d)
  /\ (let d := new_deal now client 200000 3 1.5 4 in
      monthly_profit d = 6000 /\ total_profit d = 24000
      /\ admin_fee_amount d = 3000 /\ gross_profit d = 27000).
Proof.
  intros Hclient Hsize. split.
  - exists (new_deal now client size rate fee_perc n).
    unfold add_to_unsaved. apply String.eqb_neq in Hclient.
    rewrite Hclient, Hsize. simpl. repeat split.
  - repeat split.
Qed.

Lemma staged_deal_arithmetic_witness :
  exists d,
    add_to_unsaved [] "2025-01-01T10:00:00" "Al Noor Trading" 200000 3 1.5 4 = [d]
    /\ monthly_profit d = 6000 /\ total_profit d = 24000
    /\ admin_fee_amount d = 3000 /\ gross_profit d = 27000.
Proof.
  destruct (staged_deal_arithmetic [] "2025-01-01T10:00:00" "Al Noor Trading"
              200000 3 1.5 4) as [(d & Hadd & _ & _ & _ & _ & Hm & Ht & Hf & Hg) _].
  - discriminate.
  - reflexivity.
  - exists d. split; [exact Hadd|].
    split; [exact Hm|]. split; [rewrite Ht, Hm|].
    2: split; [exact Hf | rewrite Hg, Ht, Hm, Hf].
    all: simpl in Hadd; injection Hadd as <-; reflexivity.
Defined.

(** The save succeeds only on a reply without error whose rows are as many
    as the rows sent. *)
Lemma save_true_inv (insert : list db_deal -> reply)
    (user_id session_token : option string) (deals_list : list deal) :
  save_deal_bundle_to_db insert user_id session_token deals_list = true ->
  exists uid data,
    user_id = Some uid
    /\ insert (prepare uid deals_list) = Response None data
    /\ List.length data = List.length (prepare uid deals_list).
Proof.
  unfold save_deal_bundle_to_db.
  destruct deals_list as [|d l]; [discriminate|].
  destruct user_id as [uid|]; [|discriminate].
  destruct (uid =? ""); [discriminate|].
  destruct (missing session_token); [discriminate|].
  destruct (prepare uid (d :: l)) as [|p ps] eqn:P; [discriminate|].
  destruct (insert (p :: ps)) as [|[e|] [|r rs]] eqn:I; try discriminate.
  destruct (Nat.eqb _ _) eqn:E; simpl; [|discriminate].
  intros _. exists uid, (r :: rs). apply Nat.eqb_eq in E.
  rewrite P. auto.
Qed.

(** C7: the staged list is left as it is when the store returns a number
    of rows different from the number sent (or raises, or reports an
    error), and it is emptied only when the store returned, without error,
    exactly as many rows as were sent. *)
Theorem staging_cleared_only_on_exact_count
    (insert : list db_deal -> reply) (uid : string)
    (session_token : option string) (unsaved_deals : list deal) :
  (forall error data,
     insert (prepare uid unsaved_deals) = Response error data ->
     List.length data <> List.length (prepare uid unsaved_deals) ->
     save_all_staged insert (Some uid) session_token unsaved_deals = unsaved_deals)
  /\ (unsaved_deals <> [] ->
      save_all_staged insert (Some uid) session_token unsaved_deals = [] ->
      exists data,
        insert (prepare uid unsaved_deals) = Response None data
        /\ List.length data = List.length (prepare uid unsaved_deals))
  /\ (save_all_staged insert (Some uid) session_token unsaved_deals = []
      \/ save_all_staged insert (Some uid) session_token unsaved_deals
           = unsaved_deals).
Proof.
  split; [|split].
  - intros error data Hreply Hcount. unfold save_all_staged.
    destruct (0 <? List.length unsaved_deals)%nat; [|reflexivity].
    destruct (missing session_token); [reflexivity|].
    destruct (save_deal_bundle_to_db _ _ _ _) eqn:S; [|reflexivity].
    apply save_true_inv in S. destruct S as (uid' & data' & Hu & Hi & Hl).
    injection Hu as <-. rewrite Hreply in Hi. injection Hi as _ <-.
    contradiction.
  - intros Hne. unfold save_all_staged.
    destruct (0 <? List.length unsaved_deals)%nat; [|contradiction].
    destruct (missing session_token); [contradiction|].
    destruct (save_deal_bundle_to_db _ _ _ _) eqn:S; [|contradiction].
    intros _. apply save_true_inv in S.
    destruct S as (uid' & data' & Hu & Hi & Hl).
    injection Hu as <-. now exists data'.
  - unfold save_all_staged.
    destruct (0 <? List.length unsaved_deals)%nat; [|now right].
    destruct (missing session_token); [now right|].
    destruct (save_deal_bundle_to_db _ _ _ _); [now left | now right].
Qed.

Lemma staging_cleared_only_on_exact_count_witness :
  save_all_staged lossy_store (Some "user-1") (Some "token") two_staged_deals
    = two_staged_deals
  /\ save_all_staged faithful_store (Some "user-1") (Some "token")
       two_staged_deals = [].
Proof.
  split.
  - destruct (staging_cleared_only_on_exact_count lossy_store "user-1"
                (Some "token") two_staged_deals) as (Hkept & _ & _).
    apply (Hkept None (tl (prepare "user-1" two_staged_deals)) eq_refl).
    vm_compute. discriminate.
  - destruct (staging_cleared_only_on_exact_count faithful_store "user-1"
                (Some "token") two_staged_deals) as (_ & _ & [Hc | Hk]).
    + exact Hc.
    + vm_compute in Hk. discriminate Hk.
Defined.

End ProfitFacts.

(** ** The Murabahah schedule *)

Module MurabahahFacts.

Import Murabahah.
Local Open Scope list_scope.

Section Schedule.

Variables (financing_period : Z) (rate fee first subsequent deal_size : float).

Let step := month_step financing_period rate fee first subsequent.
Let after := rounds financing_period rate fee first subsequent deal_size.
Let ok := row_ok financing_period rate fee first subsequent deal_size.

Lemma rounds_succ (k : nat) : after (S k) = step (after k) (Z.of_nat (S k)).
Proof.
  unfold after, rounds. rewrite seq_S, map_app, fold_left_app. reflexivity.
Qed.

Lemma remaining_after_last (rows : list row) (r : row) :
  remaining_after deal_size (rows ++ [r])
  = remaining_after deal_size rows - Principal r.
Proof. unfold remaining_after. now rewrite fold_left_app. Qed.

(** One round appends one row, built from the rows before it. *)
Lemma step_row (sched : list row) (remaining : float) (i : nat) :
  remaining = remaining_after deal_size sched ->
  exists r, step (sched, remaining) (Z.of_nat (S i))
              = (sched ++ [r], remaining - Principal r)
            /\ ok sched i r.
Proof.
  intros ->.
  set (month := Z.of_nat (S i)).
  set (remaining := remaining_after deal_size sched).
  set (payment := if (month =? 1)%Z then first else subsequent).
  set (fee_paid := if (month =? 1)%Z then fee else 0).
  exists {| Month := month; Installment := payment;
            Principal := if (month =? financing_period)%Z then remaining
                         else Py.max 0 (payment - remaining * rate - fee_paid);
            Profit := remaining * rate; Admin_Fee_Paid := fee_paid;
            Remaining_Principal :=
              Py.max 0 (remaining
                        - (if (month =? financing_period)%Z then remaining
                           else Py.max 0 (payment - remaining * rate - fee_paid))) |}.
  split; [reflexivity|]. unfold ok, row_ok. simpl. repeat split.
Qed.

(** The loop invariant: [k] rows, the loop variable is the remaining
    principal after them, and every row is as [row_ok] says. *)
Lemma rounds_invariant (k : nat) :
  List.length (fst (after k)) = k
  /\ snd (after k) = remaining_after deal_size (fst (after k))
  /\ forall i r, nth_error (fst (after k)) i = Some r ->
                 ok (firstn i (fst (after k))) i r.
Proof.
  induction k as [|k (Hlen & Hrem & Hrows)].
  - split; [reflexivity | split; [reflexivity | intros [|i] r; discriminate]].
  - rewrite rounds_succ. destruct (after k) as [sched remaining].
    simpl in Hlen, Hrem, Hrows.
    destruct (step_row sched remaining k Hrem) as (new & -> & Hnew). simpl.
    split; [|split].
    + rewrite length_app. simpl. lia.
    + now rewrite remaining_after_last, Hrem.
    + intros i r' Hi.
      destruct (Nat.lt_ge_cases i (List.length sched)) as [Hlt | Hge].
      * rewrite nth_error_app1 in Hi by assumption.
        rewrite firstn_app.
        replace (i - List.length sched)%nat with 0%nat by lia.
        simpl. rewrite app_nil_r. now apply Hrows.
      * assert (i = List.length sched) as ->.
        { assert (Hi' : nth_error (sched ++ [new]) i <> None) by congruence.
          apply nth_error_Some in Hi'. rewrite length_app in Hi'.
          simpl in Hi'. lia. }
        rewrite nth_error_app2 in Hi by lia.
        rewrite Nat.sub_diag in Hi. injection Hi as <-.
        rewrite firstn_app, Nat.sub_diag, firstn_all. simpl.
        rewrite app_nil_r, Hlen. exact Hnew.
Qed.

(** The last round pays the remaining principal, whatever it is, and
    leaves nothing to display. *)
Lemma final_round (k : nat) :
  financing_period = Z.of_nat (S k) ->
  exists rows last,
    fst (after (S k)) = rows ++ [last]
    /\ List.length rows = k
    /\ Month last = financing_period
    /\ Principal last = remaining_after deal_size rows
    /\ Remaining_Principal last = 0.
Proof.
  intros Hn. rewrite rounds_succ.
  destruct (rounds_invariant k) as (Hlen & Hrem & _).
  destruct (after k) as [sched remaining]. simpl in Hlen, Hrem.
  destruct (step_row sched remaining k Hrem)
    as (last & -> & Hm & _ & _ & _ & Hp & Hd).
  exists sched, last. simpl. rewrite <- Hn, Z.eqb_refl in Hp.
  repeat split; trivial; try congruence.
  rewrite Hd, Hp. apply FloatFacts.max0_sub_self.
Qed.

End Schedule.

(** Within the sliders' range the calculator runs its loop to the end. *)
Lemma calculator_runs (deal_size profit_rate admin_fee_perc : float)
    (financing_period : Z) :
  Py.gt deal_size 0 = true ->
  period_in_range financing_period ->
  let fee := deal_size * (admin_fee_perc / 100) in
  let rate := profit_rate / 100 in
  let total := deal_size * rate * Py.float_of_int financing_period in
  let base := (deal_size + total) / Py.float_of_int financing_period in
  murabahah_calculator deal_size profit_rate financing_period admin_fee_perc =
  {| first_month_payment := base + fee;
     subsequent_monthly_payment := base;
     total_profit := 0;
     total_earnings := total + fee;
     total_admin_fee := fee;
     total_profit_amount := total;
     schedule := fst (rounds financing_period rate fee (base + fee) base
                             deal_size (Z.to_nat financing_period));
     caught := None |}.
Proof.
  intros Hd Hn. unfold murabahah_calculator, Py.truediv.
  assert (Hpos : (0 <? financing_period)%Z = true)
    by (apply Z.ltb_lt; unfold period_in_range in Hn; lia).
  rewrite Hd, Hpos, (FloatFacts.float_of_int_nonzero _ Hn). reflexivity.
Qed.

(** C5: for a plan with a positive size and 1 to 12 months, the admin fee
    is size x (fee / 100), the total profit size x (rate / 100) x months,
    the total earnings their sum, the later payments (size + total profit)
    / months and the first payment that plus the admin fee; and the profit
    of each row is the remaining principal at the start of its month times
    the monthly rate. *)
Theorem murabahah_summary_and_profit_rows
    (deal_size profit_rate admin_fee_perc : float) (financing_period : Z) :
  Py.gt deal_size 0 = true ->
  period_in_range financing_period ->
  let s := murabahah_calculator deal_size profit_rate financing_period
                                admin_fee_perc in
  let rate := profit_rate / 100 in
  caught s = None
  /\ total_admin_fee s = deal_size * (admin_fee_perc / 100)
  /\ total_profit_amount s = deal_size * rate * Py.float_of_int financing_period
  /\ total_earnings s = total_profit_amount s + total_admin_fee s
  /\ subsequent_monthly_payment s =
       (deal_size + total_profit_amount s) / Py.float_of_int financing_period
  /\ first_month_payment s = subsequent_monthly_payment s + total_admin_fee s
  /\ List.length (schedule s) = Z.to_nat financing_period
  /\ forall i r, nth_error (schedule s) i = Some r ->
       Month r = Z.of_nat (S i)
       /\ Profit r = remaining_after deal_size (firstn i (schedule s)) * rate
       /\ Installment r = (if (i =? 0)%nat then first_month_payment s
                           else subsequent_monthly_payment s)
       /\ Admin_Fee_Paid r = (if (i =? 0)%nat then total_admin_fee s else 0).
Proof.
  intros Hd Hn s rate. subst s.
  rewrite (calculator_runs _ _ _ _ Hd Hn). simpl.
  repeat (split; [reflexivity|]).
  match goal with
  | |- context [rounds ?n ?r ?f ?a ?b ?d ?k] =>
      destruct (rounds_invariant n r f a b d k) as (Hlen & _ & Hrows)
  end.
  split; [exact Hlen|].
  intros i r Hi. destruct (Hrows i r Hi) as (Hm & Hp & Hi' & Hf & _).
  assert (E : (Z.of_nat (S i) =? 1)%Z = (i =? 0)%nat)
    by (destruct i; [reflexivity | simpl Nat.eqb; apply Z.eqb_neq; lia]).
  rewrite E in Hi', Hf. auto.
Qed.

Lemma murabahah_summary_and_profit_rows_witness :
  let s := murabahah_calculator 100000 2.5 3 1.5 in
  total_admin_fee s = 1500
  /\ total_profit_amount s = 7500
  /\ total_earnings s = 9000
  /\ subsequent_monthly_payment s = 35833.333333333336
  /\ first_month_payment s = 37333.333333333336
  /\ exists r, nth_error (schedule s) 1 = Some r
               /\ Profit r = 66666.666666666657 * 0.025
               /\ Profit r = 1666.6666666666665.
Proof.
  assert (Hn : period_in_range 3) by (unfold period_in_range; lia).
  destruct (murabahah_summary_and_profit_rows 100000 2.5 1.5 3 eq_refl Hn)
    as (_ & Hfee & Htotal & Hearn & Hsub & Hfirst & _ & Hrows).
  split; [exact Hfee|]. split; [exact Htotal|]. split; [exact Hearn|].
  split; [exact Hsub|]. split; [exact Hfirst|].
  eexists. split; [reflexivity|].
  match goal with
  | |- Profit ?r = _ /\ _ => destruct (Hrows 1%nat r eq_refl) as (_ & Hp & _)
  end.
  split; exact Hp.
Defined.

(** C3, as stated, fails, and at the very example it gives: for a size of
    100,000 at 2.5% over 3 months with a 1.5% fee the Principal column is
    33333.333333333336, 34166.666666666672, 32499.999999999985; added from
    left to right it gives 99999.999999999985, and its exact sum is
    100000 - 2^-37 (in units of 2^-38: 27487790694399998 against
    27487790694400000). *)
Lemma principal_sum_counterexample :
  let s := murabahah_calculator 100000 2.5 3 1.5 in
  map Principal (schedule s)
    = [33333.333333333336; 34166.666666666672; 32499.999999999985]
  /\ principal_sum (schedule s) = 99999.999999999985
  /\ principal_sum (schedule s) <> 100000
  /\ exact_principal_sum 38 (schedule s) = Some 27487790694399998%Z
  /\ Py.scaled 38 100000 = Some 27487790694400000%Z.
Proof.
  repeat split; try reflexivity. float_neq.
Qed.

(** C3, amended: for a plan with a positive size and 1 to 12 months, the
    schedule has one row per month, the principal of the final month is
    the remaining principal at the start of that month (the size minus the
    earlier principals, subtracted one by one), and the final row shows a
    remaining principal of 0. *)
Theorem final_principal_is_remaining
    (deal_size profit_rate admin_fee_perc : float) (financing_period : Z) :
  Py.gt deal_size 0 = true ->
  period_in_range financing_period ->
  let s := murabahah_calculator deal_size profit_rate financing_period
                                admin_fee_perc in
  exists rows last,
    schedule s = rows ++ [last]
    /\ List.length (schedule s) = Z.to_nat financing_period
    /\ Month last = financing_period
    /\ Principal last = remaining_after deal_size rows
    /\ Remaining_Principal last = 0.
Proof.
  intros Hd Hn s. subst s.
  rewrite (calculator_runs _ _ _ _ Hd Hn). simpl.
  unfold period_in_range in Hn.
  destruct (Z.to_nat financing_period) as [|k] eqn:K; [lia|].
  assert (Hk : financing_period = Z.of_nat (S k)) by lia.
  match goal with
  | |- context [rounds ?n ?r ?f ?a ?b ?d (S k)] =>
      destruct (final_round n r f a b d k Hk)
        as (rows & last & Hs & Hlen & Hm & Hp & Hz)
  end.
  exists rows, last. rewrite Hs, length_app. simpl.
  repeat split; trivial. lia.
Qed.

Lemma final_principal_is_remaining_witness :
  let s := murabahah_calculator 100000 2.5 3 1.5 in
  exists rows last,
    schedule s = rows ++ [last]
    /\ map Principal rows = [33333.333333333336; 34166.666666666672]
    /\ Principal last = remaining_after 100000 rows
    /\ Principal last = 32499.999999999985
    /\ Remaining_Principal last = 0.
Proof.
  assert (Hn : period_in_range 3) by (unfold period_in_range; lia).
  destruct (final_principal_is_remaining 100000 2.5 1.5 3 eq_refl Hn)
    as (rows & last & Hs & _ & _ & Hp & Hz).
  exists rows, last. split; [exact Hs|].
  vm_compute in Hs.
  match type of Hs with
  | [?a; ?b; ?c] = _ => change [a; b; c] with ([a; b] ++ [c]) in Hs
  end.
  apply app_inj_tail in Hs. destruct Hs as [<- <-].
  split; [reflexivity|]. split; [exact Hp|]. split; [exact Hp | exact Hz].
Defined.

End MurabahahFacts.

(** ** Further properties of the clean-number parser *)

Module CleanNumberMore.

Local Open Scope string_scope.

(** *** Separators and white space *)

Lemma remove_char_app (c : ascii) (a b : string) :
  Text.remove_char c (a ++ b) = Text.remove_char c a ++ Text.remove_char c b.
Proof.
  induction a as [|x a IH]; simpl; [reflexivity|].
  destruct (Ascii.eqb x c); simpl; now rewrite IH.
Qed.

Lemma rstrip_space_end (s : string) (c : ascii) :
  Text.is_space c = true ->
  Text.rstrip (s ++ String c "") = Text.rstrip s.
Proof.
  intros Hc. induction s as [|x s IH]; simpl.
  - now rewrite Hc.
  - now rewrite IH.
Qed.

Lemma lstrip_space_end (s : string) (c : ascii) :
  Text.is_space c = true ->
  Text.lstrip (s ++ String c "") = Text.lstrip s ++ String c ""
  \/ (Text.lstrip (s ++ String c "") = "" /\ Text.lstrip s = "").
Proof.
  intros Hc. induction s as [|x s IH]; simpl.
  - rewrite Hc. now right.
  - destruct (Text.is_space x); [exact IH | now left].
Qed.

Lemma strip_space_end (s : string) (c : ascii) :
  Text.is_space c = true -> Text.strip (s ++ String c "") = Text.strip s.
Proof.
  intros Hc. unfold Text.strip.
  destruct (lstrip_space_end s c Hc) as [-> | [-> ->]]; [|reflexivity].
  now apply rstrip_space_end.
Qed.

Lemma strip_space_start (s : string) (c : ascii) :
  Text.is_space c = true -> Text.strip (String c s) = Text.strip s.
Proof. intros Hc. unfold Text.strip. simpl. now rewrite Hc. Qed.

Lemma space_kept (c k : ascii) (s : string) :
  Text.is_space c = true -> Text.is_space k = false ->
  Text.remove_char k (s ++ String c "") = Text.remove_char k s ++ String c ""
  /\ Text.remove_char k (String c s) = String c (Text.remove_char k s).
Proof.
  intros Hc Hk.
  assert (E : Ascii.eqb c k = false).
  { destruct (Ascii.eqb c k) eqn:E; trivial.
    apply Ascii.eqb_eq in E. congruence. }
  rewrite remove_char_app. simpl. now rewrite E.
Qed.

(** On ASCII text a comma or a percent sign anywhere in the text, and an
    ASCII white-space character before or after it, make no difference to
    the result. *)
Theorem separators_and_spaces_ignored (a b : string) (c : ascii) (flag : bool) :
  Text.is_ascii a = true -> Text.is_ascii b = true ->
  (clean_number (PyStr (a ++ String "," b)) flag = clean_number (PyStr (a ++ b)) flag)
  /\ (clean_number (PyStr (a ++ String "%" b)) flag = clean_number (PyStr (a ++ b)) flag)
  /\ (Text.is_space c = true ->
      clean_number (PyStr (String c a)) flag = clean_number (PyStr a) flag
      /\ clean_number (PyStr (a ++ String c "")) flag = clean_number (PyStr a) flag).
Proof.
  intros _ _. split; [|split].
  - unfold clean_number. rewrite !remove_char_app. reflexivity.
  - unfold clean_number. rewrite !remove_char_app. reflexivity.
  - intros Hc. unfold clean_number.
    destruct (space_kept c "," a Hc eq_refl) as [-> ->].
    destruct (space_kept c "%" (Text.remove_char "," a) Hc eq_refl) as [-> ->].
    now rewrite strip_space_end, strip_space_start.
Qed.

Lemma separators_and_spaces_ignored_witness :
  clean_number (PyStr " 1,500,000 ") false = 1500000
  /\ clean_number (PyStr "1,5,0,0,0,0,0") false = 1500000
  /\ clean_number (PyStr "5.5%") true = clean_number (PyStr "5.5") true.
Proof.
  destruct (separators_and_spaces_ignored "1,500,000" "" " " false
              eq_refl eq_refl) as (_ & _ & Hspace).
  destruct (Hspace eq_refl) as [_ Hend].
  destruct (separators_and_spaces_ignored "1,500,000 " "" " " false
              eq_refl eq_refl) as (_ & _ & Hspace').
  destruct (Hspace' eq_refl) as [Hstart _].
  split; [|split].
  - rewrite Hstart. etransitivity; [exact Hend | reflexivity].
  - destruct (separators_and_spaces_ignored "1,5" "0,0,0,0,0" " " false
                eq_refl eq_refl) as (Hcomma & _).
    etransitivity; [exact Hcomma | reflexivity].
  - destruct (separators_and_spaces_ignored "5.5" "" " " true
                eq_refl eq_refl) as (_ & Hpct & _).
    exact Hpct.
Defined.

(** *** Text that is not a number *)

Lemma string_app_assoc (a b c : string) : (a ++ b) ++ c = a ++ (b ++ c).
Proof. induction a as [|x a IH]; simpl; [reflexivity | now rewrite IH]. Qed.

Lemma all_chars_app (p : ascii -> bool) (a b : string) :
  Text.all_chars p (a ++ b) = Text.all_chars p a && Text.all_chars p b.
Proof.
  induction a as [|x a IH]; simpl; [reflexivity|].
  now rewrite IH, andb_assoc.
Qed.

Lemma digit_is_numeric (a : ascii) :
  Text.is_digit a = true -> Text.numeric_char a = true.
Proof. intros H. unfold Text.numeric_char. now rewrite H. Qed.

Lemma digits_tail_eq (a : ascii) (s' : string) (acc k : Z) :
  Text.digits_tail (String a s') acc k =
  if Text.is_digit a
  then Text.digits_tail s' (10 * acc + Text.digit_val a)%Z (k + 1)%Z
  else if Ascii.eqb a "_" then
    match s' with
    | String b s'' =>
        if Text.is_digit b
        then Text.digits_tail s'' (10 * acc + Text.digit_val b)%Z (k + 1)%Z
        else (acc, k, String a s')
    | EmptyString => (acc, k, String a s')
    end
  else (acc, k, String a s').
Proof. reflexivity. Qed.

(** What [digits_tail] reads is made of digits and underscores. *)
Lemma digits_tail_reads (n : nat) :
  forall (s : string) (acc k : Z),
    (String.length s <= n)%nat ->
    exists c, s = c ++ snd (Text.digits_tail s acc k)
              /\ Text.all_chars Text.numeric_char c = true.
Proof.
  induction n as [|n IH]; intros s acc k Hlen.
  - destruct s; [|simpl in Hlen; lia]. exists "". now split.
  - destruct s as [|a s']; [exists ""; now split|].
    simpl in Hlen. rewrite digits_tail_eq.
    destruct (Text.is_digit a) eqn:Da.
    + destruct (IH s' (10 * acc + Text.digit_val a)%Z (k + 1)%Z) as (c & Hc & Hn);
        [lia|].
      exists (String a c). split; [cbn [append]; now rewrite <- Hc|].
      cbn [Text.all_chars]. now rewrite (digit_is_numeric a Da).
    + destruct (Ascii.eqb a "_") eqn:Ua; [|exists ""; now split].
      destruct s' as [|b s'']; [exists ""; now split|].
      destruct (Text.is_digit b) eqn:Db; [|exists ""; now split].
      simpl in Hlen.
      destruct (IH s'' (10 * acc + Text.digit_val b)%Z (k + 1)%Z) as (c & Hc & Hn);
        [lia|].
      exists (String a (String b c)). split; [cbn [append]; now rewrite <- Hc|].
      cbn [Text.all_chars]. rewrite (digit_is_numeric b Db), Hn.
      apply Ascii.eqb_eq in Ua. subst a. reflexivity.
Qed.

Lemma digitpart_reads (s : string) (acc m k : Z) (rest : string) :
  Text.digitpart s acc = Some (m, k, rest) ->
  exists c, s = c ++ rest /\ Text.all_chars Text.numeric_char c = true.
Proof.
  unfold Text.digitpart. destruct s as [|a s']; [discriminate|].
  destruct (Text.is_digit a) eqn:Da; [|discriminate].
  intros H. injection H as H.
  match type of H with
  | Text.digits_tail ?t ?x ?y = _ =>
      destruct (digits_tail_reads (String.length t) t x y (le_n _))
        as (c & Hc & Hn)
  end.
  rewrite H in Hc. cbn [snd] in Hc.
  exists (String a c). split; [cbn [append]; now rewrite <- Hc|].
  cbn [Text.all_chars]. now rewrite (digit_is_numeric a Da).
Qed.

Lemma number_reads (s : string) (m k : Z) (rest : string) :
  Text.number s = Some (m, k, rest) ->
  exists c, s = c ++ rest /\ Text.all_chars Text.numeric_char c = true.
Proof.
  unfold Text.number.
  destruct (Text.digitpart s 0) as [[[m1 k1] r1]|] eqn:D1.
  - destruct (digitpart_reads _ _ _ _ _ D1) as (c1 & -> & Hn1).
    destruct r1 as [|a r]; [intros H; injection H as _ _ <-; now exists c1|].
    destruct (Ascii.eqb a ".") eqn:Pa.
    + apply Ascii.eqb_eq in Pa. subst a.
      destruct (Text.digitpart r m1) as [[[m2 k2] r2]|] eqn:D2.
      * destruct (digitpart_reads _ _ _ _ _ D2) as (c2 & -> & Hn2).
        intros H. injection H as _ _ <-.
        exists (c1 ++ String "." c2). split.
        -- rewrite string_app_assoc. reflexivity.
        -- rewrite all_chars_app. simpl. now rewrite Hn1, Hn2.
      * intros H. injection H as _ _ <-.
        exists (c1 ++ "."). split.
        -- rewrite string_app_assoc. reflexivity.
        -- rewrite all_chars_app. simpl. now rewrite Hn1.
    + assert (E : forall X (x y : X),
                (match a with "."%char => x | _ => y end) = y).
      { intros X x y. apply Ascii.eqb_neq in Pa.
        destruct a as [[|] [|] [|] [|] [|] [|] [|] [|]]; trivial.
        contradiction. }
      rewrite E. intros H. injection H as _ _ <-. now exists c1.
  - destruct s as [|a r]; [discriminate|].
    destruct (Ascii.eqb a ".") eqn:Pa.
    + apply Ascii.eqb_eq in Pa. subst a. intros D2.
      destruct (digitpart_reads _ _ _ _ _ D2) as (c2 & -> & Hn2).
      exists (String "." c2). now split.
    + assert (E : forall X (x y : X),
                (match a with "."%char => x | _ => y end) = y).
      { intros X x y. apply Ascii.eqb_neq in Pa.
        destruct a as [[|] [|] [|] [|] [|] [|] [|] [|]]; trivial.
        contradiction. }
      rewrite E. discriminate.
Qed.

Lemma sign_reads (s : string) :
  exists c, s = c ++ snd (Text.sign s)
            /\ Text.all_chars Text.numeric_char c = true.
Proof.
  destruct s as [|a r]; [exists ""; now split|].
  destruct (Ascii.eqb a "-") eqn:M.
  - apply Ascii.eqb_eq in M. subst a. exists "-". now split.
  - destruct (Ascii.eqb a "+") eqn:P.
    + apply Ascii.eqb_eq in P. subst a. exists "+". now split.
    + exists "". split; [|reflexivity].
      apply Ascii.eqb_neq in M. apply Ascii.eqb_neq in P.
      destruct a as [[|] [|] [|] [|] [|] [|] [|] [|]]; trivial; contradiction.
Qed.

Lemma exponent_reads (s : string) (e : Z) :
  Text.exponent s = Some e -> Text.all_chars Text.numeric_char s = true.
Proof.
  unfold Text.exponent. destruct s as [|c r]; [reflexivity|].
  destruct (Ascii.eqb (Text.lower c) "e") eqn:E; [|discriminate].
  destruct (sign_reads r) as (sg & Hr & Hsg).
  destruct (Text.sign r) as [neg r']. cbn [snd] in Hr.
  destruct (Text.digitpart r' 0) as [[[x k] rest]|] eqn:D; [|discriminate].
  destruct rest; [|discriminate]. intros _.
  destruct (digitpart_reads _ _ _ _ _ D) as (c' & Hc' & Hn).
  rewrite Hr, Hc'. cbn [Text.all_chars].
  rewrite !all_chars_app, Hsg, Hn.
  apply Ascii.eqb_eq in E. unfold Text.numeric_char. rewrite E.
  rewrite !orb_true_r. reflexivity.
Qed.

Lemma letters_read (r l : string) :
  Text.lower_string r = l ->
  Text.all_chars Text.is_float_letter l = true ->
  Text.all_chars Text.numeric_char r = true.
Proof.
  revert l. induction r as [|a r IH]; intros l Hl Hletters; [reflexivity|].
  simpl in Hl. subst l. simpl in Hletters.
  apply andb_true_iff in Hletters. destruct Hletters as [Ha Hr].
  cbn [Text.all_chars]. rewrite (IH _ eq_refl Hr).
  unfold Text.numeric_char. rewrite Ha, !orb_true_r. reflexivity.
Qed.

(** A text that [float] accepts is made, once stripped, of digits,
    underscores, points, signs and the letters of "e", "inf", "infinity"
    and "nan". *)
Lemma float_of_string_reads (s : string) (v : float) :
  float_of_string s = Some v ->
  Text.all_chars Text.numeric_char (Text.strip s) = true.
Proof.
  unfold float_of_string.
  destruct (sign_reads (Text.strip s)) as (sg & Hs & Hsg).
  destruct (Text.sign (Text.strip s)) as [neg r]. cbn [snd] in Hs.
  rewrite Hs, all_chars_app, Hsg. cbn [andb].
  destruct (Text.lower_string r =? "inf") eqn:I1.
  { intros _. apply String.eqb_eq in I1. now apply (letters_read r _ I1). }
  destruct (Text.lower_string r =? "infinity") eqn:I2.
  { intros _. apply String.eqb_eq in I2. now apply (letters_read r _ I2). }
  cbn [orb].
  destruct (Text.lower_string r =? "nan") eqn:I3.
  { intros _. apply String.eqb_eq in I3. now apply (letters_read r _ I3). }
  destruct (Text.number r) as [[[m k] r']|] eqn:N; [|discriminate].
  destruct (Text.exponent r') as [e|] eqn:E; [|discriminate]. intros _.
  destruct (number_reads _ _ _ _ N) as (c & -> & Hc).
  now rewrite all_chars_app, Hc, (exponent_reads _ _ E).
Qed.

Lemma rstrip_idempotent (x : string) : Text.rstrip (Text.rstrip x) = Text.rstrip x.
Proof.
  induction x as [|a x IH]; [reflexivity|]. cbn [Text.rstrip].
  destruct (Text.rstrip x) as [|b r] eqn:R.
  - destruct (Text.is_space a) eqn:Sa; [reflexivity|].
    cbn [Text.rstrip]. now rewrite Sa.
  - cbn [Text.rstrip] in *. now rewrite IH.
Qed.

Lemma lstrip_head (u : string) :
  Text.lstrip u = ""
  \/ exists a r, Text.lstrip u = String a r /\ Text.is_space a = false.
Proof.
  induction u as [|a u IH]; [now left|]. cbn [Text.lstrip].
  destruct (Text.is_space a) eqn:Sa; [exact IH|]. right. now exists a, u.
Qed.

Lemma strip_idempotent (u : string) : Text.strip (Text.strip u) = Text.strip u.
Proof.
  unfold Text.strip. destruct (lstrip_head u) as [-> | (a & r & -> & Sa)];
    [reflexivity|].
  assert (H : exists r', Text.rstrip (String a r) = String a r').
  { cbn [Text.rstrip]. destruct (Text.rstrip r); [|now eexists].
    rewrite Sa. now eexists. }
  destruct H as (r' & Hr'). rewrite Hr'. cbn [Text.lstrip]. rewrite Sa.
  rewrite <- Hr'. apply rstrip_idempotent.
Qed.

(** ASCII text that still holds, once commas and percent signs are
    removed and the ends stripped, a character outside that alphabet (a
    space inside, a currency name or symbol, any other letter) reads as
    0.0. *)
Theorem text_outside_alphabet_is_zero (s : string) (flag : bool) :
  Text.is_ascii s = true ->
  Text.all_chars Text.numeric_char (cleaned_text s) = false ->
  clean_number (PyStr s) flag = 0.
Proof.
  intros _ Hout. unfold clean_number. fold (cleaned_text s).
  destruct (cleaned_text s =? ""); [reflexivity|].
  destruct (float_of_string (cleaned_text s)) as [v|] eqn:F; [|reflexivity].
  apply float_of_string_reads in F.
  unfold cleaned_text in F. rewrite strip_idempotent in F.
  fold (cleaned_text s) in F. congruence.
Qed.

Lemma text_outside_alphabet_is_zero_witness :
  clean_number (PyStr "1,500,000 SAR") false = 0
  /\ clean_number (PyStr "$1500") false = 0
  /\ clean_number (PyStr "12 000") false = 0
  /\ clean_number (PyStr "5 percent") true = 0.
Proof.
  split; [exact (text_outside_alphabet_is_zero "1,500,000 SAR" false
                   eq_refl eq_refl)|].
  split; [exact (text_outside_alphabet_is_zero "$1500" false eq_refl eq_refl)|].
  split; [exact (text_outside_alphabet_is_zero "12 000" false eq_refl eq_refl)|].
  exact (text_outside_alphabet_is_zero "5 percent" true eq_refl eq_refl).
Defined.

End CleanNumberMore.

(** ** Further properties of the Credit Limit Calculator *)

Module CreditLimitMore.

Import CreditLimit.
Local Open Scope string_scope.
Local Open Scope list_scope.

(** *** The audit trail *)

Lemma chained_app (x y z : float) (l1 l2 : list adjustment) :
  chained x l1 y -> chained y l2 z -> chained x (l1 ++ l2) z.
Proof.
  revert x. induction l1 as [|a l1 IH]; simpl; intros x H1 H2.
  - now subst.
  - destruct H1 as [Hb Hc]. split; auto.
Qed.

Lemma run_steps_trail (steps : list step) (x : float) (details : list adjustment) :
  exists entries,
    run_steps steps (x, details)
      = (fst (run_steps steps (x, details)), details ++ entries)
    /\ Forall2 records steps entries
    /\ chained x entries (fst (run_steps steps (x, details))).
Proof.
  revert x details. induction steps as [|s steps IH]; intros x details.
  - exists []. simpl. rewrite app_nil_r. repeat split. constructor.
  - simpl.
    destruct (IH (x * step_factor s)
                 (details ++ [ {| adj_reason := step_reason s;
                                  adj_value_info := step_info s;
                                  adj_change_percent := (step_factor s - 1) * 100;
                                  adj_before := x;
                                  adj_after := x * step_factor s |} ]))
      as (entries & Hrun & Hrec & Hch).
    eexists (_ :: entries). split; [|split].
    + rewrite Hrun at 1. simpl. now rewrite <- app_assoc.
    + constructor; [|exact Hrec]. repeat split.
    + simpl. split; [reflexivity | exact Hch].
Qed.

(** Every triggered step leaves one entry, with the step's reason, the
    percent change of its factor and the limit before and after it; the
    entries chain from the capped base to the adjusted limit. *)
Theorem adjustments_form_a_trail (f : form) (r : result) :
  credit_limit_calculator f = Calculated r ->
  exists projects cr,
    number_of_projects f = Some projects
    /\ actual_current_ratio f = inr (Some cr)
    /\ Forall2 records (triggered f projects cr) (adjustments r)
    /\ chained (base_limit_after_cap r) (adjustments r) (adjusted_limit r).
Proof.
  intros Hc. apply CreditLimitFacts.calculated_inv in Hc.
  destruct Hc as (projects & cr & Hp & Hr & _ & _ & ->).
  exists projects, cr. split; [exact Hp|]. split; [exact Hr|].
  destruct (CreditLimitFacts.calculate_fields f projects cr)
    as (_ & _ & -> & -> & -> & _).
  destruct (run_steps_trail (triggered f projects cr) (capped_base f) [])
    as (entries & Hrun & Hrec & Hch).
  rewrite Hrun. simpl. rewrite Hrun in Hch. simpl in Hch. auto.
Qed.

Lemma adjustments_form_a_trail_witness :
  exists r, credit_limit_calculator timely_trading_form = Calculated r
            /\ chained 500000 (adjustments r) 606375
            /\ List.length (adjustments r) = 3%nat.
Proof.
  destruct (adjustments_form_a_trail timely_trading_form
              (calculate timely_trading_form 3 3) eq_refl)
    as (projects & cr & _ & _ & Hrec & Hch).
  eexists. split; [reflexivity|]. split; [exact Hch|]. reflexivity.
Defined.

(** *** Which adjustments can occur together *)

Lemma in_when (b : bool) (s0 s : step) : In s (when b s0) -> b = true /\ s = s0.
Proof. destruct b; simpl; intuition. Qed.

(** A step is triggered only under the condition the source tests for its
    reason. *)
Lemma triggered_reason (f : form) (projects : Z) (cr : float) (s : step) :
  In s (triggered f projects cr) ->
  (step_reason s = "Payment delays > 30 days" ->
     has_previous_payments f = Yes /\ has_payment_delays f = Yes)
  /\ (step_reason s = "Previous Timely Payments" ->
     has_previous_payments f = Yes /\ has_payment_delays f = No)
  /\ (step_reason s = "Company < 3 years old" ->
     Py.lt (years_of_operation f) 3 = true)
  /\ (step_reason s = "Years in Business > 10" ->
     Py.gt (years_of_operation f) 10 = true).
Proof.
  unfold triggered. intros H.
  repeat (apply in_app_or in H; destruct H as [H | H]);
    apply in_when in H; destruct H as [Hb ->]; simpl;
    repeat split; intros; try discriminate;
    try exact Hb;
    try (apply andb_true_iff in Hb; destruct Hb as [H1 H2];
         destruct (has_previous_payments f), (has_payment_delays f);
         unfold is_no, is_yes in *; simpl in *; congruence).
Qed.

(** No number is below 3 and above 10. *)
Lemma not_young_and_old (y : float) :
  Py.lt y 3 = true -> Py.gt y 10 = true -> False.
Proof.
  unfold Py.lt, Py.gt. rewrite !ltb_spec. unfold SFltb.
  change (Prim2SF 3) with (S754_finite false 6755399441055744 (-51)).
  change (Prim2SF 10) with (S754_finite false 5629499534213120 (-49)).
  destruct (Prim2SF y) as [s|[|]| |[|] m e]; cbn [SFcompare];
    try discriminate.
  destruct (Z.compare_spec e (-51)), (Z.compare_spec (-49) e);
    try discriminate; lia.
Qed.

(** Every recorded reason is the reason of a triggered step. *)
Lemma calculated_reasons (f : form) (r : result) :
  credit_limit_calculator f = Calculated r ->
  exists projects cr,
    forall reason, In reason (reasons_of r) ->
      exists s, In s (triggered f projects cr) /\ step_reason s = reason.
Proof.
  intros Hc. apply CreditLimitFacts.calculated_inv in Hc.
  destruct Hc as (projects & cr & _ & _ & _ & _ & ->).
  exists projects, cr. unfold reasons_of.
  destruct (CreditLimitFacts.calculate_fields f projects cr)
    as (_ & _ & _ & -> & _).
  destruct (run_steps_trail (triggered f projects cr) (capped_base f) [])
    as (entries & Hrun & Hrec & _).
  rewrite Hrun. simpl. clear Hrun.
  intros reason Hr. apply in_map_iff in Hr. destruct Hr as (a & <- & Ha).
  induction Hrec as [|s a' steps entries' Hsa _ IH]; [contradiction|].
  destruct Ha as [<- | Ha].
  - exists s. split; [now left | symmetry; apply Hsa].
  - destruct (IH Ha) as (s' & Hs' & Hreason). exists s'. split; auto.
    now right.
Qed.

(** The -10% for payment delays and the +10% for timely payments never
    occur together, and neither occurs without previous payments; the -10%
    for a young company and the +5% for an old one never occur together. *)
Theorem exclusive_adjustments (f : form) (r : result) :
  credit_limit_calculator f = Calculated r ->
  ~ (In "Payment delays > 30 days" (reasons_of r)
     /\ In "Previous Timely Payments" (reasons_of r))
  /\ (has_previous_payments f = No ->
      ~ In "Payment delays > 30 days" (reasons_of r)
      /\ ~ In "Previous Timely Payments" (reasons_of r))
  /\ ~ (In "Company < 3 years old" (reasons_of r)
        /\ In "Years in Business > 10" (reasons_of r)).
Proof.
  intros Hc.
  destruct (calculated_reasons f r Hc) as (projects & cr & Hin).
  split; [|split].
  - intros [H1 H2].
    destruct (Hin _ H1) as (s1 & Hs1 & R1), (Hin _ H2) as (s2 & Hs2 & R2).
    destruct (triggered_reason f projects cr s1 Hs1) as (D & _).
    destruct (triggered_reason f projects cr s2 Hs2) as (_ & T & _).
    destruct (D R1), (T R2). congruence.
  - intros Hno. split; intros H; destruct (Hin _ H) as (s & Hs & R).
    + destruct (triggered_reason f projects cr s Hs) as (D & _).
      destruct (D R). congruence.
    + destruct (triggered_reason f projects cr s Hs) as (_ & T & _).
      destruct (T R). congruence.
  - intros [H1 H2].
    destruct (Hin _ H1) as (s1 & Hs1 & R1), (Hin _ H2) as (s2 & Hs2 & R2).
    destruct (triggered_reason f projects cr s1 Hs1) as (_ & _ & Y & _).
    destruct (triggered_reason f projects cr s2 Hs2) as (_ & _ & _ & O).
    exact (not_young_and_old _ (Y R1) (O R2)).
Qed.

Lemma exclusive_adjustments_witness :
  exists r, credit_limit_calculator timely_trading_form = Calculated r
            /\ In "Previous Timely Payments" (reasons_of r)
            /\ ~ In "Payment delays > 30 days" (reasons_of r).
Proof.
  eexists. split; [reflexivity|]. split; [vm_compute; tauto|].
  intros Hd.
  destruct (exclusive_adjustments timely_trading_form
              (calculate timely_trading_form 3 3) eq_refl) as (Hboth & _).
  apply Hboth. split; [exact Hd | vm_compute; tauto].
Defined.

(** *** What the result does not depend on *)

(** Unless the industry is Contractor, the text of the unbilled-revenue box
    plays no part in the outcome. *)
Theorem unbilled_text_ignored (f : form) (s : string) :
  is_contractor (industry_type f) = false ->
  credit_limit_calculator (with_unbilled f s) = credit_limit_calculator f.
Proof.
  intros Hn. destruct f. simpl in Hn.
  unfold credit_limit_calculator, number_of_projects, actual_current_ratio,
    errors, is_eligible, eligibility_reasons, calculate, adjust, capped_base,
    cap_applied, base_unadjusted, actual_net_profit, unbilled_revenue,
    requested_limit, revenue, net_profit_percentage, current_assets,
    current_liabilities, exposure_outstanding, years_of_operation,
    with_unbilled.
  simpl. rewrite Hn. reflexivity.
Qed.

Lemma unbilled_text_ignored_witness :
  credit_limit_calculator (with_unbilled timely_trading_form "nan")
  = credit_limit_calculator timely_trading_form.
Proof. apply (unbilled_text_ignored timely_trading_form "nan"). reflexivity. Defined.

Lemma with_requested_same (f : form) (s : string) (projects : Z) (cr : float) :
  triggered (with_requested f s) projects cr = triggered f projects cr
  /\ base_unadjusted (with_requested f s) = base_unadjusted f
  /\ cap_applied (with_requested f s) = cap_applied f
  /\ capped_base (with_requested f s) = capped_base f
  /\ number_of_projects (with_requested f s) = number_of_projects f
  /\ actual_current_ratio (with_requested f s) = actual_current_ratio f
  /\ is_eligible (with_requested f s) (Some cr) = is_eligible f (Some cr).
Proof. destruct f. repeat split. Qed.

(** The requested limit is validated and then used only for the coverage
    note: with any other requested amount above zero the base, the
    adjustments, the thresholds and the final limit are the same. *)
Theorem requested_limit_only_covers (f : form) (s : string) (r : result) :
  credit_limit_calculator f = Calculated r ->
  Py.le (clean_number (PyStr s) false) 0 = false ->
  exists r',
    credit_limit_calculator (with_requested f s) = Calculated r'
    /\ base_limit_unadjusted r' = base_limit_unadjusted r
    /\ base_limit_cap_applied r' = base_limit_cap_applied r
    /\ base_limit_after_cap r' = base_limit_after_cap r
    /\ adjustments r' = adjustments r
    /\ adjusted_limit r' = adjusted_limit r
    /\ final_limit r' = final_limit r
    /\ min_max_applied r' = min_max_applied r.
Proof.
  intros Hc Hs. apply CreditLimitFacts.calculated_inv in Hc.
  destruct Hc as (projects & cr & Hp & Hr & He & Hel & ->).
  destruct (with_requested_same f s projects cr)
    as (Ht & Hb & Hcap & Hcb & Hp' & Hr' & Hel').
  exists (calculate (with_requested f s) projects cr). split.
  - assert (He' : errors (with_requested f s) projects = []).
    { apply CreditLimitFacts.errors_nil_iff. intros rule.
      pose proof (proj1 (CreditLimitFacts.errors_nil_iff f projects) He rule)
        as Hrule.
      destruct rule; try exact Hrule. exact Hs. }
    unfold credit_limit_calculator.
    now rewrite Hp', Hr', Hp, Hr, He', Hel', Hel.
  - destruct (CreditLimitFacts.calculate_fields (with_requested f s) projects cr)
      as (-> & -> & -> & -> & -> & -> & ->).
    destruct (CreditLimitFacts.calculate_fields f projects cr)
      as (-> & -> & -> & -> & -> & -> & ->).
    rewrite Ht, Hb, Hcap, Hcb. repeat split.
Qed.

Lemma requested_limit_only_covers_witness :
  exists r r',
    credit_limit_calculator timely_trading_form = Calculated r
    /\ credit_limit_calculator (with_requested timely_trading_form "2,000,000")
       = Calculated r'
    /\ final_limit r' = final_limit r
    /\ requested r = Covers 106375
    /\ requested r' = Shortfall 1393625.
Proof.
  destruct (requested_limit_only_covers timely_trading_form "2,000,000"
              (calculate timely_trading_form 3 3) eq_refl eq_refl)
    as (r' & Hc & _ & _ & _ & _ & _ & Hfinal & _).
  exists (calculate timely_trading_form 3 3), r'.
  split; [reflexivity|]. split; [exact Hc|]. split; [exact Hfinal|].
  split; [reflexivity|].
  vm_compute in Hc. injection Hc as <-. reflexivity.
Defined.

End CreditLimitMore.

(** ** The staging area and the save, further *)

Module ProfitMore.

Import Profit.
Local Open Scope string_scope.
Local Open Scope list_scope.

(** A size of at least 0.01 is greater than zero. *)
Lemma size_bound_positive (size : float) :
  Py.ge size 0.01 = true -> Py.gt size 0 = true.
Proof.
  unfold Py.ge, Py.gt. intros H. apply FloatFacts.gt0_shape.
  rewrite leb_spec in H. unfold SFleb in H.
  destruct (Prim2SF size) as [s|[|]| |[|] m e]; simpl; trivial;
    vm_compute in H; discriminate H.
Qed.

Lemma remove_staged_keeps (l : list deal) (ids : list string) (d : deal) :
  In d (remove_staged l ids) <-> In d l /\ ~ In (temp_id d) ids.
Proof.
  unfold remove_staged. rewrite filter_In, negb_true_iff.
  split; intros [H1 H2]; split; trivial.
  - intros Hin. assert (E : existsb (String.eqb (temp_id d)) ids = true).
    { apply existsb_exists. exists (temp_id d). split; trivial.
      apply String.eqb_refl. }
    congruence.
  - destruct (existsb _ ids) eqn:E; trivial. exfalso. apply H2.
    apply existsb_exists in E. destruct E as (x & Hx & Ex).
    apply String.eqb_eq in Ex. now subst.
Qed.

Lemma remove_selected_unfold (l : list deal) (remove : list bool) :
  remove_selected l remove = remove_staged l (temp_ids_to_remove l remove).
Proof.
  unfold remove_selected. destruct (temp_ids_to_remove l remove); trivial.
  unfold remove_staged. simpl. induction l as [|d l IH]; simpl; congruence.
Qed.

Lemma staged_valid (l : list deal) :
  staged l -> Forall (fun d => valid_deal d = true) l.
Proof.
  induction 1 as [| l now client size rate fee n _ IH Hsize Hn | l remove _ IH].
  - constructor.
  - unfold add_to_unsaved.
    destruct (client =? "") eqn:Hc; simpl; [exact IH|].
    destruct (Py.le size 0); simpl; [exact IH|].
    apply Forall_app. split; [exact IH|]. constructor; [|constructor].
    unfold valid_deal. simpl. rewrite Hc, (size_bound_positive _ Hsize). simpl.
    apply Z.ltb_lt. lia.
  - rewrite remove_selected_unfold. rewrite Forall_forall in *.
    intros d Hd. apply remove_staged_keeps in Hd. now apply IH.
Qed.

Lemma filter_all {A} (f : A -> bool) (l : list A) :
  Forall (fun x => f x = true) l -> filter f l = l.
Proof.
  induction 1 as [|x l Hx _ IH]; simpl; [reflexivity|]. now rewrite Hx, IH.
Qed.

(** Every deal staged through the form passes the checks of the save: no
    staged deal is skipped, the rows sent are the staged deals in order,
    and the number in "Saved N deals" (the staged count) is the number of
    rows sent. *)
Theorem staged_deals_sent_whole (l : list deal) (uid : string) :
  staged l ->
  Forall (fun d => valid_deal d = true) l
  /\ map db_fields (prepare uid l) = l
  /\ List.length (prepare uid l) = List.length l.
Proof.
  intros H. pose proof (staged_valid l H) as V.
  assert (E : map db_fields (prepare uid l) = l).
  { unfold prepare. rewrite (filter_all _ _ V), map_map. simpl. apply map_id. }
  split; [exact V|]. split; [exact E|].
  rewrite <- E at 2. now rewrite length_map.
Qed.

Lemma staged_deals_sent_whole_witness :
  map db_fields (prepare "user-1" two_staged_deals) = two_staged_deals
  /\ List.length (prepare "user-1" two_staged_deals) = 2%nat.
Proof.
  assert (S : staged two_staged_deals).
  { unfold two_staged_deals.
    apply staged_add; [apply staged_add; [apply staged_nil | |] | |];
      solve [reflexivity | lia]. }
  destruct (staged_deals_sent_whole two_staged_deals "user-1" S) as (_ & E & L).
  split; [exact E | exact L].
Defined.

(** The store is asked about valid rows only, each carrying the user id
    of the session; the outcome of the save depends on the store through
    its reply to those rows alone; and when no staged deal is valid the
    save fails without any reply being looked at. *)
Theorem save_sends_valid_rows_only (uid : string) (session_token : option string)
    (l : list deal) :
  Forall (fun r => valid_deal (db_fields r) = true /\ db_user_id r = uid)
         (prepare uid l)
  /\ (forall insert1 insert2 : list db_deal -> reply,
        insert1 (prepare uid l) = insert2 (prepare uid l) ->
        save_deal_bundle_to_db insert1 (Some uid) session_token l
        = save_deal_bundle_to_db insert2 (Some uid) session_token l)
  /\ (forall insert : list db_deal -> reply,
        Forall (fun d => valid_deal d = false) l ->
        save_deal_bundle_to_db insert (Some uid) session_token l = false).
Proof.
  split; [|split].
  - unfold prepare. apply Forall_forall. intros r Hr.
    apply in_map_iff in Hr. destruct Hr as (d & <- & Hd).
    apply filter_In in Hd. simpl. tauto.
  - intros insert1 insert2 E. unfold save_deal_bundle_to_db.
    destruct l as [|d l]; trivial.
    destruct (uid =? ""); trivial.
    destruct (missing session_token); trivial.
    destruct (prepare uid (d :: l)) as [|p ps]; trivial.
    now rewrite E.
  - intros insert H. unfold save_deal_bundle_to_db.
    destruct l as [|d l]; trivial.
    destruct (uid =? ""); trivial.
    destruct (missing session_token); trivial.
    assert (P : prepare uid (d :: l) = []).
    { unfold prepare. replace (filter valid_deal (d :: l)) with (@nil deal);
        [reflexivity|].
      symmetry. induction H as [|x xs Hx _ IH]; simpl; [reflexivity|].
      now rewrite Hx. }
    now rewrite P.
Qed.

Lemma save_sends_valid_rows_only_witness :
  save_deal_bundle_to_db faithful_store (Some "user-1") (Some "token")
                         unusable_deals = false
  /\ save_deal_bundle_to_db faithful_store (Some "user-1") (Some "token")
                            two_staged_deals
     = save_deal_bundle_to_db (fun rows => Response None (firstn 2 rows))
                              (Some "user-1") (Some "token") two_staged_deals.
Proof.
  destruct (save_sends_valid_rows_only "user-1" (Some "token") unusable_deals)
    as (_ & _ & H).
  split.
  - apply H. repeat constructor.
  - destruct (save_sends_valid_rows_only "user-1" (Some "token") two_staged_deals)
      as (_ & H' & _).
    apply H'. reflexivity.
Defined.

Lemma same_temp_id_same_tick (l : list deal) (remove : list bool)
    (d d' : deal) (b b' : bool) :
  NoDup (map temp_id l) ->
  In (d, b) (combine l remove) -> In (d', b') (combine l remove) ->
  temp_id d = temp_id d' -> b = b'.
Proof.
  revert remove. induction l as [|a l IH]; intros [|m remove] N H H' E;
    simpl in *; try contradiction.
  inversion N as [|? ? Ha Hl]; subst.
  destruct H as [H | H], H' as [H' | H'].
  - congruence.
  - exfalso. apply Ha. injection H as -> _. rewrite E.
    apply in_map. exact (in_combine_l _ _ _ _ H').
  - exfalso. apply Ha. injection H' as -> _. rewrite <- E.
    apply in_map. exact (in_combine_l _ _ _ _ H).
  - exact (IH remove Hl H H' E).
Qed.

Lemma in_temp_ids (l : list deal) (remove : list bool) (x : string) :
  In x (temp_ids_to_remove l remove)
  <-> exists d, In (d, true) (combine l remove) /\ temp_id d = x.
Proof.
  unfold temp_ids_to_remove. rewrite in_map_iff. split.
  - intros ([d b] & E & H). apply filter_In in H. simpl in *.
    destruct H as [H ->]. now exists d.
  - intros (d & H & E). exists (d, true). split; trivial.
    apply filter_In. now split.
Qed.

Lemma filter_by_ticks (ids : list string) (l : list deal) (remove : list bool) :
  List.length remove = List.length l ->
  (forall d b, In (d, b) (combine l remove) ->
               existsb (String.eqb (temp_id d)) ids = b) ->
  remove_staged l ids = unticked l remove.
Proof.
  unfold remove_staged, unticked. revert remove.
  induction l as [|a l IH]; intros [|m remove] L H; simpl in *;
    try discriminate; trivial.
  rewrite (H a m (or_introl eq_refl)).
  rewrite (IH remove) by (try lia; intros; apply H; now right).
  now destruct m.
Qed.

Lemma ticks_partition (l : list deal) (remove : list bool) :
  List.length remove = List.length l ->
  (List.length (unticked l remove)
   + List.length (temp_ids_to_remove l remove) = List.length l)%nat.
Proof.
  unfold unticked, temp_ids_to_remove. rewrite !length_map. revert remove.
  induction l as [|a l IH]; intros [|m remove] L; simpl in *;
    try discriminate; trivial.
  specialize (IH remove ltac:(lia)). destruct m; simpl; lia.
Qed.

(** "Remove Selected Staged Deals" removes by temp id: a staged deal stays
    exactly when its temp id is not the temp id of a ticked row.  When the
    temp ids of the staged deals are distinct, the deals left are the
    unticked rows in order, and the number in "Removed N deals" is the
    number of deals that left. *)
Theorem ticked_deals_leave_staging (l : list deal) (remove : list bool) :
  List.length remove = List.length l ->
  (forall d, In d (remove_selected l remove)
             <-> In d l /\ ~ In (temp_id d) (temp_ids_to_remove l remove))
  /\ (NoDup (map temp_id l) ->
      remove_selected l remove = unticked l remove
      /\ (List.length (remove_selected l remove)
          + List.length (temp_ids_to_remove l remove) = List.length l)%nat).
Proof.
  intros L. rewrite remove_selected_unfold. split.
  - intros d. apply remove_staged_keeps.
  - intros N.
    assert (E : remove_staged l (temp_ids_to_remove l remove)
                = unticked l remove).
    { apply filter_by_ticks; trivial. intros d b H.
      destruct (existsb _ _) eqn:X.
      - apply existsb_exists in X. destruct X as (x & Hx & Ex).
        apply String.eqb_eq in Ex. apply in_temp_ids in Hx.
        destruct Hx as (d' & Hd' & E'). symmetry.
        apply (same_temp_id_same_tick l remove d d' b true N H Hd').
        congruence.
      - destruct b; trivial. rewrite <- X.
        apply existsb_exists. exists (temp_id d). split.
        + apply in_temp_ids. now exists d.
        + apply String.eqb_refl. }
    split; [exact E|]. rewrite E. now apply ticks_partition.
Qed.

Lemma ticked_deals_leave_staging_witness :
  remove_selected two_staged_deals [true; false] = tl two_staged_deals
  /\ (List.length (remove_selected two_staged_deals [true; false])
      + 1 = 2)%nat.
Proof.
  destruct (ticked_deals_leave_staging two_staged_deals [true; false] eq_refl)
    as [_ H].
  destruct H as [E C].
  - repeat constructor; simpl; intuition discriminate.
  - split; [rewrite E; reflexivity | exact C].
Defined.

End ProfitMore.

(** ** The Murabahah schedule, further *)

Module MurabahahMore.

Import Murabahah.
Local Open Scope list_scope.

(** [max(0, x)] is a number that is not negative, whatever [x] is. *)
Lemma max0_ge0 (x : float) : Py.ge (Py.max 0 x) 0 = true.
Proof.
  unfold Py.ge, Py.max, Py.gt. destruct (0 <? x) eqn:E; [|reflexivity].
  apply FloatFacts.gt0_shape in E. rewrite leb_spec, FloatFacts.zero_sf.
  unfold SFleb. destruct (Prim2SF x) as [s|[|]| |[|] m e]; simpl in *;
    trivial; contradiction.
Qed.

(** In every row the displayed Remaining Principal is a number that is
    not negative, and so is the Principal of every month before the last:
    both come out of [max(0, ...)].  The last month's Principal is the
    loop's remaining principal and has no such floor. *)
Theorem displayed_principal_never_negative
    (deal_size profit_rate admin_fee_perc : float) (financing_period : Z) :
  Py.gt deal_size 0 = true ->
  period_in_range financing_period ->
  let s := murabahah_calculator deal_size profit_rate financing_period
                                admin_fee_perc in
  forall i r, nth_error (schedule s) i = Some r ->
    Py.ge (Remaining_Principal r) 0 = true
    /\ (Z.of_nat (S i) <> financing_period -> Py.ge (Principal r) 0 = true).
Proof.
  intros Hd Hn s. subst s.
  rewrite (MurabahahFacts.calculator_runs _ _ _ _ Hd Hn). cbn [schedule].
  match goal with
  | |- context [rounds ?n ?r ?f ?a ?b ?d ?k] =>
      destruct (MurabahahFacts.rounds_invariant n r f a b d k) as (_ & _ & Hrows)
  end.
  intros i r Hi. destruct (Hrows i r Hi) as (_ & _ & _ & _ & Hp & Hr).
  split.
  - rewrite Hr. apply max0_ge0.
  - intros Hlast. apply Z.eqb_neq in Hlast. rewrite Hlast in Hp.
    rewrite Hp. apply max0_ge0.
Qed.

(** At 5% a month over 12 months the floor is at work: the principal is
    repaid within eleven months, the displayed Remaining Principal of
    month 11 is 0, and the last month's Principal is negative. *)
Lemma displayed_principal_never_negative_witness :
  let s := murabahah_calculator 100000 5 12 1.5 in
  (exists r, nth_error (schedule s) 10 = Some r
             /\ Py.ge (Remaining_Principal r) 0 = true
             /\ Py.ge (Principal r) 0 = true
             /\ Remaining_Principal r = 0)
  /\ (exists r, nth_error (schedule s) 11 = Some r
                /\ Py.ge (Remaining_Principal r) 0 = true
                /\ Py.lt (Principal r) 0 = true).
Proof.
  assert (Hd : Py.gt 100000 0 = true) by reflexivity.
  assert (Hn : period_in_range 12) by (unfold period_in_range; lia).
  pose proof (displayed_principal_never_negative 100000 5 1.5 12 Hd Hn) as H.
  cbv zeta in H. cbv zeta. split.
  - destruct (nth_error (schedule (murabahah_calculator 100000 5 12 1.5)) 10)
      as [r|] eqn:E; [|vm_compute in E; discriminate E].
    exists r. destruct (H 10%nat r E) as [Hr Hp].
    split; [reflexivity|]. split; [exact Hr|]. split; [apply Hp; lia|].
    vm_compute in E. injection E as <-. reflexivity.
  - destruct (nth_error (schedule (murabahah_calculator 100000 5 12 1.5)) 11)
      as [r|] eqn:E; [|vm_compute in E; discriminate E].
    exists r. destruct (H 11%nat r E) as [Hr _].
    split; [reflexivity|]. split; [exact Hr|].
    vm_compute in E. injection E as <-. reflexivity.
Defined.

(** The "Total Profit" metric shows the variable [total_profit], which is
    0 whatever the inputs; no exception is caught; and the schedule is
    empty (the page asks for a positive size and period) exactly when the
    size is not greater than zero or the period is below one month, in
    which case every metric is 0. *)
Theorem murabahah_metrics_without_plan
    (deal_size profit_rate admin_fee_perc : float) (financing_period : Z) :
  (financing_period <= 12)%Z ->
  let s := murabahah_calculator deal_size profit_rate financing_period
                                admin_fee_perc in
  total_profit s = 0
  /\ caught s = None
  /\ (schedule s = [] <->
      Py.gt deal_size 0 = false \/ (financing_period <= 0)%Z)
  /\ (schedule s = [] -> s = untouched).
Proof.
  intros Hmax s.
  destruct (Py.gt deal_size 0) eqn:Hd.
  - destruct (Z.ltb_spec 0 financing_period) as [Hpos | Hneg].
    + assert (Hn : period_in_range financing_period)
        by (unfold period_in_range; lia).
      subst s. rewrite (MurabahahFacts.calculator_runs _ _ _ _ Hd Hn). simpl.
      match goal with
      | |- context [rounds ?n ?r ?f ?a ?b ?d ?k] =>
          destruct (MurabahahFacts.rounds_invariant n r f a b d k) as (Hlen & _);
          destruct (fst (rounds n r f a b d k)) as [|x rows]
      end.
      * simpl in Hlen. lia.
      * repeat split; try discriminate. intros [H | H]; [discriminate | lia].
    + assert (E : s = untouched).
      { subst s. unfold murabahah_calculator. rewrite Hd.
        destruct (Z.ltb_spec 0 financing_period); [lia | reflexivity]. }
      rewrite E. repeat split; auto.
  - assert (E : s = untouched).
    { subst s. unfold murabahah_calculator. now rewrite Hd. }
    rewrite E. repeat split; auto.
Qed.

Lemma murabahah_metrics_without_plan_witness :
  total_profit (murabahah_calculator 100000 2.5 3 1.5) = 0
  /\ total_profit_amount (murabahah_calculator 100000 2.5 3 1.5) = 7500
  /\ murabahah_calculator nan 2.5 3 1.5 = untouched
  /\ murabahah_calculator 100000 2.5 0 1.5 = untouched.
Proof.
  destruct (murabahah_metrics_without_plan 100000 2.5 1.5 3 ltac:(lia))
    as (T & _).
  destruct (murabahah_metrics_without_plan nan 2.5 1.5 3 ltac:(lia))
    as (_ & _ & E1 & U1).
  destruct (murabahah_metrics_without_plan 100000 2.5 1.5 0 ltac:(lia))
    as (_ & _ & E2 & U2).
  split; [exact T|]. split; [reflexivity|].
  split; [apply U1, E1; left; reflexivity | apply U2, E2; right; lia].
Defined.

End MurabahahMore.

(** ** Formatted amounts *)

Module FormatFacts.

Import Format.
Local Open Scope string_scope.

(** *** The characters of a formatted number *)

Lemma digit_char_spec (d : Z) :
  (0 <= d < 10)%Z ->
  Text.is_digit (digit_char d) = true /\ Text.digit_val (digit_char d) = d.
Proof.
  intros H.
  assert (C : (d = 0 \/ d = 1 \/ d = 2 \/ d = 3 \/ d = 4 \/ d = 5 \/ d = 6
               \/ d = 7 \/ d = 8 \/ d = 9)%Z) by lia.
  repeat (destruct C as [-> | C]; [split; reflexivity|]). subst.
  split; reflexivity.
Qed.

Lemma mod10_digit (n : Z) :
  Text.is_digit (digit_char (n mod 10)) = true
  /\ Text.digit_val (digit_char (n mod 10)) = (n mod 10)%Z.
Proof. apply digit_char_spec. apply Z.mod_pos_bound. lia. Qed.

Lemma all_chars_weaken (p q : ascii -> bool) (s : string) :
  (forall a, p a = true -> q a = true) ->
  Text.all_chars p s = true -> Text.all_chars q s = true.
Proof.
  intros H. induction s as [|a s IH]; simpl; trivial.
  intros E. apply andb_true_iff in E. destruct E as [Ea Es].
  now rewrite (H a Ea), IH.
Qed.

Lemma digits_from_digits (fuel : nat) (n : Z) (acc : string) :
  Text.all_chars Text.is_digit acc = true ->
  Text.all_chars Text.is_digit (digits_from fuel n acc) = true.
Proof.
  revert n acc. induction fuel as [|fuel IH]; intros n acc H; simpl; trivial.
  assert (H' : Text.all_chars Text.is_digit
                 (String (digit_char (n mod 10)) acc) = true).
  { cbn [Text.all_chars]. now rewrite (proj1 (mod10_digit n)), H. }
  destruct (n <? 10)%Z; [exact H' | now apply IH].
Qed.

Lemma digits_digits (n : Z) : Text.all_chars Text.is_digit (digits n) = true.
Proof. unfold digits. now apply digits_from_digits. Qed.

Lemma fraction_digits (k : nat) (n : Z) :
  Text.all_chars Text.is_digit (fraction k n) = true.
Proof.
  revert n. induction k as [|k IH]; intros n; simpl; trivial.
  rewrite CleanNumberMore.all_chars_app, IH. cbn [Text.all_chars andb].
  now rewrite (proj1 (mod10_digit n)).
Qed.

Lemma digit_output (a : ascii) : Text.is_digit a = true -> output_char a = true.
Proof. intros H. unfold output_char. now rewrite H. Qed.

Lemma group_output (s : string) :
  Text.all_chars Text.is_digit s = true ->
  Text.all_chars output_char (group s) = true.
Proof.
  induction s as [|a s IH]; simpl; trivial.
  intros E. apply andb_true_iff in E. destruct E as [Ea Es].
  destruct (_ && _)%bool; cbn [Text.all_chars];
    rewrite (digit_output a Ea), (IH Es); reflexivity.
Qed.

Lemma signed_output (s : bool) (t : string) :
  Text.all_chars output_char t = true ->
  Text.all_chars output_char (signed s t) = true.
Proof. intros H. destruct s; simpl; trivial. Qed.

Lemma fixed0_output (x : float) :
  Text.all_chars output_char (fixed 0 true x) = true.
Proof.
  unfold fixed, unsigned.
  destruct (Prim2SF x) as [s|s| |s m e];
    [destruct s; reflexivity | destruct s; reflexivity | reflexivity |].
  apply signed_output. rewrite CleanNumberMore.all_chars_app.
  rewrite group_output by apply digits_digits. reflexivity.
Qed.

(** A text made of such characters does not contain, and does not end
    with, a text that starts with another character. *)
Lemma no_foreign_text (s : string) (c : ascii) (t : string) :
  Text.all_chars output_char s = true -> output_char c = false ->
  contains s (String c t) = false /\ endswith s (String c t) = false.
Proof.
  intros Hs Hc. induction s as [|a s IH]; [split; reflexivity|].
  cbn [Text.all_chars] in Hs. apply andb_true_iff in Hs.
  destruct Hs as [Ha Hs]. destruct (IH Hs) as [IH1 IH2].
  assert (N : Ascii.eqb a c = false).
  { destruct (Ascii.eqb a c) eqn:E; trivial.
    apply Ascii.eqb_eq in E. congruence. }
  split.
  - cbn [contains]. rewrite IH1, orb_false_r. simpl.
    destruct (ascii_dec c a) as [->|]; trivial.
    rewrite Ascii.eqb_refl in N. discriminate.
  - cbn [endswith]. rewrite IH2, orb_false_r. simpl. now rewrite N.
Qed.

Lemma currency_default (x : float) :
  format_currency (PyFloat x) "SAR" = inr (fixed 0 true x ++ " SAR").
Proof.
  pose proof (fixed0_output x) as H.
  unfold format_currency. cbn [as_float].
  destruct (no_foreign_text _ "S"%char "AR" H eq_refl) as [C1 E1].
  destruct (no_foreign_text _ "$"%char "" H eq_refl) as [C2 _].
  destruct (no_foreign_text _ "226"%char
              (String "130"%char (String "172"%char "")) H eq_refl) as [C3 _].
  destruct (no_foreign_text _ "194"%char (String "163"%char "") H eq_refl)
    as [C4 _].
  unfold symbols. cbn [existsb]. rewrite E1, C1, C2, C3, C4. reflexivity.
Qed.

(** The guards of line 38 never hold back the currency: a formatted
    number is made of digits, commas, a minus sign or the letters of "nan"
    and "inf", so that it neither ends with "SAR" nor contains a currency
    symbol.  With the default currency the result is the formatted number
    followed by " SAR", and with the empty currency it is the formatted
    number alone; a number is never shown as "N/A". *)
Theorem currency_suffix_always_added (x : float) :
  format_currency (PyFloat x) "SAR" = inr (fixed 0 true x ++ " SAR")
  /\ format_currency (PyFloat x) "" = inr (fixed 0 true x)
  /\ Text.all_chars output_char (fixed 0 true x) = true.
Proof.
  split; [apply currency_default|].
  split; [reflexivity | apply fixed0_output].
Qed.

(** *** Reading a formatted number back *)

Lemma decimal_value_app (d t : string) (a : Z) :
  decimal_value (d ++ t) a = decimal_value t (decimal_value d a).
Proof.
  revert a. induction d as [|c d IH]; intros a; [reflexivity|].
  cbn [append decimal_value]. apply IH.
Qed.

Lemma length_app_one (d : string) (c : ascii) :
  String.length (d ++ String c "") = S (String.length d).
Proof. induction d as [|x d IH]; simpl; [reflexivity | now rewrite IH]. Qed.

Lemma app_empty (d : string) : d ++ "" = d.
Proof. induction d as [|x d IH]; simpl; [reflexivity | now rewrite IH]. Qed.

Lemma digits_from_eq (fuel : nat) (n : Z) (acc : string) :
  digits_from (S fuel) n acc =
  if (n <? 10)%Z then String (digit_char (n mod 10)) acc
  else digits_from fuel (n / 10) (String (digit_char (n mod 10)) acc).
Proof. reflexivity. Qed.

Lemma one_digit_value (n a : Z) :
  decimal_value (String (digit_char (n mod 10)) "") a = (10 * a + n mod 10)%Z.
Proof. cbn [decimal_value]. now rewrite (proj2 (mod10_digit n)). Qed.

(** With enough fuel, [digits_from] puts in front of [acc] a non-empty
    run of digits that spells [n]. *)
Lemma digits_from_value (fuel : nat) :
  forall (n : Z) (acc : string),
    (0 <= n < 10 ^ Z.of_nat (S fuel))%Z ->
    exists d, digits_from (S fuel) n acc = d ++ acc
      /\ Text.all_chars Text.is_digit d = true
      /\ d <> ""
      /\ forall a, decimal_value d a
                   = (a * 10 ^ Z.of_nat (String.length d) + n)%Z.
Proof.
  assert (One : forall n acc, (0 <= n < 10)%Z ->
            exists d, String (digit_char (n mod 10)) acc = d ++ acc
              /\ Text.all_chars Text.is_digit d = true
              /\ d <> ""
              /\ forall a, decimal_value d a
                           = (a * 10 ^ Z.of_nat (String.length d) + n)%Z).
  { intros n acc H. exists (String (digit_char (n mod 10)) "").
    split; [reflexivity|]. split.
    - cbn [Text.all_chars]. now rewrite (proj1 (mod10_digit n)).
    - split; [discriminate|]. intros a. rewrite one_digit_value.
      cbn [String.length]. change (10 ^ Z.of_nat 1)%Z with 10%Z.
      rewrite Z.mod_small by lia. lia. }
  induction fuel as [|fuel IH]; intros n acc H; rewrite digits_from_eq.
  - change (10 ^ Z.of_nat 1)%Z with 10%Z in H.
    destruct (n <? 10)%Z; now apply One.
  - destruct (Z.ltb_spec n 10) as [Hlt | Hge]; [apply One; lia|].
    assert (Hq : (0 <= n / 10 < 10 ^ Z.of_nat (S fuel))%Z).
    { rewrite (Nat2Z.inj_succ (S fuel)), Z.pow_succ_r in H by lia.
      split; [apply Z.div_pos; lia|].
      apply Z.div_lt_upper_bound; lia. }
    destruct (IH (n / 10)%Z (String (digit_char (n mod 10)) acc) Hq)
      as (d & Hd & Hall & Hne & Hval).
    exists (d ++ String (digit_char (n mod 10)) ""). rewrite Hd.
    split; [now rewrite CleanNumberMore.string_app_assoc|]. split.
    + rewrite CleanNumberMore.all_chars_app, Hall. cbn [Text.all_chars andb].
      now rewrite (proj1 (mod10_digit n)).
    + split; [destruct d; discriminate|]. intros a.
      rewrite decimal_value_app, one_digit_value, Hval, length_app_one.
      rewrite Nat2Z.inj_succ, Z.pow_succ_r by lia.
      pose proof (Z.div_mod n 10 ltac:(lia)). lia.
Qed.

Lemma digits_value (n : Z) :
  (0 <= n)%Z ->
  Text.all_chars Text.is_digit (digits n) = true
  /\ digits n <> ""
  /\ forall a, decimal_value (digits n) a
               = (a * 10 ^ Z.of_nat (String.length (digits n)) + n)%Z.
Proof.
  intros H. unfold digits.
  assert (B : (n < 10 ^ Z.of_nat (S (Z.to_nat (Z.log2 n))))%Z).
  { rewrite Nat2Z.inj_succ, Z2Nat.id by apply Z.log2_nonneg.
    destruct (Z.eq_dec n 0) as [-> | Hn]; [reflexivity|].
    destruct (Z.log2_spec n ltac:(lia)) as [_ Hu].
    pose proof (Z.pow_le_mono_l 2 10 (Z.succ (Z.log2 n)) ltac:(lia)). lia. }
  destruct (digits_from_value (Z.to_nat (Z.log2 n)) n "" (conj H B))
    as (d & -> & Hall & Hne & Hval).
  rewrite app_empty. auto.
Qed.

Lemma fraction_value (k : nat) :
  forall (n a : Z),
    (0 <= n)%Z ->
    String.length (fraction k n) = k
    /\ decimal_value (fraction k n) a
       = (a * 10 ^ Z.of_nat k + n mod 10 ^ Z.of_nat k)%Z.
Proof.
  induction k as [|k IH]; intros n a H.
  - split; [reflexivity|]. cbn [fraction decimal_value].
    change (10 ^ Z.of_nat 0)%Z with 1%Z. rewrite Z.mod_1_r. lia.
  - cbn [fraction].
    destruct (IH (n / 10)%Z a ltac:(apply Z.div_pos; lia)) as [Hlen Hval].
    split; [now rewrite length_app_one, Hlen|].
    rewrite decimal_value_app, one_digit_value, Hval.
    rewrite Nat2Z.inj_succ, Z.pow_succ_r by lia.
    assert (P : (0 < 10 ^ Z.of_nat k)%Z) by (apply Z.pow_pos_nonneg; lia).
    rewrite (Z.rem_mul_r n 10 (10 ^ Z.of_nat k)) by lia. lia.
Qed.

(** [digits_tail] reads a run of digits to its end: the end of the text
    or a point. *)
Lemma digits_tail_value (d : string) :
  forall (acc cnt : Z) (rest : string),
    Text.all_chars Text.is_digit d = true ->
    rest = "" \/ (exists r, rest = String "." r) ->
    Text.digits_tail (d ++ rest) acc cnt
    = (decimal_value d acc, (cnt + Z.of_nat (String.length d))%Z, rest).
Proof.
  induction d as [|c d IH]; intros acc cnt rest Hall Hrest.
  - cbn [append decimal_value String.length]. rewrite Z.add_0_r.
    destruct Hrest as [-> | (r & ->)]; reflexivity.
  - cbn [Text.all_chars] in Hall. apply andb_true_iff in Hall.
    destruct Hall as [Hc Hd]. cbn [append].
    rewrite CleanNumberMore.digits_tail_eq, Hc, (IH _ _ _ Hd Hrest).
    cbn [decimal_value String.length]. rewrite Nat2Z.inj_succ.
    f_equal. f_equal. lia.
Qed.

Lemma digitpart_value (d rest : string) (acc : Z) :
  Text.all_chars Text.is_digit d = true -> d <> "" ->
  rest = "" \/ (exists r, rest = String "." r) ->
  Text.digitpart (d ++ rest) acc
  = Some (decimal_value d acc, Z.of_nat (String.length d), rest).
Proof.
  intros Hall Hne Hrest. destruct d as [|c d]; [contradiction|].
  cbn [Text.all_chars] in Hall. apply andb_true_iff in Hall.
  destruct Hall as [Hc Hd]. cbn [append]. unfold Text.digitpart.
  rewrite Hc, (digits_tail_value d _ _ _ Hd Hrest).
  cbn [decimal_value String.length]. rewrite Nat2Z.inj_succ.
  f_equal. f_equal. f_equal. lia.
Qed.

Lemma number_whole (w : string) :
  Text.all_chars Text.is_digit w = true -> w <> "" ->
  Text.number w = Some (decimal_value w 0, 0%Z, "").
Proof.
  intros Hall Hne. unfold Text.number.
  pose proof (digitpart_value w "" 0 Hall Hne (or_introl eq_refl)) as D.
  rewrite app_empty in D. rewrite D. reflexivity.
Qed.

Lemma number_point (w f : string) :
  Text.all_chars Text.is_digit w = true -> w <> "" ->
  Text.all_chars Text.is_digit f = true -> f <> "" ->
  Text.number (w ++ String "." f)
  = Some (decimal_value f (decimal_value w 0),
          Z.of_nat (String.length f), "").
Proof.
  intros Hw Nw Hf Nf. unfold Text.number.
  rewrite (digitpart_value w (String "." f) 0 Hw Nw
             (or_intror (ex_intro _ f eq_refl))).
  cbv beta iota.
  pose proof (digitpart_value f "" (decimal_value w 0) Hf Nf
                (or_introl eq_refl)) as D.
  rewrite app_empty in D. rewrite D. reflexivity.
Qed.

(** The ungrouped digits read as the number they were printed from, with
    [k] of them after the point. *)
Lemma unsigned_number (k : nat) (n : Z) :
  (0 <= n)%Z ->
  Text.number (unsigned k false n) = Some (n, Z.of_nat k, "").
Proof.
  intros H. unfold unsigned.
  assert (P : (0 < 10 ^ Z.of_nat k)%Z) by (apply Z.pow_pos_nonneg; lia).
  assert (Hi : (0 <= n / 10 ^ Z.of_nat k)%Z) by (apply Z.div_pos; lia).
  destruct (digits_value _ Hi) as (Hall & Hne & Hval).
  destruct k as [|k].
  - rewrite app_empty, (number_whole _ Hall Hne), Hval.
    change (10 ^ Z.of_nat 0)%Z with 1%Z. rewrite Z.div_1_r. f_equal.
  - set (K := S k) in *.
    assert (Hm : (0 <= n mod 10 ^ Z.of_nat K)%Z)
      by (apply Z.mod_pos_bound; lia).
    destruct (fraction_value K (n mod 10 ^ Z.of_nat K)
                (decimal_value (digits (n / 10 ^ Z.of_nat K)) 0) Hm)
      as [Hlen Hfv].
    rewrite number_point; trivial.
    + rewrite Hfv, Hlen, Hval, Z.mod_mod by lia.
      pose proof (Z.div_mod n (10 ^ Z.of_nat K) ltac:(lia)).
      f_equal. f_equal. f_equal. lia.
    + apply fraction_digits.
    + intros E. rewrite E in Hlen. discriminate.
Qed.

Lemma digit_facts (a : ascii) :
  Text.is_digit a = true ->
  Ascii.eqb a "," = false /\ Text.is_space a = false
  /\ (forall r, Text.sign (String a r) = (false, String a r))
  /\ Ascii.eqb (Text.lower a) "i" = false
  /\ Ascii.eqb (Text.lower a) "n" = false.
Proof.
  intros H.
  destruct a as [[|] [|] [|] [|] [|] [|] [|] [|]];
    try (vm_compute in H; discriminate H); repeat split.
Qed.

Lemma output_facts (a : ascii) :
  output_char a = true ->
  Ascii.eqb a "%" = false /\ Text.is_space a = false.
Proof.
  intros H.
  destruct a as [[|] [|] [|] [|] [|] [|] [|] [|]];
    try (vm_compute in H; discriminate H); split; reflexivity.
Qed.

Lemma remove_absent (p : ascii -> bool) (c : ascii) (s : string) :
  (forall a, p a = true -> Ascii.eqb a c = false) ->
  Text.all_chars p s = true -> Text.remove_char c s = s.
Proof.
  intros Hp. induction s as [|a s IH]; cbn [Text.all_chars Text.remove_char];
    [reflexivity|].
  intros E. apply andb_true_iff in E. destruct E as [Ea Es].
  now rewrite (Hp a Ea), (IH Es).
Qed.

Lemma strip_plain (p : ascii -> bool) (s : string) :
  (forall a, p a = true -> Text.is_space a = false) ->
  Text.all_chars p s = true -> Text.strip s = s.
Proof.
  intros Hp Hs. unfold Text.strip.
  assert (L : Text.lstrip s = s).
  { destruct s as [|a s]; [reflexivity|]. cbn [Text.all_chars] in Hs.
    apply andb_true_iff in Hs. cbn [Text.lstrip].
    now rewrite (Hp a (proj1 Hs)). }
  rewrite L. induction s as [|a s IH]; [reflexivity|].
  cbn [Text.all_chars] in Hs. apply andb_true_iff in Hs.
  destruct Hs as [Ea Es]. cbn [Text.rstrip].
  assert (L' : Text.lstrip s = s).
  { destruct s as [|b s]; [reflexivity|]. cbn [Text.all_chars] in Es.
    apply andb_true_iff in Es. cbn [Text.lstrip].
    now rewrite (Hp b (proj1 Es)). }
  rewrite (IH Es L'). destruct s; [now rewrite (Hp a Ea) | reflexivity].
Qed.

Lemma remove_comma_group (s : string) :
  Text.all_chars Text.is_digit s = true ->
  Text.remove_char "," (group s) = s.
Proof.
  induction s as [|a s IH]; [reflexivity|]. cbn [Text.all_chars group].
  intros E. apply andb_true_iff in E. destruct E as [Ea Es].
  destruct (digit_facts a Ea) as (Ca & _).
  destruct (_ && _)%bool; cbn [Text.remove_char]; rewrite Ca;
    [change (Ascii.eqb "," ",") with true; cbv iota|]; now rewrite (IH Es).
Qed.

Lemma fraction_output (k : nat) (n : Z) :
  Text.all_chars output_char
    match k with
    | O => ""
    | S _ => String "." (fraction k (n mod 10 ^ Z.of_nat k))
    end = true.
Proof.
  destruct k; [reflexivity|]. cbn [Text.all_chars].
  change (output_char ".") with true. cbn [andb].
  apply (all_chars_weaken Text.is_digit); [exact digit_output|].
  apply fraction_digits.
Qed.

Lemma unsigned_output (k : nat) (n : Z) :
  Text.all_chars output_char (unsigned k false n) = true.
Proof.
  unfold unsigned.
  rewrite CleanNumberMore.all_chars_app, fraction_output, andb_true_r.
  apply (all_chars_weaken Text.is_digit); [exact digit_output|].
  apply digits_digits.
Qed.

Lemma unsigned_head (k : nat) (n : Z) :
  (0 <= n)%Z ->
  exists c r, unsigned k false n = String c r /\ Text.is_digit c = true.
Proof.
  intros H. unfold unsigned.
  assert (P : (0 < 10 ^ Z.of_nat k)%Z) by (apply Z.pow_pos_nonneg; lia).
  destruct (digits_value (n / 10 ^ Z.of_nat k) ltac:(apply Z.div_pos; lia))
    as (Hall & Hne & _).
  destruct (digits (n / 10 ^ Z.of_nat k)) as [|c w]; [contradiction|].
  cbn [Text.all_chars] in Hall. apply andb_true_iff in Hall.
  cbn [append]. eexists _, _. split; [reflexivity | apply Hall].
Qed.

(** Commas, a percent sign at the end and nothing else are taken off a
    printed number before it is read. *)
Lemma cleaned_printed (k : nat) (grouped s percent : bool) (n : Z) :
  cleaned_text (signed s (unsigned k grouped n)
                ++ (if percent then "%" else ""))
  = signed s (unsigned k false n).
Proof.
  assert (A : Text.remove_char "," (unsigned k grouped n)
              = unsigned k false n).
  { unfold unsigned. rewrite CleanNumberMore.remove_char_app.
    f_equal.
    - destruct grouped; [apply remove_comma_group, digits_digits|].
      apply (remove_absent Text.is_digit); [|apply digits_digits].
      intros a Ha. apply (digit_facts a Ha).
    - destruct k; [reflexivity|]. cbn [Text.remove_char].
      change (Ascii.eqb "." ",") with false. cbv iota. f_equal.
      apply (remove_absent Text.is_digit); [|apply fraction_digits].
      intros a Ha. apply (digit_facts a Ha). }
  assert (O : Text.all_chars output_char (signed s (unsigned k false n)) = true)
    by apply signed_output, unsigned_output.
  unfold cleaned_text. rewrite !CleanNumberMore.remove_char_app.
  assert (B : Text.remove_char "," (signed s (unsigned k grouped n))
              = signed s (unsigned k false n)).
  { destruct s; cbn [signed Text.remove_char]; [|exact A].
    change (Ascii.eqb "-" ",") with false. cbv iota. now rewrite A. }
  rewrite B.
  rewrite (remove_absent output_char "%" _
             (fun a Ha => proj1 (output_facts a Ha)) O).
  assert (E : Text.remove_char "%"
                (Text.remove_char "," (if percent then "%" else "")) = "")
    by (destruct percent; reflexivity).
  rewrite E, app_empty.
  apply (strip_plain output_char); [|exact O].
  intros a Ha. apply (output_facts a Ha).
Qed.

Lemma printed_reads (k : nat) (s : bool) (n : Z) :
  (0 <= n)%Z ->
  signed s (unsigned k false n) <> ""
  /\ float_of_string (signed s (unsigned k false n))
     = Some (Decimal.of_decimal s n (- Z.of_nat k)).
Proof.
  intros H. destruct (unsigned_head k n H) as (c & r & U & Hc).
  destruct (digit_facts c Hc) as (_ & _ & Hsign & Hi & Hn).
  split; [rewrite U; destruct s; discriminate|].
  unfold float_of_string.
  rewrite (strip_plain output_char);
    [| intros a Ha; apply (output_facts a Ha)
     | apply signed_output, unsigned_output ].
  assert (S : Text.sign (signed s (unsigned k false n))
              = (s, unsigned k false n)).
  { destruct s; cbn [signed]; [reflexivity|]. rewrite U. apply Hsign. }
  rewrite S.
  assert (W : forall x w,
            (x = "i" \/ x = "n")%char ->
            (Text.lower_string (unsigned k false n) =? String x w) = false).
  { intros x w Hx. rewrite U. cbn [Text.lower_string String.eqb].
    destruct Hx as [-> | ->]; [now rewrite Hi | now rewrite Hn]. }
  rewrite !W by auto. cbn [orb].
  rewrite (unsigned_number k n H). cbn [Text.exponent].
  now rewrite Z.sub_0_l.
Qed.

(** Any text followed by " SAR" reads as 0.0. *)
Lemma with_currency_unreadable (t : string) (flag : bool) :
  clean_number (PyStr (t ++ " SAR")) flag = 0.
Proof.
  unfold clean_number. fold (cleaned_text (t ++ " SAR")).
  destruct (cleaned_text (t ++ " SAR") =? ""); [reflexivity|].
  destruct (float_of_string (cleaned_text (t ++ " SAR"))) as [v|] eqn:F;
    [|reflexivity].
  exfalso. apply CleanNumberMore.float_of_string_reads in F.
  unfold cleaned_text in F. rewrite CleanNumberMore.strip_idempotent in F.
  rewrite !CleanNumberMore.remove_char_app in F.
  change (Text.remove_char "%" (Text.remove_char "," " SAR")) with " SAR" in F.
  set (u := Text.remove_char "%" (Text.remove_char "," t)) in F.
  assert (L : exists x, Text.lstrip (u ++ " SAR") = x ++ "SAR").
  { clearbody u. clear F. induction u as [|a u IH]; [now exists ""|].
    cbn [append Text.lstrip]. destruct (Text.is_space a); [exact IH|].
    exists (String a (u ++ " ")). cbn [append].
    now rewrite CleanNumberMore.string_app_assoc. }
  destruct L as (x & L).
  assert (R : forall v c, Text.is_space c = false ->
                Text.rstrip (v ++ String c "") = v ++ String c "").
  { intros w c Hc. induction w as [|a w IH]; cbn [append Text.rstrip].
    - now rewrite Hc.
    - rewrite IH. destruct w; reflexivity. }
  unfold Text.strip in F. rewrite L in F.
  change (x ++ "SAR") with (x ++ ("SA" ++ "R")) in F.
  rewrite <- CleanNumberMore.string_app_assoc, R in F by reflexivity.
  rewrite !CleanNumberMore.all_chars_app in F.
  change (Text.all_chars Text.numeric_char "R") with false in F.
  rewrite andb_false_r in F. discriminate.
Qed.

Lemma round_half_even_nonneg (p q : Z) :
  (0 <= p)%Z -> (0 < q)%Z -> (0 <= round_half_even p q)%Z.
Proof.
  intros Hp Hq. unfold round_half_even.
  assert (0 <= p / q)%Z by (apply Z.div_pos; lia).
  destruct (_ ?= _)%Z; [destruct (Z.even _)| |]; lia.
Qed.

Lemma scaled_digits_nonneg (k : nat) (m : positive) (e : Z) :
  (0 <= scaled_digits k m e)%Z.
Proof.
  unfold scaled_digits.
  assert (0 < 10 ^ Z.of_nat k)%Z by (apply Z.pow_pos_nonneg; lia).
  destruct (Z.leb_spec 0 e).
  - assert (0 < 2 ^ e)%Z by (apply Z.pow_pos_nonneg; lia). nia.
  - apply round_half_even_nonneg; [nia|]. apply Z.pow_pos_nonneg; lia.
Qed.

Lemma fixed_reads (k : nat) (grouped percent flag : bool) (x : float) :
  clean_number (PyStr (fixed k grouped x ++ (if percent then "%" else "")))
               flag
  = if flag then printed_value k x / 100 else printed_value k x.
Proof.
  unfold fixed, printed_value.
  destruct (Prim2SF x) as [s|s| |s m e].
  - unfold clean_number. fold (cleaned_text (signed s (unsigned k grouped 0)
                                  ++ (if percent then "%" else ""))).
    rewrite cleaned_printed.
    destruct (printed_reads k s 0 ltac:(lia)) as [Hne Hf].
    apply String.eqb_neq in Hne. now rewrite Hne, Hf.
  - destruct s, percent, flag; reflexivity.
  - destruct percent, flag; reflexivity.
  - unfold clean_number.
    fold (cleaned_text (signed s (unsigned k grouped (scaled_digits k m e))
                        ++ (if percent then "%" else ""))).
    rewrite cleaned_printed.
    destruct (printed_reads k s _ (scaled_digits_nonneg k m e)) as [Hne Hf].
    apply String.eqb_neq in Hne. now rewrite Hne, Hf.
Qed.

(** What the page prints, [clean_number] reads: an amount printed without
    currency reads as the binary64 nearest to the printed integer, commas
    or not, and a printed percentage reads, under the percentage flag, as
    the hundredth of the printed decimal; "nan" and "inf" read as
    themselves.  An amount printed with the default currency reads as
    0.0. *)
Theorem printed_numbers_read_back (x : float) :
  (exists s, format_currency (PyFloat x) "" = inr s
             /\ clean_number (PyStr s) false = printed_value 0 x)
  /\ (exists s, format_percentage (PyFloat x) = inr s
                /\ clean_number (PyStr s) true = printed_value 1 x / 100)
  /\ (exists s, format_currency (PyFloat x) "SAR" = inr s
                /\ clean_number (PyStr s) false = 0).
Proof.
  split; [|split].
  - exists (fixed 0 true x). split; [reflexivity|].
    pose proof (fixed_reads 0 true false false x) as H.
    cbv iota in H. now rewrite app_empty in H.
  - exists (fixed 1 false x ++ "%"). split; [reflexivity|].
    exact (fixed_reads 1 false true true x).
  - exists (fixed 0 true x ++ " SAR"). split; [apply currency_default|].
    apply with_currency_unreadable.
Qed.

(** 1,234,567.5 is printed as "1,234,568" and read back as 1234568; 2.25%
    is printed as "2.2%" and read back as 2.2 / 100. *)
Lemma printed_numbers_read_back_example :
  format_currency (PyFloat 1234567.5) "" = inr "1,234,568"
  /\ clean_number (PyStr "1,234,568") false = 1234568
  /\ format_percentage (PyFloat 2.25) = inr "2.2%"
  /\ clean_number (PyStr "2.2%") true = 2.2 / 100
  /\ clean_number (PyStr "1,234,568 SAR") false = 0.
Proof.
  destruct (printed_numbers_read_back 1234567.5)
    as ((s1 & F1 & R1) & _ & (s3 & F3 & R3)).
  destruct (printed_numbers_read_back 2.25) as (_ & (s2 & F2 & R2) & _).
  vm_compute in F1. injection F1 as <-.
  vm_compute in F2. injection F2 as <-.
  vm_compute in F3. injection F3 as <-.
  split; [reflexivity|]. split; [rewrite R1; reflexivity|].
  split; [reflexivity|]. split; [rewrite R2; reflexivity | exact R3].
Defined.

End FormatFacts.

(** ** The page across script runs *)

Module AppFacts.

Local Open Scope string_scope.
Local Open Scope list_scope.

Lemma consistent_initial : App.consistent App.initial.
Proof. split; [split; reflexivity | now left]. Qed.

Lemma consistent_run (st : App.session_state) (ev : App.event) :
  App.consistent st -> App.consistent (App.script_run st ev).
Proof.
  intros C. pose proof C as [[H1 H2] H3]. unfold App.script_run.
  destruct st as [[u|] [s|] l]; simpl in *;
    try (specialize (H1 eq_refl); discriminate);
    try (specialize (H2 eq_refl); discriminate).
  - destruct ev as [e p r | raises | now client size rate fee n | remove
                    | insert | ]; trivial.
    + unfold App.logout. destruct raises; [exact C | exact consistent_initial].
    + destruct (Profit.missing (App.id u)) eqn:M; [exact C|].
      split; [split; discriminate|]. right. now exists u.
    + destruct (Profit.missing (App.id u)) eqn:M; [exact C|].
      split; [split; discriminate|]. right. now exists u.
    + destruct (Profit.missing (App.id u)) eqn:M; [exact C|].
      split; [split; discriminate|]. right. now exists u.
    + destruct (Profit.missing (App.id u)) eqn:M; exact C.
  - assert (L : l = []) by (destruct H3 as [L | (u & Hu & _)]; [exact L | discriminate]).
    destruct ev as [e p r | | | | | ]; trivial.
    unfold App.show_login_form.
    destruct (_ || _)%bool; [exact C|].
    destruct r as [|[u|] [s|]]; try exact C.
    split; [split; discriminate | now left].
Qed.

Lemma fold_invariant {S E} (P : S -> Prop) (f : S -> E -> S) :
  (forall s e, P s -> P (f s e)) ->
  forall (l : list E) (s : S), P s -> P (fold_left f l s).
Proof.
  intros Hf. induction l as [|e l IH]; simpl; intros s Hs; auto.
Qed.

Lemma consistent_after (evs : list App.event) : App.consistent (App.after evs).
Proof.
  unfold App.after.
  apply fold_invariant; [exact consistent_run | exact consistent_initial].
Qed.

(** Whatever the interactions and the answers of the services, the user
    and the session are set together, and deals are staged only while a
    user with an id is logged in: the tabs, and with them the staging
    form, are reached only after a login that gave a user id. *)
Theorem staging_needs_login (evs : list App.event) :
  let st := App.after evs in
  (App.user st = None <-> App.session st = None)
  /\ (App.unsaved_deals st <> [] ->
      exists u s, App.user st = Some u /\ App.session st = Some s
                  /\ Profit.missing (App.id u) = false).
Proof.
  intros st. destruct (consistent_after evs) as [[H1 H2] H3]. fold st in H1, H2, H3.
  split; [split; assumption|]. intros Hne.
  destruct H3 as [E | (u & Hu & M)]; [contradiction|].
  destruct (App.session st) as [s|] eqn:Hs.
  - now exists u, s.
  - rewrite (H2 eq_refl) in Hu. discriminate.
Qed.

Lemma staging_needs_login_witness :
  exists u, App.user (App.after App.a_visit) = Some u
            /\ App.id u = Some "user-1".
Proof.
  destruct (staging_needs_login App.a_visit) as [_ H].
  destruct H as (u & s & Hu & _ & _).
  - intros E. vm_compute in E. discriminate E.
  - exists u. split; [exact Hu|].
    vm_compute in Hu. injection Hu as <-. reflexivity.
Defined.

Lemma run_keeps_staged (st : App.session_state) (ev : App.event) :
  App.within_form_bounds ev ->
  Profit.staged (App.unsaved_deals st) ->
  Profit.staged (App.unsaved_deals (App.script_run st ev)).
Proof.
  intros Hb Hs. unfold App.script_run.
  destruct (App.user st) as [u|]; [destruct (App.session st) as [s|]|].
  - destruct ev as [e p r | raises | now client size rate fee n | remove
                    | insert | ]; simpl; trivial.
    + unfold App.logout. destruct raises; simpl; [assumption | constructor].
    + destruct (Profit.missing (App.id u)); simpl; trivial.
      destruct Hb. now constructor.
    + destruct (Profit.missing (App.id u)); simpl; trivial. now constructor.
    + destruct (Profit.missing (App.id u)); simpl; trivial.
      unfold Profit.save_all_staged.
      destruct (_ <? _)%nat; trivial.
      destruct (Profit.missing _); trivial.
      destruct (Profit.save_deal_bundle_to_db _ _ _ _); [constructor | trivial].
    + destruct (Profit.missing (App.id u)); simpl; trivial.
  - destruct ev; simpl; trivial. unfold App.show_login_form.
    destruct (_ || _)%bool; trivial.
    destruct response as [|[?|] [?|]]; trivial.
  - destruct ev; simpl; trivial. unfold App.show_login_form.
    destruct (_ || _)%bool; trivial.
    destruct response as [|[?|] [?|]]; trivial.
Qed.

Lemma after_staged (evs : list App.event) :
  Forall App.within_form_bounds evs ->
  Profit.staged (App.unsaved_deals (App.after evs)).
Proof.
  unfold App.after.
  assert (G : forall l st,
             Forall App.within_form_bounds l ->
             Profit.staged (App.unsaved_deals st) ->
             Profit.staged (App.unsaved_deals (fold_left App.script_run l st))).
  { induction l as [|ev l IH]; simpl; intros st H Hst; trivial.
    inversion H; subst. apply IH; trivial. now apply run_keeps_staged. }
  intros H. apply G; trivial. constructor.
Qed.

(** When the sizes and months typed into the staging form respect the
    bounds of its number inputs, every deal in the staging area, after any
    sequence of logins, logouts, additions, removals and saves, passes the
    checks of the save: the rows that "Save All Staged Deals" sends are
    the staged deals, none skipped. *)
Theorem page_stages_valid_deals (evs : list App.event) (uid : string) :
  Forall App.within_form_bounds evs ->
  let l := App.unsaved_deals (App.after evs) in
  Forall (fun d => Profit.valid_deal d = true) l
  /\ map Profit.db_fields (Profit.prepare uid l) = l.
Proof.
  intros H l. pose proof (after_staged evs H) as S. fold l in S.
  pose proof (ProfitMore.staged_valid l S) as V. split; [exact V|].
  unfold Profit.prepare. rewrite (ProfitMore.filter_all _ _ V), map_map.
  simpl. apply map_id.
Qed.

Lemma page_stages_valid_deals_witness :
  List.length (App.unsaved_deals (App.after App.a_visit)) = 1%nat
  /\ map Profit.db_fields
         (Profit.prepare "user-1" (App.unsaved_deals (App.after App.a_visit)))
     = App.unsaved_deals (App.after App.a_visit).
Proof.
  assert (B : Forall App.within_form_bounds App.a_visit).
  { unfold App.a_visit. repeat constructor; simpl; lia. }
  destruct (page_stages_valid_deals App.a_visit "user-1" B) as [_ E].
  split; [reflexivity | exact E].
Defined.

End AppFacts.
